(** * wav_meta_parser: the chunk decoders of [chunk.py]

    A shallow embedding of the RIFF/WAVE chunk decoders.  Python values are
    modelled as follows:

    - [bytes] is a list of [Byte.byte];
    - [str] is the list of the Unicode code points of the string;
    - [int] is [Z] (Python integers are unbounded);
    - an [Enum] class is an inductive type, and a value that may also be
      Python's [None] is an [option];
    - a raised exception is the [Raise] branch of [result];
    - a method that assigns attributes of [self] is a state transformer
      [M Self A] over the record of the attributes of [self]. *)

From Stdlib Require Import ZArith List Lia Bool String Ascii.
From Stdlib.Strings Require Import Byte.
Import ListNotations.
Local Open Scope Z_scope.

(* ===================================================================== *)
(** ** Python built-ins used by the decoders *)
(* ===================================================================== *)

Definition bytes := list byte.
Definition str := list Z.

Definition byte_val (b : byte) : Z := Z.of_N (Byte.to_N b).

(** [len(x)] *)
Definition len {A : Type} (l : list A) : Z := Z.of_nat (List.length l).

(** A [str] literal and a [bytes] literal (ASCII only). *)
Definition lit (s : string) : str :=
  map (fun a => Z.of_N (N_of_ascii a)) (list_ascii_of_string s).

Definition blit (s : string) : bytes := list_byte_of_string s.

(** [a == b] on [str]. *)
Fixpoint str_eqb (a b : str) : bool :=
  match a, b with
  | [], [] => true
  | x :: a', y :: b' => (x =? y) && str_eqb a' b'
  | _, _ => false
  end.

(** Index adjustment of a slice bound: a negative bound counts from the
    end, and the result is clipped to [0, n]. *)
Definition adjust (n i : Z) : Z :=
  if i <? 0 then Z.max (i + n) 0 else Z.min i n.

(** [l[start:stop]] *)
Definition slice {A : Type} (l : list A) (start stop : Z) : list A :=
  let lo := adjust (len l) start in
  let hi := adjust (len l) stop in
  firstn (Z.to_nat (hi - lo)) (skipn (Z.to_nat lo) l).

(** [byte_seq.find(b, start, stop)] for a one-byte needle [b]: the lowest
    index in [byte_seq[start:stop]] holding [b], or [-1]. *)
Fixpoint find_from (b : byte) (l : bytes) (i : Z) : Z :=
  match l with
  | [] => -1
  | x :: r => if Byte.eqb x b then i else find_from b r (i + 1)
  end.

Definition find (l : bytes) (b : byte) (start stop : Z) : Z :=
  find_from b (slice l start stop) (adjust (len l) start).

(** [int.from_bytes(bs, byteorder=..., signed=...)] *)
Inductive byteorder : Set := little | big.

Fixpoint le_uint (bs : bytes) : Z :=
  match bs with
  | [] => 0
  | b :: r => byte_val b + 256 * le_uint r
  end.

Definition int_from_bytes (bs : bytes) (order : byteorder) (signed : bool) : Z :=
  let u := match order with
           | little => le_uint bs
           | big => le_uint (rev bs)
           end in
  if signed && (0 <? len bs) && (2 ^ (8 * len bs - 1) <=? u)
  then u - 2 ^ (8 * len bs)
  else u.

(** [bs.decode("utf-8")] with the default strict error handler: [None]
    stands for [UnicodeDecodeError].  Overlong forms, surrogates and code
    points above U+10FFFF are rejected. *)
Definition in_range (lo hi c : Z) : bool := (lo <=? c) && (c <=? hi).

Definition cont (c : Z) : bool := in_range 128 191 c.

Fixpoint utf8_decode (bs : bytes) : option str :=
  match bs with
  | [] => Some []
  | b0 :: r0 =>
    let c0 := byte_val b0 in
    if c0 <? 128 then option_map (cons c0) (utf8_decode r0)
    else if c0 <? 194 then None
    else if c0 <? 224 then
      match r0 with
      | b1 :: r1 =>
        let c1 := byte_val b1 in
        if cont c1
        then option_map (cons ((c0 - 192) * 64 + (c1 - 128))) (utf8_decode r1)
        else None
      | _ => None
      end
    else if c0 <? 240 then
      match r0 with
      | b1 :: b2 :: r2 =>
        let c1 := byte_val b1 in
        let c2 := byte_val b2 in
        let lo := if c0 =? 224 then 160 else 128 in
        let hi := if c0 =? 237 then 159 else 191 in
        if in_range lo hi c1 && cont c2
        then option_map
               (cons ((c0 - 224) * 4096 + (c1 - 128) * 64 + (c2 - 128)))
               (utf8_decode r2)
        else None
      | _ => None
      end
    else if c0 <? 245 then
      match r0 with
      | b1 :: b2 :: b3 :: r3 =>
        let c1 := byte_val b1 in
        let c2 := byte_val b2 in
        let c3 := byte_val b3 in
        let lo := if c0 =? 240 then 144 else 128 in
        let hi := if c0 =? 244 then 143 else 191 in
        if in_range lo hi c1 && cont c2 && cont c3
        then option_map
               (cons ((c0 - 240) * 262144 + (c1 - 128) * 4096
                      + (c2 - 128) * 64 + (c3 - 128)))
               (utf8_decode r3)
        else None
      | _ => None
      end
    else None
  end.

(* ===================================================================== *)
(** ** Exceptions and the state monad of a method body *)
(* ===================================================================== *)

Inductive PyExc : Set := UnicodeDecodeError.

Inductive result (A : Type) : Type :=
| Ret (a : A)
| Raise (e : PyExc).
Arguments Ret {A} a.
Arguments Raise {A} e.

Definition decode (bs : bytes) : result str :=
  match utf8_decode bs with
  | Some s => Ret s
  | None => Raise UnicodeDecodeError
  end.

(** A method body over [self : S] returning an [A]. *)
Definition M (S A : Type) : Type := S -> result (A * S).

Definition ret {S A : Type} (a : A) : M S A := fun s => Ret (a, s).

Definition bind {S A B : Type} (m : M S A) (k : A -> M S B) : M S B :=
  fun s => match m s with
           | Ret (a, s') => k a s'
           | Raise e => Raise e
           end.

Definition get {S : Type} : M S S := fun s => Ret (s, s).

Definition modify {S : Type} (f : S -> S) : M S unit := fun s => Ret (tt, f s).

(** A call of a function that has no [self]. *)
Definition call {S A : Type} (r : result A) : M S A :=
  fun s => match r with
           | Ret a => Ret (a, s)
           | Raise e => Raise e
           end.

(** [if c: body] *)
Definition when {S : Type} (c : bool) (body : M S unit) : M S unit :=
  if c then body else ret tt.

(** The object left by a method call, or the exception it raised. *)
Definition exec {S A : Type} (m : M S A) (self : S) : result S :=
  match m self with
  | Ret (_, s') => Ret s'
  | Raise e => Raise e
  end.

Declare Scope py_scope.
Delimit Scope py_scope with py.
Notation "x <- m ;; k" := (bind m (fun x => k))
  (at level 61, m at next level, right associativity) : py_scope.
Notation "' pat <- m ;; k" := (bind m (fun x => match x with pat => k end))
  (at level 61, pat pattern, m at next level, right associativity) : py_scope.
Notation "m ;; k" := (bind m (fun _ => k))
  (at level 61, right associativity) : py_scope.
Local Open Scope py_scope.

(* ===================================================================== *)
(** ** [ChunkType] *)
(* ===================================================================== *)

Inductive ChunkType : Set :=
| UNKNOWN | RIFF | STANDARD_FMT | NON_STANDARD_FMT | EXTENSIBLE_FMT | DATA | BEXT.

Definition ChunkType_value (t : ChunkType) : Z :=
  match t with
  | UNKNOWN => -1
  | RIFF => 0
  | STANDARD_FMT => 1
  | NON_STANDARD_FMT => 2
  | EXTENSIBLE_FMT => 3
  | DATA => 4
  | BEXT => 6
  end.

Definition ChunkType_eqb (a b : ChunkType) : bool :=
  ChunkType_value a =? ChunkType_value b.

(** [a == b] where either side may be [None]. *)
Definition type_eqb (a b : option ChunkType) : bool :=
  match a, b with
  | Some x, Some y => ChunkType_eqb x y
  | None, None => true
  | _, _ => false
  end.

(** [a != b] *)
Definition str_neb (a b : str) : bool := negb (str_eqb a b).
Definition type_neb (a b : option ChunkType) : bool := negb (type_eqb a b).
Definition int_neb (a b : Z) : bool := negb (a =? b).

(* ===================================================================== *)
(** ** [class BaseChunk] *)
(* ===================================================================== *)

Module BaseChunk.

(** The attributes of a [BaseChunk] object. *)
Record t : Type := mk {
  chunk_name : str;
  chunk_type : option ChunkType;
  chunk_size : Z;
  valid : bool
}.

Definition __init__ : t :=
  {| chunk_name := lit "";
     chunk_type := Some UNKNOWN;
     chunk_size := 0;
     valid := false |}.

Definition with_valid (v : bool) (b : t) : t :=
  mk (chunk_name b) (chunk_type b) (chunk_size b) v.

(** A class derived from [BaseChunk]: its objects carry the attributes of
    a [BaseChunk], and the inherited methods act on them. *)
Class Sub (T : Type) : Type := {
  super : T -> t;
  with_super : t -> T -> T;
  super_with_super : forall b s, super (with_super b s) = b
}.

#[global] Instance Sub_self : Sub t :=
  {| super := fun s => s;
     with_super := fun b _ => b;
     super_with_super := fun _ _ => eq_refl |}.

(** *** Static and class methods *)

Definition parse_int (byte_seq : bytes) (start_pos length : Z)
           (byte_order : byteorder) (signed : bool) : Z :=
  int_from_bytes (slice byte_seq start_pos length) byte_order signed.

Definition parse_str (byte_seq : bytes) (start_pos end_pos : Z) : str :=
  let end_pos := if end_pos =? -1 then len byte_seq else end_pos in
  let end_flag_idx := find byte_seq x00 start_pos end_pos in
  let end_flag_idx := if end_flag_idx =? -1 then end_pos else end_flag_idx in
  if start_pos >=? end_flag_idx then lit ""
  else
    match decode (slice byte_seq start_pos end_flag_idx) with
    | Ret s => s
    | Raise UnicodeDecodeError => lit ""
    end.

Definition get_chunk_name (byte_seq : bytes) (chunk_start_pos : Z) : result str :=
  if chunk_start_pos + 4 >? len byte_seq then Ret (lit "")
  else decode (slice byte_seq chunk_start_pos (chunk_start_pos + 4)).

Definition get_chunk_size (byte_seq : bytes) (chunk_start_pos : Z) : Z :=
  if chunk_start_pos + 8 >? len byte_seq then -1
  else parse_int byte_seq (chunk_start_pos + 4) (chunk_start_pos + 8) little false.

(** The function has no [return] after its last [elif]: for any other
    name it returns Python's [None], here the [None] of [option]. *)
Definition get_chunk_type (byte_seq : bytes) (chunk_start_pos : Z)
  : result (option ChunkType) :=
  if chunk_start_pos + 4 >? len byte_seq then Ret (Some UNKNOWN)
  else
    match get_chunk_name byte_seq chunk_start_pos with
    | Raise e => Raise e
    | Ret chunk_name =>
      if str_eqb chunk_name (lit "RIFF") then Ret (Some RIFF)
      else if str_eqb chunk_name (lit "fmt ") then
        let chunk_size := get_chunk_size byte_seq chunk_start_pos in
        if chunk_size =? 16 then Ret (Some STANDARD_FMT)
        else if chunk_size =? 18 then Ret (Some NON_STANDARD_FMT)
        else if chunk_size =? 40 then Ret (Some EXTENSIBLE_FMT)
        else Ret (Some UNKNOWN)
      else if str_eqb chunk_name (lit "data") then Ret (Some DATA)
      else if str_eqb chunk_name (lit "bext") then Ret (Some BEXT)
      else Ret None
    end.

(** *** Methods on [self], inherited by every derived class *)

Section Methods.
Context {T : Type} `{Sub T}.

(** Reading [self.a] and the assignment [self.a = v]. *)
Definition attr {A : Type} (a : t -> A) : M T A :=
  fun self => Ret (a (super self), self).

Definition update (f : t -> t) : M T unit :=
  modify (fun self => with_super (f (super self)) self).

Definition set_chunk_name (v : str) : M T unit :=
  update (fun b => mk v (chunk_type b) (chunk_size b) (valid b)).

Definition set_chunk_type (v : option ChunkType) : M T unit :=
  update (fun b => mk (chunk_name b) v (chunk_size b) (valid b)).

Definition set_chunk_size (v : Z) : M T unit :=
  update (fun b => mk (chunk_name b) (chunk_type b) v (valid b)).

Definition set_valid (v : bool) : M T unit :=
  update (with_valid v).

Definition parse (byte_seq : bytes) (chunk_start_pos : Z) : M T unit :=
  name <- call (get_chunk_name byte_seq chunk_start_pos) ;;
  set_chunk_name name ;;
  type <- call (get_chunk_type byte_seq chunk_start_pos) ;;
  set_chunk_type type ;;
  set_chunk_size (get_chunk_size byte_seq chunk_start_pos).

Definition get_bytes (byte_data : bytes) (start_pos length : Z)
           (valid_check : bool) : M T (bytes * Z) :=
  if start_pos + length >? len byte_data then
    v <- attr valid ;;
    set_valid (negb valid_check && v) ;;
    ret ([], start_pos + length)
  else
    ret (slice byte_data start_pos (start_pos + length), start_pos + length).

End Methods.

End BaseChunk.

(* ===================================================================== *)
(** ** [class RiffChunk(BaseChunk)] *)
(* ===================================================================== *)

Module RiffChunk.
Import BaseChunk.

Record t : Type := mk {
  base : BaseChunk.t;
  wave_symbol : str
}.

#[global] Instance Sub_RiffChunk : Sub t :=
  {| super := base;
     with_super := fun b s => mk b (wave_symbol s);
     super_with_super := fun _ _ => eq_refl |}.

Definition __init__ : t :=
  {| base := BaseChunk.__init__; wave_symbol := lit "" |}.

Definition set_wave_symbol (v : str) : M t unit :=
  modify (fun self => mk (base self) v).

Definition parse (byte_seq : bytes) (chunk_start_pos : Z) : M t unit :=
  BaseChunk.parse byte_seq chunk_start_pos ;;
  (* check name, type and size *)
  name <- attr chunk_name ;;
  when (str_neb name (lit "RIFF")) (set_valid false) ;;
  type <- attr chunk_type ;;
  when (type_neb type (Some RIFF)) (set_valid false) ;;
  size <- attr chunk_size ;;
  when (int_neb size 4) (set_valid false) ;;
  (* check wave symbol *)
  '(wave_symbol_bytes, _) <- get_bytes byte_seq (chunk_start_pos + 8) 4 true ;;
  set_wave_symbol (parse_str wave_symbol_bytes 0 (-1)) ;;
  self <- get ;;
  when (str_neb (wave_symbol self) (lit "WAVE")) (set_valid false).

End RiffChunk.

(* ===================================================================== *)
(** ** [class BaseFormatChunk(BaseChunk)] and its three variants *)
(* ===================================================================== *)

Module BaseFormatChunk.
Import BaseChunk.

Module FormatTag.
Inductive t : Set := UNKNOWN | PCM | IEEE_FLOAT | ALAW | MULAW | EXTENSIBLE.

Definition value (x : t) : Z :=
  match x with
  | UNKNOWN => -1
  | PCM => 1
  | IEEE_FLOAT => 3
  | ALAW => 6
  | MULAW => 7
  | EXTENSIBLE => 65534
  end.
End FormatTag.

Record t : Type := mk {
  base : BaseChunk.t;
  format_tag : FormatTag.t;
  _channels : bytes;
  _sample_rate : bytes;
  _byte_rate : bytes;
  _block_align : bytes;
  _bits_per_sample : bytes
}.

Definition __init__ : t :=
  {| base := BaseChunk.__init__;
     format_tag := FormatTag.UNKNOWN;
     _channels := [];
     _sample_rate := [];
     _byte_rate := [];
     _block_align := [];
     _bits_per_sample := [] |}.

(** A class derived from [BaseFormatChunk]. *)
Class FSub (T : Type) : Type := {
  fsuper : T -> t;
  with_fsuper : t -> T -> T;
  fsuper_with_fsuper : forall b s, fsuper (with_fsuper b s) = b
}.

#[global] Instance FSub_self : FSub t :=
  {| fsuper := fun s => s;
     with_fsuper := fun b _ => b;
     fsuper_with_fsuper := fun _ _ => eq_refl |}.

Definition with_base (b : BaseChunk.t) (s : t) : t :=
  mk b (format_tag s) (_channels s) (_sample_rate s) (_byte_rate s)
     (_block_align s) (_bits_per_sample s).

#[global] Instance Sub_of_FSub (T : Type) `{FSub T} : Sub T :=
  {| super := fun s => base (fsuper s);
     with_super := fun b s => with_fsuper (with_base b (fsuper s)) s;
     super_with_super := fun b s =>
       f_equal base (fsuper_with_fsuper (with_base b (fsuper s)) s) |}.

Definition _get_format_tag (byte_data : bytes) : FormatTag.t :=
  let format_tag_int := parse_int byte_data 0 2 little false in
  if format_tag_int =? 1 then FormatTag.PCM
  else if format_tag_int =? 3 then FormatTag.IEEE_FLOAT
  else if format_tag_int =? 6 then FormatTag.ALAW
  else if format_tag_int =? 7 then FormatTag.MULAW
  else if format_tag_int =? 65534 then FormatTag.EXTENSIBLE
  else FormatTag.UNKNOWN.

Section Methods.
Context {T : Type} `{FSub T}.

Definition fupdate (f : t -> t) : M T unit :=
  modify (fun self => with_fsuper (f (fsuper self)) self).

Definition set_format_tag (v : FormatTag.t) : M T unit :=
  fupdate (fun s => mk (base s) v (_channels s) (_sample_rate s)
                       (_byte_rate s) (_block_align s) (_bits_per_sample s)).

Definition set__channels (v : bytes) : M T unit :=
  fupdate (fun s => mk (base s) (format_tag s) v (_sample_rate s)
                       (_byte_rate s) (_block_align s) (_bits_per_sample s)).

Definition set__sample_rate (v : bytes) : M T unit :=
  fupdate (fun s => mk (base s) (format_tag s) (_channels s) v
                       (_byte_rate s) (_block_align s) (_bits_per_sample s)).

Definition set__byte_rate (v : bytes) : M T unit :=
  fupdate (fun s => mk (base s) (format_tag s) (_channels s) (_sample_rate s)
                       v (_block_align s) (_bits_per_sample s)).

Definition set__block_align (v : bytes) : M T unit :=
  fupdate (fun s => mk (base s) (format_tag s) (_channels s) (_sample_rate s)
                       (_byte_rate s) v (_bits_per_sample s)).

Definition set__bits_per_sample (v : bytes) : M T unit :=
  fupdate (fun s => mk (base s) (format_tag s) (_channels s) (_sample_rate s)
                       (_byte_rate s) (_block_align s) v).

Definition parse (byte_seq : bytes) (chunk_start_pos : Z) : M T unit :=
  BaseChunk.parse byte_seq chunk_start_pos ;;
  (* check name *)
  name <- attr chunk_name ;;
  when (str_neb name (lit "fmt ")) (set_valid false) ;;
  let start_pos := chunk_start_pos + 8 in
  (* check format tag *)
  '(format_tag_bytes, start_pos) <- get_bytes byte_seq start_pos 2 true ;;
  set_format_tag (_get_format_tag format_tag_bytes) ;;
  (* check channels *)
  '(b, start_pos) <- get_bytes byte_seq start_pos 2 true ;;
  set__channels b ;;
  (* check sample rate *)
  '(b, start_pos) <- get_bytes byte_seq start_pos 4 true ;;
  set__sample_rate b ;;
  (* check byte rate *)
  '(b, start_pos) <- get_bytes byte_seq start_pos 4 true ;;
  set__byte_rate b ;;
  (* check block align *)
  '(b, start_pos) <- get_bytes byte_seq start_pos 2 true ;;
  set__block_align b ;;
  (* check bits per sample *)
  '(b, _) <- get_bytes byte_seq start_pos 2 true ;;
  set__bits_per_sample b.

(** The properties. *)
Definition channels (self : T) : Z :=
  parse_int (_channels (fsuper self)) 0 2 little false.
Definition sample_rate (self : T) : Z :=
  parse_int (_sample_rate (fsuper self)) 0 4 little false.
Definition byte_rate (self : T) : Z :=
  parse_int (_byte_rate (fsuper self)) 0 4 little false.
Definition block_align (self : T) : Z :=
  parse_int (_block_align (fsuper self)) 0 2 little false.
Definition bits_per_sample (self : T) : Z :=
  parse_int (_bits_per_sample (fsuper self)) 0 2 little false.

End Methods.

End BaseFormatChunk.

Module StandardPCMFormatChunk.
Import BaseChunk.

Record t : Type := mk { fbase : BaseFormatChunk.t }.

#[global] Instance FSub_StandardPCMFormatChunk : BaseFormatChunk.FSub t :=
  {| BaseFormatChunk.fsuper := fbase;
     BaseFormatChunk.with_fsuper := fun b _ => mk b;
     BaseFormatChunk.fsuper_with_fsuper := fun _ _ => eq_refl |}.

Definition __init__ : t := {| fbase := BaseFormatChunk.__init__ |}.

Definition parse (byte_seq : bytes) (chunk_start_pos : Z) : M t unit :=
  BaseFormatChunk.parse byte_seq chunk_start_pos ;;
  (* check type and size *)
  type <- attr chunk_type ;;
  when (type_neb type (Some STANDARD_FMT)) (set_valid false) ;;
  size <- attr chunk_size ;;
  when (int_neb size 16) (set_valid false).

End StandardPCMFormatChunk.

Module NonPCMFormatChunk.
Import BaseChunk.

Record t : Type := mk {
  fbase : BaseFormatChunk.t;
  _extension_size : bytes
}.

#[global] Instance FSub_NonPCMFormatChunk : BaseFormatChunk.FSub t :=
  {| BaseFormatChunk.fsuper := fbase;
     BaseFormatChunk.with_fsuper := fun b s => mk b (_extension_size s);
     BaseFormatChunk.fsuper_with_fsuper := fun _ _ => eq_refl |}.

Definition __init__ : t :=
  {| fbase := BaseFormatChunk.__init__; _extension_size := [] |}.

Definition set__extension_size (v : bytes) : M t unit :=
  modify (fun self => mk (fbase self) v).

Definition parse (byte_seq : bytes) (chunk_start_pos : Z) : M t unit :=
  BaseFormatChunk.parse byte_seq chunk_start_pos ;;
  (* check type and size *)
  type <- attr chunk_type ;;
  when (type_neb type (Some NON_STANDARD_FMT)) (set_valid false) ;;
  size <- attr chunk_size ;;
  when (int_neb size 18) (set_valid false) ;;
  (* check extension chunk size *)
  '(b, _) <- get_bytes byte_seq (chunk_start_pos + 24) 2 true ;;
  set__extension_size b.

Definition extension_size (self : t) : Z :=
  parse_int (_extension_size self) 0 2 little false.

End NonPCMFormatChunk.

Module ExtensibleFormatChunk.
Import BaseChunk.

Record t : Type := mk {
  fbase : BaseFormatChunk.t;
  _extension_size : bytes;
  _valid_bits_per_sample : bytes;
  _channel_mask : bytes;
  sub_format : bytes
}.

#[global] Instance FSub_ExtensibleFormatChunk : BaseFormatChunk.FSub t :=
  {| BaseFormatChunk.fsuper := fbase;
     BaseFormatChunk.with_fsuper := fun b s =>
       mk b (_extension_size s) (_valid_bits_per_sample s) (_channel_mask s)
          (sub_format s);
     BaseFormatChunk.fsuper_with_fsuper := fun _ _ => eq_refl |}.

Definition __init__ : t :=
  {| fbase := BaseFormatChunk.__init__;
     _extension_size := [];
     _valid_bits_per_sample := [];
     _channel_mask := [];
     sub_format := [] |}.

Definition set__extension_size (v : bytes) : M t unit :=
  modify (fun s => mk (fbase s) v (_valid_bits_per_sample s) (_channel_mask s)
                      (sub_format s)).
Definition set__valid_bits_per_sample (v : bytes) : M t unit :=
  modify (fun s => mk (fbase s) (_extension_size s) v (_channel_mask s)
                      (sub_format s)).
Definition set__channel_mask (v : bytes) : M t unit :=
  modify (fun s => mk (fbase s) (_extension_size s) (_valid_bits_per_sample s) v
                      (sub_format s)).
Definition set_sub_format (v : bytes) : M t unit :=
  modify (fun s => mk (fbase s) (_extension_size s) (_valid_bits_per_sample s)
                      (_channel_mask s) v).

Definition parse (byte_seq : bytes) (chunk_start_pos : Z) : M t unit :=
  BaseFormatChunk.parse byte_seq chunk_start_pos ;;
  (* check type and size *)
  type <- attr chunk_type ;;
  when (type_neb type (Some EXTENSIBLE_FMT)) (set_valid false) ;;
  size <- attr chunk_size ;;
  when (int_neb size 40) (set_valid false) ;;
  let start_pos := chunk_start_pos + 24 in
  (* check extension size *)
  '(b, start_pos) <- get_bytes byte_seq start_pos 2 true ;;
  set__extension_size b ;;
  (* check valid bits per sample *)
  '(b, start_pos) <- get_bytes byte_seq start_pos 2 true ;;
  set__valid_bits_per_sample b ;;
  (* check channel mask *)
  '(b, start_pos) <- get_bytes byte_seq start_pos 4 true ;;
  set__channel_mask b ;;
  (* check sub format *)
  '(b, _) <- get_bytes byte_seq start_pos 16 true ;;
  set_sub_format b.

Definition extension_size (self : t) : Z :=
  parse_int (_extension_size self) 0 2 little false.
Definition valid_bits_per_sample (self : t) : Z :=
  parse_int (_valid_bits_per_sample self) 0 2 little false.
Definition channel_mask (self : t) : Z :=
  parse_int (_channel_mask self) 0 4 little false.

End ExtensibleFormatChunk.

(* ===================================================================== *)
(** ** [class DataChunk(BaseChunk)] *)
(* ===================================================================== *)

Module DataChunk.
Import BaseChunk.

Record t : Type := mk {
  base : BaseChunk.t;
  data : bytes
}.

#[global] Instance Sub_DataChunk : Sub t :=
  {| super := base;
     with_super := fun b s => mk b (data s);
     super_with_super := fun _ _ => eq_refl |}.

Definition __init__ : t := {| base := BaseChunk.__init__; data := [] |}.

Definition set_data (v : bytes) : M t unit :=
  modify (fun self => mk (base self) v).

Definition parse (byte_seq : bytes) (chunk_start_pos : Z) : M t unit :=
  BaseChunk.parse byte_seq chunk_start_pos ;;
  (* check name, type *)
  name <- attr chunk_name ;;
  when (str_neb name (lit "data")) (set_valid false) ;;
  type <- attr chunk_type ;;
  when (type_neb type (Some DATA)) (set_valid false) ;;
  (* check data *)
  size <- attr chunk_size ;;
  '(b, _) <- get_bytes byte_seq (chunk_start_pos + 8) size true ;;
  set_data b.

End DataChunk.

(* ===================================================================== *)
(** ** [class FactChunk(BaseChunk)] *)
(* ===================================================================== *)

Module FactChunk.
Import BaseChunk.

Record t : Type := mk {
  base : BaseChunk.t;
  _sample_length : bytes
}.

#[global] Instance Sub_FactChunk : Sub t :=
  {| super := base;
     with_super := fun b s => mk b (_sample_length s);
     super_with_super := fun _ _ => eq_refl |}.

Definition __init__ : t :=
  {| base := BaseChunk.__init__; _sample_length := [] |}.

Definition set__sample_length (v : bytes) : M t unit :=
  modify (fun self => mk (base self) v).

Definition parse (byte_seq : bytes) (chunk_start_pos : Z) : M t unit :=
  BaseChunk.parse byte_seq chunk_start_pos ;;
  (* check name, type and size *)
  name <- attr chunk_name ;;
  when (str_neb name (lit "fact")) (set_valid false) ;;
  type <- attr chunk_type ;;
  when (type_neb type (Some UNKNOWN)) (set_valid false) ;;
  size <- attr chunk_size ;;
  when (int_neb size 4) (set_valid false) ;;
  (* check sample length *)
  '(b, _) <- get_bytes byte_seq (chunk_start_pos + 8) 4 true ;;
  set__sample_length b.

Definition sample_length (self : t) : Z :=
  parse_int (_sample_length self) 0 4 little false.

End FactChunk.

(* ===================================================================== *)
(** ** [class BextChunk(BaseChunk)] *)
(* ===================================================================== *)

Module BextChunk.
Import BaseChunk.

(** The sixteen byte attributes, in the order of [__init__]. *)
Inductive field : Set :=
| _description | _originator | _originator_reference | _originator_date
| _originator_time | _align | _time_reference_low | _time_reference_high
| _version | umid | _loudness_value | _loudness_range
| _max_true_peak_level | _max_momentary_loudness
| _max_short_term_loudness | reserved.

Definition field_eqb (a b : field) : bool :=
  match a, b with
  | _description, _description | _originator, _originator
  | _originator_reference, _originator_reference
  | _originator_date, _originator_date | _originator_time, _originator_time
  | _align, _align | _time_reference_low, _time_reference_low
  | _time_reference_high, _time_reference_high | _version, _version
  | umid, umid | _loudness_value, _loudness_value
  | _loudness_range, _loudness_range
  | _max_true_peak_level, _max_true_peak_level
  | _max_momentary_loudness, _max_momentary_loudness
  | _max_short_term_loudness, _max_short_term_loudness
  | reserved, reserved => true
  | _, _ => false
  end.

(** The object: the base attributes and the value of each byte
    attribute. *)
Record t : Type := mk {
  base : BaseChunk.t;
  fields : field -> bytes
}.

#[global] Instance Sub_BextChunk : Sub t :=
  {| super := base;
     with_super := fun b s => mk b (fields s);
     super_with_super := fun _ _ => eq_refl |}.

Definition __init__ : t :=
  {| base := BaseChunk.__init__; fields := fun _ => [] |}.

(** [self.f = v] *)
Definition set_field (f : field) (v : bytes) : M t unit :=
  modify (fun self =>
            mk (base self) (fun g => if field_eqb g f then v else fields self g)).

Definition parse (byte_seq : bytes) (chunk_start_pos : Z) : M t unit :=
  BaseChunk.parse byte_seq chunk_start_pos ;;
  (* check name, type *)
  name <- attr chunk_name ;;
  when (str_neb name (lit "bext")) (set_valid false) ;;
  type <- attr chunk_type ;;
  when (type_neb type (Some BEXT)) (set_valid false) ;;
  let start_pos := chunk_start_pos + 8 in
  (* check description *)
  '(b, start_pos) <- get_bytes byte_seq start_pos 256 true ;;
  set_field _description b ;;
  (* check originator *)
  '(b, start_pos) <- get_bytes byte_seq start_pos 32 true ;;
  set_field _originator b ;;
  (* check originator reference *)
  '(b, start_pos) <- get_bytes byte_seq start_pos 32 true ;;
  set_field _originator_reference b ;;
  (* check originator date *)
  '(b, start_pos) <- get_bytes byte_seq start_pos 10 true ;;
  set_field _originator_date b ;;
  (* check originator time *)
  '(b, start_pos) <- get_bytes byte_seq start_pos 8 true ;;
  set_field _originator_time b ;;
  (* check align *)
  '(b, start_pos) <- get_bytes byte_seq start_pos 2 true ;;
  set_field _align b ;;
  (* check time reference low *)
  '(b, start_pos) <- get_bytes byte_seq start_pos 4 true ;;
  set_field _time_reference_low b ;;
  (* check time reference high *)
  '(b, start_pos) <- get_bytes byte_seq start_pos 4 true ;;
  set_field _time_reference_high b ;;
  (* check version *)
  '(b, start_pos) <- get_bytes byte_seq start_pos 1 false ;;
  set_field _version b ;;
  (* check umid *)
  '(b, start_pos) <- get_bytes byte_seq start_pos 64 false ;;
  set_field umid b ;;
  (* check loudness value *)
  '(b, start_pos) <- get_bytes byte_seq start_pos 2 false ;;
  set_field _loudness_value b ;;
  (* check loudness range *)
  '(b, start_pos) <- get_bytes byte_seq start_pos 2 false ;;
  set_field _loudness_range b ;;
  (* check max true peak level *)
  '(b, start_pos) <- get_bytes byte_seq start_pos 2 false ;;
  set_field _max_true_peak_level b ;;
  (* check max momentary loudness *)
  '(b, start_pos) <- get_bytes byte_seq start_pos 2 false ;;
  set_field _max_momentary_loudness b ;;
  (* check max short term loudness *)
  '(b, start_pos) <- get_bytes byte_seq start_pos 2 false ;;
  set_field _max_short_term_loudness b ;;
  (* check reserved *)
  '(b, _) <- get_bytes byte_seq start_pos 180 false ;;
  set_field reserved b.

(** The properties. *)
Definition description (self : t) : str := parse_str (fields self _description) 0 (-1).
Definition originator (self : t) : str := parse_str (fields self _originator) 0 (-1).
Definition originator_reference (self : t) : str :=
  parse_str (fields self _originator_reference) 0 (-1).
Definition originator_date (self : t) : str :=
  parse_str (fields self _originator_date) 0 (-1).
Definition originator_time (self : t) : str :=
  parse_str (fields self _originator_time) 0 (-1).
Definition align (self : t) : Z := parse_int (fields self _align) 0 2 little false.
Definition time_reference_low (self : t) : Z :=
  parse_int (fields self _time_reference_low) 0 4 little false.
Definition time_reference_high (self : t) : Z :=
  parse_int (fields self _time_reference_high) 0 4 little false.
Definition version (self : t) : Z := parse_int (fields self _version) 0 1 little false.
Definition loudness_value (self : t) : Z :=
  parse_int (fields self _loudness_value) 0 2 little false.
Definition loudness_range (self : t) : Z :=
  parse_int (fields self _loudness_range) 0 2 little false.
Definition max_true_peak_level (self : t) : Z :=
  parse_int (fields self _max_true_peak_level) 0 2 little false.
Definition max_momentary_loudness (self : t) : Z :=
  parse_int (fields self _max_momentary_loudness) 0 2 little false.
Definition max_short_term_loudness (self : t) : Z :=
  parse_int (fields self _max_short_term_loudness) 0 2 little false.

End BextChunk.

(* ===================================================================== *)
(** ** [CHUNK_TYPE_MAP] *)
(* ===================================================================== *)

(** The classes of the module. *)
Inductive ChunkClass : Set :=
| cls_BaseChunk | cls_RiffChunk | cls_StandardPCMFormatChunk
| cls_NonPCMFormatChunk | cls_ExtensibleFormatChunk | cls_DataChunk
| cls_FactChunk | cls_BextChunk.

(** The dictionary, as the list of its items in the order of the source. *)
Definition CHUNK_TYPE_MAP : list (ChunkType * ChunkClass) :=
  [ (UNKNOWN, cls_BaseChunk);
    (RIFF, cls_RiffChunk);
    (STANDARD_FMT, cls_StandardPCMFormatChunk);
    (NON_STANDARD_FMT, cls_NonPCMFormatChunk);
    (EXTENSIBLE_FMT, cls_ExtensibleFormatChunk);
    (DATA, cls_DataChunk);
    (BEXT, cls_BextChunk) ].

(** [d[key]], where the key may be [None]; the result [None] stands for
    [KeyError]. *)
Fixpoint dict_getitem (d : list (ChunkType * ChunkClass)) (key : option ChunkType)
  : option ChunkClass :=
  match d with
  | [] => None
  | (k, v) :: d' => if type_eqb (Some k) key then Some v else dict_getitem d' key
  end.

(* ===================================================================== *)
(** ** The statements of the specification, as definitions *)
(* ===================================================================== *)

(** The validity flag of the object a call leaves, when it returns. *)
Definition valid_of {T : Type} `{BaseChunk.Sub T} (r : result T) : option bool :=
  match r with
  | Ret s => Some (BaseChunk.valid (BaseChunk.super s))
  | Raise _ => None
  end.

(** The flag is never set back: if it is true after, it was true before. *)
Definition flag_only_cleared {T : Type} `{BaseChunk.Sub T} (s s' : T) : Prop :=
  BaseChunk.valid (BaseChunk.super s') = true ->
  BaseChunk.valid (BaseChunk.super s) = true.

(** Following the specification's words for [read_uint]: the value of
    exactly [length] bytes of the span beginning at [start]. *)
Definition spec_read_uint (span : bytes) (start length : nat)
           (order : byteorder) : Z :=
  int_from_bytes (firstn length (skipn start span)) order false.

(** Weakest precondition of a method body that returns normally. *)
Definition wp {S A : Type} (m : M S A) (Q : A -> S -> Prop) (s : S) : Prop :=
  match m s with
  | Ret (a, s') => Q a s'
  | Raise _ => False
  end.

(** The little-endian encoding of an unsigned 32-bit size field. *)
Definition byte_of_Z (n : Z) : byte :=
  match Byte.of_N (Z.to_N (n mod 256)) with
  | Some b => b
  | None => x00
  end.

Definition u32le (n : Z) : bytes :=
  [byte_of_Z n; byte_of_Z (n / 256); byte_of_Z (n / 65536); byte_of_Z (n / 16777216)].

Definition u16le (n : Z) : bytes := [byte_of_Z n; byte_of_Z (n / 256)].

(** *** Sample buffers *)

(** ["RIFF" + u32(4) + "WAVE"], and the same with another form type. *)
Definition riff_wave : bytes := blit "RIFF" ++ u32le 4 ++ blit "WAVE".
Definition riff_wavx : bytes := blit "RIFF" ++ u32le 4 ++ blit "WAVX".

(** A header whose fourth name byte is not valid UTF-8. *)
Definition riff_bad_name : bytes := blit "RIF" ++ [xff] ++ u32le 4 ++ blit "WAVE".

(** A ["fact"] chunk of 1000 samples. *)
Definition fact_1000 : bytes := blit "fact" ++ u32le 4 ++ u32le 1000.

(** ["data" + u32(10)] followed by [payload]. *)
Definition data_10 (payload : bytes) : bytes := blit "data" ++ u32le 10 ++ payload.
Definition payload_8 : bytes := [x01; x02; x03; x04; x05; x06; x07; x08].

(** ["fmt " + u32(16)] and the 16 bytes of a 44.1 kHz 16-bit stereo PCM
    format. *)
Definition fmt_pcm : bytes :=
  blit "fmt " ++ u32le 16 ++ u16le 1 ++ u16le 2 ++ u32le 44100
       ++ u32le 176400 ++ u16le 4 ++ u16le 16.

(** A ["bext"] chunk cut after [n] body bytes. *)
Definition bext_cut (n : nat) : bytes := blit "bext" ++ u32le 602 ++ repeat x00 n.

(** A [BextChunk] object whose flag has been set. *)
Definition bext_flagged : BextChunk.t :=
  BextChunk.mk (BaseChunk.with_valid true BaseChunk.__init__) (fun _ => []).

(** The buffer ends at or after the last byte of [time_reference_high]
    and before the last byte of [umid]. *)
Definition cut_in_version_or_umid (byte_seq : bytes) (pos : Z) : Prop :=
  pos + 356 <= len byte_seq < pos + 421.

(** A span of six bytes. *)
Definition span_6 : bytes := [x01; x02; x03; x04; x05; x06].

(** ["RIFF"] and ["fmt "] headers cut inside the size field. *)
Definition riff_cut : bytes := blit "RIFF" ++ [x04; x00].
Definition fmt_cut : bytes := blit "fmt " ++ [x10; x00; x00].
Definition data_cut : bytes := blit "data" ++ [x10].
Definition bext_cut_hdr : bytes := blit "bext".

(** *** Definitions for the further properties *)

(** The bytes [get_bytes] returns for a span. *)
Definition read_span (byte_data : bytes) (start_pos length : Z) : bytes :=
  if start_pos + length >? len byte_data then []
  else slice byte_data start_pos (start_pos + length).

(** Every byte is an ASCII character. *)
Definition ascii_bytes (bs : bytes) : Prop := Forall (fun b => byte_val b < 128) bs.

(** No byte is NUL. *)
Definition no_nul (bs : bytes) : Prop := Forall (fun b => b <> x00) bs.

(** The bytes before the first NUL. *)
Fixpoint until_nul (bs : bytes) : bytes :=
  match bs with
  | [] => []
  | b :: r => if Byte.eqb b x00 then [] else b :: until_nul r
  end.

(** Two method bodies run in step: from every object they raise the same
    exception, or return values related by [R] and the same object. *)
Definition in_step {S A : Type} (R : A -> A -> Prop) (m1 m2 : M S A) : Prop :=
  forall s,
    match m1 s, m2 s with
    | Ret (a1, s1), Ret (a2, s2) => R a1 a2 /\ s1 = s2
    | Raise e1, Raise e2 => e1 = e2
    | _, _ => False
    end.

(** A position behind the prefix and the position in the buffer alone. *)
Definition shifted (n : Z) (a1 a2 : bytes * Z) : Prop :=
  fst a1 = fst a2 /\ snd a1 = n + snd a2 /\ 0 <= snd a2.

(** The byte layout of the body of a ["bext"] chunk: the offset of each
    field from the start of the chunk, and its width. *)
Definition bext_offset (f : BextChunk.field) : Z :=
  match f with
  | BextChunk._description => 8
  | BextChunk._originator => 264
  | BextChunk._originator_reference => 296
  | BextChunk._originator_date => 328
  | BextChunk._originator_time => 338
  | BextChunk._align => 346
  | BextChunk._time_reference_low => 348
  | BextChunk._time_reference_high => 352
  | BextChunk._version => 356
  | BextChunk.umid => 357
  | BextChunk._loudness_value => 421
  | BextChunk._loudness_range => 423
  | BextChunk._max_true_peak_level => 425
  | BextChunk._max_momentary_loudness => 427
  | BextChunk._max_short_term_loudness => 429
  | BextChunk.reserved => 431
  end.

Definition bext_width (f : BextChunk.field) : Z :=
  match f with
  | BextChunk._description => 256
  | BextChunk._originator => 32
  | BextChunk._originator_reference => 32
  | BextChunk._originator_date => 10
  | BextChunk._originator_time => 8
  | BextChunk._align => 2
  | BextChunk._time_reference_low => 4
  | BextChunk._time_reference_high => 4
  | BextChunk._version => 1
  | BextChunk.umid => 64
  | BextChunk._loudness_value => 2
  | BextChunk._loudness_range => 2
  | BextChunk._max_true_peak_level => 2
  | BextChunk._max_momentary_loudness => 2
  | BextChunk._max_short_term_loudness => 2
  | BextChunk.reserved => 180
  end.

(** The 16 body bytes of a format chunk. *)
Definition fmt_body (tag channels sample_rate byte_rate block_align bits : Z) : bytes :=
  u16le tag ++ u16le channels ++ u32le sample_rate ++ u32le byte_rate
        ++ u16le block_align ++ u16le bits.

(** A standard format chunk: header and body, 24 bytes. *)
Definition fmt_chunk (tag channels sample_rate byte_rate block_align bits : Z) : bytes :=
  blit "fmt " ++ u32le 16
       ++ fmt_body tag channels sample_rate byte_rate block_align bits.

(** The tag of a format code. *)
Definition format_tag_of (code : Z) : BaseFormatChunk.FormatTag.t :=
  if code =? 1 then BaseFormatChunk.FormatTag.PCM
  else if code =? 3 then BaseFormatChunk.FormatTag.IEEE_FLOAT
  else if code =? 6 then BaseFormatChunk.FormatTag.ALAW
  else if code =? 7 then BaseFormatChunk.FormatTag.MULAW
  else if code =? 65534 then BaseFormatChunk.FormatTag.EXTENSIBLE
  else BaseFormatChunk.FormatTag.UNKNOWN.

(** The name and the size that go with a tag of the classifier. *)
Definition tag_name (t : ChunkType) : str :=
  match t with
  | UNKNOWN => lit ""
  | RIFF => lit "RIFF"
  | STANDARD_FMT | NON_STANDARD_FMT | EXTENSIBLE_FMT => lit "fmt "
  | DATA => lit "data"
  | BEXT => lit "bext"
  end.

Definition tag_size (t : ChunkType) : option Z :=
  match t with
  | STANDARD_FMT => Some 16
  | NON_STANDARD_FMT => Some 18
  | EXTENSIBLE_FMT => Some 40
  | _ => None
  end.

(** Objects whose flag has been set. *)
Definition base_flagged : BaseChunk.t := BaseChunk.with_valid true BaseChunk.__init__.
Definition riff_flagged : RiffChunk.t := RiffChunk.mk base_flagged [].
Definition data_flagged : DataChunk.t := DataChunk.mk base_flagged [].
Definition fact_flagged : FactChunk.t := FactChunk.mk base_flagged [].
Definition std_flagged : StandardPCMFormatChunk.t :=
  StandardPCMFormatChunk.mk
    (BaseFormatChunk.with_base base_flagged BaseFormatChunk.__init__).
Definition nonpcm_flagged : NonPCMFormatChunk.t :=
  NonPCMFormatChunk.mk
    (BaseFormatChunk.with_base base_flagged BaseFormatChunk.__init__) [].
Definition ext_flagged : ExtensibleFormatChunk.t :=
  ExtensibleFormatChunk.mk
    (BaseFormatChunk.with_base base_flagged BaseFormatChunk.__init__) [] [] [] [].

(** Format chunks of the two longer variants, with empty extensions. *)
Definition fmt_18 : bytes :=
  blit "fmt " ++ u32le 18 ++ fmt_body 3 2 48000 384000 8 32 ++ u16le 0.
Definition fmt_40 : bytes :=
  blit "fmt " ++ u32le 40 ++ fmt_body 65534 2 48000 288000 6 24
       ++ u16le 22 ++ u16le 24 ++ u32le 3 ++ repeat x00 16.

(** A text field: ["take 1"], padded with NULs to 32 bytes. *)
Definition take_1 : bytes := blit "take 1".

(* ===================================================================== *)
(** ** Lemmas on the built-ins *)
(* ===================================================================== *)

Lemma len_nonneg {A : Type} (l : list A) : 0 <= len l.
Proof. unfold len. lia. Qed.

Lemma str_eqb_eq (a b : str) : str_eqb a b = true <-> a = b.
Proof.
  revert b; induction a as [|x a IH]; intros [|y b]; simpl; split;
    try discriminate; try reflexivity.
  - intros E. apply andb_true_iff in E as [E1 E2].
    apply Z.eqb_eq in E1. apply IH in E2. congruence.
  - intros E. injection E as -> ->. rewrite Z.eqb_refl. simpl.
    now apply IH.
Qed.

Lemma str_eqb_neq (a b : str) : a <> b -> str_eqb a b = false.
Proof.
  intros Hne. destruct (str_eqb a b) eqn:E; [|reflexivity].
  now apply str_eqb_eq in E.
Qed.

Lemma adjust_id (n i : Z) : 0 <= i <= n -> adjust n i = i.
Proof. intros Hi. unfold adjust. destruct (Z.ltb_spec i 0); lia. Qed.

(** Within bounds, a slice is the usual sub-list. *)
Lemma slice_within {A : Type} (l : list A) (a b : Z) :
  0 <= a -> a <= b -> b <= len l ->
  slice l a b = firstn (Z.to_nat (b - a)) (skipn (Z.to_nat a) l).
Proof.
  intros Ha Hab Hb. unfold slice. rewrite !adjust_id by lia. reflexivity.
Qed.

(** With non-negative bounds, [l[a:b]] holds the elements from index [a]
    up to, and without, index [min b (len l)]. *)
Lemma slice_nonneg {A : Type} (l : list A) (a b : Z) :
  0 <= a -> 0 <= b ->
  slice l a b
  = firstn (Z.to_nat (Z.min b (len l) - a)) (skipn (Z.to_nat a) l).
Proof.
  intros Ha Hb. unfold slice, adjust.
  destruct (Z.ltb_spec a 0); [lia|]. destruct (Z.ltb_spec b 0); [lia|].
  destruct (Z.le_gt_cases a (len l)).
  - now rewrite (Z.min_l a) by lia.
  - rewrite (Z.min_r a) by lia.
    rewrite !skipn_all2 by (unfold len in *; lia).
    now rewrite !firstn_nil.
Qed.

Lemma slice_empty {A : Type} (a b : Z) : slice (@nil A) a b = [].
Proof. unfold slice. rewrite skipn_nil. apply firstn_nil. Qed.

Lemma slice_whole {A : Type} (l : list A) : slice l 0 (len l) = l.
Proof.
  rewrite slice_within by (pose proof (len_nonneg l); lia).
  simpl. rewrite Z.sub_0_r. unfold len. rewrite Nat2Z.id. apply firstn_all.
Qed.

(* ===================================================================== *)
(** ** Rules of the weakest precondition *)
(* ===================================================================== *)

Section WpRules.
Context {S : Type}.

Lemma wp_ret {A : Type} (a : A) (Q : A -> S -> Prop) (s : S) :
  Q a s -> wp (ret a) Q s.
Proof. exact (fun q => q). Qed.

Lemma wp_bind {A B : Type} (m : M S A) (k : A -> M S B)
      (Q : B -> S -> Prop) (s : S) :
  wp m (fun a s' => wp (k a) Q s') s -> wp (bind m k) Q s.
Proof.
  unfold wp, bind. destruct (m s) as [[a s']|e]; [|contradiction].
  exact (fun q => q).
Qed.

Lemma wp_get (Q : S -> S -> Prop) (s : S) : Q s s -> wp get Q s.
Proof. exact (fun q => q). Qed.

Lemma wp_modify (f : S -> S) (Q : unit -> S -> Prop) (s : S) :
  Q tt (f s) -> wp (modify f) Q s.
Proof. exact (fun q => q). Qed.

Lemma wp_call {A : Type} (r : result A) (a : A) (Q : A -> S -> Prop) (s : S) :
  r = Ret a -> Q a s -> wp (call r) Q s.
Proof. intros ->. exact (fun q => q). Qed.

Lemma wp_when (c : bool) (body : M S unit) (Q : unit -> S -> Prop) (s : S) :
  (c = true -> wp body Q s) -> (c = false -> Q tt s) -> wp (when c body) Q s.
Proof.
  unfold when. destruct c; intros Ht Hf.
  - now apply Ht.
  - now apply wp_ret, Hf.
Qed.

Lemma wp_exec {A : Type} (m : M S A) (P : S -> Prop) (s : S) :
  wp m (fun _ s' => P s') s -> exists r, exec m s = Ret r /\ P r.
Proof.
  unfold wp, exec. destruct (m s) as [[a s']|e]; [|contradiction].
  intros HP. exists s'. split; [reflexivity | exact HP].
Qed.

End WpRules.

(** The inherited methods, on the attributes of the base object. *)
Section BaseRules.
Import BaseChunk.
Context {T : Type} `{Sub T}.

Lemma wp_attr {A : Type} (a : BaseChunk.t -> A) (Q : A -> T -> Prop) (s : T) :
  Q (a (super s)) s -> wp (attr a) Q s.
Proof. exact (fun q => q). Qed.

Lemma wp_update (f : BaseChunk.t -> BaseChunk.t) (Q : unit -> T -> Prop) (s : T) :
  (forall s', super s' = f (super s) -> Q tt s') -> wp (update f) Q s.
Proof. intros HQ. apply wp_modify, HQ, super_with_super. Qed.

Lemma wp_set_valid (v : bool) (Q : unit -> T -> Prop) (s : T) :
  (forall s', super s' = with_valid v (super s) -> Q tt s') ->
  wp (set_valid v) Q s.
Proof. apply wp_update. Qed.

Lemma with_valid_same (b : BaseChunk.t) : with_valid (valid b) b = b.
Proof. now destruct b. Qed.

(** [get_bytes] always returns, moves the position by [length], and
    clears the flag exactly when the span is out of bounds and the read
    is checked. *)
Lemma wp_get_bytes (byte_data : bytes) (start_pos length : Z)
      (valid_check : bool) (Q : bytes * Z -> T -> Prop) (s : T) :
  (forall d s',
      super s' = with_valid
                   (valid (super s)
                    && (negb valid_check || (start_pos + length <=? len byte_data)))
                   (super s) ->
      Q (d, start_pos + length) s') ->
  wp (get_bytes byte_data start_pos length valid_check) Q s.
Proof.
  intros HQ. unfold get_bytes.
  rewrite Z.gtb_ltb. destruct (Z.ltb_spec (len byte_data) (start_pos + length)) as [Hlt|Hge].
  - apply wp_bind, wp_attr, wp_bind, wp_set_valid. intros s1 E1.
    apply wp_ret, HQ. rewrite E1. f_equal.
    rewrite (proj2 (Z.leb_gt _ _)) by lia.
    rewrite orb_false_r. apply andb_comm.
  - apply wp_ret, HQ.
    rewrite (proj2 (Z.leb_le _ _)) by lia.
    now rewrite orb_true_r, andb_true_r, with_valid_same.
Qed.

Lemma get_chunk_type_returns (byte_seq : bytes) (pos : Z) (name : str) :
  get_chunk_name byte_seq pos = Ret name ->
  exists ty, get_chunk_type byte_seq pos = Ret ty.
Proof.
  intros E. unfold get_chunk_type. rewrite E.
  repeat match goal with
         | |- context [if ?c then _ else _] => destruct c
         end; eauto.
Qed.

(** [BaseChunk.parse] returns whenever the name decodes, and leaves the
    flag as it was. *)
Lemma wp_BaseChunk_parse (byte_seq : bytes) (pos : Z) (name : str)
      (Q : unit -> T -> Prop) (s : T) :
  get_chunk_name byte_seq pos = Ret name ->
  (forall ty s',
      get_chunk_type byte_seq pos = Ret ty ->
      super s' = BaseChunk.mk name ty (get_chunk_size byte_seq pos)
                              (valid (super s)) ->
      Q tt s') ->
  wp (BaseChunk.parse byte_seq pos) Q s.
Proof.
  intros E HQ. destruct (get_chunk_type_returns _ _ _ E) as [ty Ety].
  unfold BaseChunk.parse.
  apply wp_bind, (wp_call _ name); [exact E|].
  apply wp_bind, wp_update. intros s1 E1.
  apply wp_bind, (wp_call _ ty); [exact Ety|].
  apply wp_bind, wp_update. intros s2 E2.
  apply wp_update. intros s3 E3.
  apply (HQ ty); [exact Ety|].
  rewrite E3, E2, E1. reflexivity.
Qed.

Lemma BaseChunk_parse_raises (byte_seq : bytes) (pos : Z) (e : PyExc) (s : T) :
  get_chunk_name byte_seq pos = Raise e ->
  BaseChunk.parse byte_seq pos s = Raise e.
Proof. intros E. unfold BaseChunk.parse, bind, call. now rewrite E. Qed.

End BaseRules.

Section CheckRules.
Import BaseChunk.
Context {T : Type} `{Sub T}.

(** [if c: self.valid = False] clears the flag exactly when [c] holds. *)
Lemma wp_check (c : bool) (Q : unit -> T -> Prop) (s : T) :
  (forall s',
      super s' = with_valid (valid (super s) && negb c) (super s) -> Q tt s') ->
  wp (when c (set_valid false)) Q s.
Proof.
  intros HQ. apply wp_when; intros ->.
  - apply wp_set_valid. intros s' E. apply HQ.
    now rewrite E, andb_false_r.
  - apply HQ. now rewrite andb_true_r, with_valid_same.
Qed.

(** An assignment to an attribute of a derived class keeps the base
    attributes. *)
Lemma wp_setter (f : T -> T) (Q : unit -> T -> Prop) (s : T) :
  (forall x, super (f x) = super x) ->
  (forall s', super s' = super s -> Q tt s') ->
  wp (modify f) Q s.
Proof. intros Hf HQ. apply wp_modify, HQ, Hf. Qed.

End CheckRules.

Ltac keeps_base :=
  intros; cbn; rewrite ?BaseFormatChunk.fsuper_with_fsuper; reflexivity.

(** One step of a method body. *)
Ltac wp_step :=
  cbv beta iota;
  lazymatch goal with
  | |- wp (bind _ _) _ _ => apply wp_bind
  | |- wp (ret _) _ _ => apply wp_ret
  | |- wp (BaseChunk.attr _) _ _ => apply wp_attr
  | |- wp get _ _ => apply wp_get
  | |- wp (when _ (BaseChunk.set_valid false)) _ _ =>
    apply wp_check; intros ? ?
  | |- wp (BaseChunk.get_bytes _ _ _ _) _ _ =>
    apply wp_get_bytes; intros ? ? ?
  | |- wp _ _ _ => apply wp_setter; [solve [keeps_base] | intros ? ?]
  end.

(** Keeps the base attributes of the current object in the form
    [super s = BaseChunk.mk name type size flag]. *)
Ltac base_norm :=
  repeat match goal with
         | E0 : BaseChunk.super ?x = BaseChunk.mk _ _ _ _,
           E : BaseChunk.super _ = ?rhs |- _ =>
           lazymatch rhs with
           | context [BaseChunk.super x] =>
             rewrite E0 in E; unfold BaseChunk.with_valid in E;
             cbn [BaseChunk.valid BaseChunk.chunk_name
                  BaseChunk.chunk_type BaseChunk.chunk_size] in E;
             clear E0
           end
         end;
  repeat match goal with
         | E0 : BaseChunk.super ?x = BaseChunk.mk _ _ _ _
           |- context [BaseChunk.super ?x] =>
           rewrite E0;
           cbn [BaseChunk.valid BaseChunk.chunk_name
                BaseChunk.chunk_type BaseChunk.chunk_size]
         end.

(** A conjunction of bounds [a_i <=? n] that the bound [b <=? n] decides. *)
Ltac leb_chain b n :=
  destruct (Z.leb_spec b n);
  [ repeat match goal with
           | |- context [?a <=? n] => rewrite (proj2 (Z.leb_le a n)) by lia
           end
  | match goal with
    | |- context [?a <=? n] => rewrite (proj2 (Z.leb_gt a n)) by lia
    end ];
  cbn [negb orb];
  repeat (rewrite ?andb_true_r, ?andb_false_r; cbn [andb]).

Section BextRules.
Import BaseChunk.

(** When the name is ["bext"], so is the tag. *)
Lemma bext_name_type (byte_seq : bytes) (pos : Z) (name : str)
      (ty : option ChunkType) :
  get_chunk_name byte_seq pos = Ret name ->
  get_chunk_type byte_seq pos = Ret ty ->
  str_eqb name (lit "bext") = true ->
  ty = Some BEXT.
Proof.
  intros En Et Eb. apply str_eqb_eq in Eb. subst name.
  unfold get_chunk_type in Et. rewrite En in Et.
  destruct (pos + 4 >? len byte_seq) eqn:Hshort.
  - unfold get_chunk_name in En. rewrite Hshort in En. discriminate.
  - cbn in Et. congruence.
Qed.

(** The flag after [BextChunk.parse]: what it was, and the name is
    ["bext"], and the 348 body bytes up to [time_reference_high] are
    there.  The reads from [version] on do not count. *)
Lemma BextChunk_parse_valid (byte_seq : bytes) (pos : Z) (name : str)
      (self : BextChunk.t) :
  get_chunk_name byte_seq pos = Ret name ->
  wp (BextChunk.parse byte_seq pos)
     (fun _ s' =>
        chunk_name (super s') = name /\
        valid (super s')
        = valid (super self) && str_eqb name (lit "bext")
          && (pos + 356 <=? len byte_seq))
     self.
Proof.
  intros En. unfold BextChunk.parse.
  apply wp_bind, (wp_BaseChunk_parse _ _ name); [exact En|].
  intros ty s0 Ety E0.
  repeat (wp_step; base_norm).
  split; [reflexivity|].
  unfold str_neb, type_neb. rewrite !negb_involutive.
  destruct (str_eqb name (lit "bext")) eqn:Eb.
  - rewrite (bext_name_type _ _ _ _ En Ety Eb). cbn [type_eqb].
    change (ChunkType_eqb BEXT BEXT) with true.
    leb_chain (pos + 356) (len byte_seq); reflexivity.
  - now rewrite !andb_false_r.
Qed.

End BextRules.

Ltac flag_done :=
  unfold flag_only_cleared; base_norm;
  let Hv := fresh "Hv" in
  intros Hv;
  repeat (apply andb_true_iff in Hv; destruct Hv as [Hv _]);
  exact Hv.

Section FormatRules.
Import BaseChunk.
Context {T : Type} `{BaseFormatChunk.FSub T}.

(** The flag after [BaseFormatChunk.parse]: what it was, and the name is
    ["fmt "], and the 16 body bytes are there. *)
Lemma wp_BaseFormatChunk_parse (byte_seq : bytes) (pos : Z) (name : str)
      (Q : unit -> T -> Prop) (s : T) :
  get_chunk_name byte_seq pos = Ret name ->
  (forall ty s',
      get_chunk_type byte_seq pos = Ret ty ->
      super s' = BaseChunk.mk name ty (get_chunk_size byte_seq pos)
                              (valid (super s) && str_eqb name (lit "fmt ")
                               && (pos + 24 <=? len byte_seq)) ->
      Q tt s') ->
  wp (BaseFormatChunk.parse byte_seq pos) Q s.
Proof.
  intros En HQ. unfold BaseFormatChunk.parse.
  apply wp_bind, (wp_BaseChunk_parse _ _ name); [exact En|].
  intros ty s0 Ety E0.
  repeat (wp_step; base_norm).
  apply (HQ ty); [exact Ety|].
  match goal with E : super _ = _ |- _ => rewrite E end.
  f_equal. unfold str_neb. rewrite negb_involutive.
  leb_chain (pos + 24) (len byte_seq); reflexivity.
Qed.

End FormatRules.

Section FlagOnlyCleared.
Import BaseChunk.
Variables (byte_seq : bytes) (pos : Z) (name : str).
Hypothesis En : get_chunk_name byte_seq pos = Ret name.

Lemma BaseChunk_parse_flag (self : BaseChunk.t) :
  wp (BaseChunk.parse byte_seq pos) (fun _ s' => flag_only_cleared self s') self.
Proof.
  apply (wp_BaseChunk_parse _ _ name); [exact En|]. intros ty s0 _ E0.
  unfold flag_only_cleared. now rewrite E0.
Qed.

Lemma RiffChunk_parse_flag (self : RiffChunk.t) :
  wp (RiffChunk.parse byte_seq pos) (fun _ s' => flag_only_cleared self s') self.
Proof.
  unfold RiffChunk.parse.
  apply wp_bind, (wp_BaseChunk_parse _ _ name); [exact En|]. intros ty s0 _ E0.
  repeat (wp_step; base_norm). flag_done.
Qed.

Lemma StandardPCMFormatChunk_parse_flag (self : StandardPCMFormatChunk.t) :
  wp (StandardPCMFormatChunk.parse byte_seq pos)
     (fun _ s' => flag_only_cleared self s') self.
Proof.
  unfold StandardPCMFormatChunk.parse.
  apply wp_bind, (wp_BaseFormatChunk_parse _ _ name); [exact En|].
  intros ty s0 _ E0.
  repeat (wp_step; base_norm). flag_done.
Qed.

Lemma NonPCMFormatChunk_parse_flag (self : NonPCMFormatChunk.t) :
  wp (NonPCMFormatChunk.parse byte_seq pos)
     (fun _ s' => flag_only_cleared self s') self.
Proof.
  unfold NonPCMFormatChunk.parse.
  apply wp_bind, (wp_BaseFormatChunk_parse _ _ name); [exact En|].
  intros ty s0 _ E0.
  repeat (wp_step; base_norm). flag_done.
Qed.

Lemma ExtensibleFormatChunk_parse_flag (self : ExtensibleFormatChunk.t) :
  wp (ExtensibleFormatChunk.parse byte_seq pos)
     (fun _ s' => flag_only_cleared self s') self.
Proof.
  unfold ExtensibleFormatChunk.parse.
  apply wp_bind, (wp_BaseFormatChunk_parse _ _ name); [exact En|].
  intros ty s0 _ E0.
  repeat (wp_step; base_norm). flag_done.
Qed.

Lemma DataChunk_parse_flag (self : DataChunk.t) :
  wp (DataChunk.parse byte_seq pos) (fun _ s' => flag_only_cleared self s') self.
Proof.
  unfold DataChunk.parse.
  apply wp_bind, (wp_BaseChunk_parse _ _ name); [exact En|]. intros ty s0 _ E0.
  repeat (wp_step; base_norm). flag_done.
Qed.

Lemma FactChunk_parse_flag (self : FactChunk.t) :
  wp (FactChunk.parse byte_seq pos) (fun _ s' => flag_only_cleared self s') self.
Proof.
  unfold FactChunk.parse.
  apply wp_bind, (wp_BaseChunk_parse _ _ name); [exact En|]. intros ty s0 _ E0.
  repeat (wp_step; base_norm). flag_done.
Qed.

Lemma BextChunk_parse_flag (self : BextChunk.t) :
  wp (BextChunk.parse byte_seq pos) (fun _ s' => flag_only_cleared self s') self.
Proof.
  pose proof (BextChunk_parse_valid byte_seq pos name self En) as Hwp.
  unfold wp in *. destruct (BextChunk.parse byte_seq pos self) as [[[] s']|e];
    [|contradiction].
  destruct Hwp as [_ Hv]. unfold flag_only_cleared. rewrite Hv.
  intros Ht. now repeat (apply andb_true_iff in Ht; destruct Ht as [Ht _]).
Qed.

End FlagOnlyCleared.

(** Every decoder raises what [get_chunk_name] raises. *)
Section Raises.
Import BaseChunk.
Variables (byte_seq : bytes) (pos : Z) (e : PyExc).
Hypothesis En : get_chunk_name byte_seq pos = Raise e.

Ltac raises :=
  unfold exec, bind, BaseFormatChunk.parse, bind;
  rewrite (BaseChunk_parse_raises byte_seq pos e _ En); reflexivity.

Lemma get_chunk_type_raises :
  pos + 4 <= len byte_seq -> get_chunk_type byte_seq pos = Raise e.
Proof.
  intros Hlen. unfold get_chunk_type.
  rewrite Z.gtb_ltb, (proj2 (Z.ltb_ge _ _)) by lia. now rewrite En.
Qed.

Lemma BaseChunk_exec_raises (self : BaseChunk.t) :
  exec (BaseChunk.parse byte_seq pos) self = Raise e.
Proof. unfold exec. now rewrite (BaseChunk_parse_raises byte_seq pos e _ En). Qed.

Lemma RiffChunk_exec_raises (self : RiffChunk.t) :
  exec (RiffChunk.parse byte_seq pos) self = Raise e.
Proof. unfold RiffChunk.parse. raises. Qed.

Lemma StandardPCMFormatChunk_exec_raises (self : StandardPCMFormatChunk.t) :
  exec (StandardPCMFormatChunk.parse byte_seq pos) self = Raise e.
Proof. unfold StandardPCMFormatChunk.parse. raises. Qed.

Lemma NonPCMFormatChunk_exec_raises (self : NonPCMFormatChunk.t) :
  exec (NonPCMFormatChunk.parse byte_seq pos) self = Raise e.
Proof. unfold NonPCMFormatChunk.parse. raises. Qed.

Lemma ExtensibleFormatChunk_exec_raises (self : ExtensibleFormatChunk.t) :
  exec (ExtensibleFormatChunk.parse byte_seq pos) self = Raise e.
Proof. unfold ExtensibleFormatChunk.parse. raises. Qed.

Lemma DataChunk_exec_raises (self : DataChunk.t) :
  exec (DataChunk.parse byte_seq pos) self = Raise e.
Proof. unfold DataChunk.parse. raises. Qed.

Lemma FactChunk_exec_raises (self : FactChunk.t) :
  exec (FactChunk.parse byte_seq pos) self = Raise e.
Proof. unfold FactChunk.parse. raises. Qed.

Lemma BextChunk_exec_raises (self : BextChunk.t) :
  exec (BextChunk.parse byte_seq pos) self = Raise e.
Proof. unfold BextChunk.parse. raises. Qed.

End Raises.

(** A flag that is false before a call is not true after it. *)
Lemma flag_stays_false {T : Type} `{BaseChunk.Sub T} (m : M T unit) (s : T) :
  BaseChunk.valid (BaseChunk.super s) = false ->
  wp m (fun _ s' => flag_only_cleared s s') s \/ (exists e, exec m s = Raise e) ->
  valid_of (exec m s) <> Some true.
Proof.
  intros Hs [Hwp|[e He]].
  - apply wp_exec in Hwp as (r & -> & Hr). simpl. intros [= Hv].
    apply Hr in Hv. congruence.
  - rewrite He. discriminate.
Qed.

(* ===================================================================== *)
(** ** The validity flag *)
(* ===================================================================== *)

(** C1.  The specification has the flag start true and stay true through
    a decode without violated checks.  In the code [BaseChunk.__init__]
    sets [valid = False] and nothing assigns [True]: whatever the buffer
    and the offset, no decoder called on a freshly constructed object
    leaves the flag true. *)
Theorem valid_never_true_after_decode (byte_seq : bytes) (pos : Z) :
  valid_of (exec (BaseChunk.parse byte_seq pos) BaseChunk.__init__) <> Some true /\
  valid_of (exec (RiffChunk.parse byte_seq pos) RiffChunk.__init__) <> Some true /\
  valid_of (exec (StandardPCMFormatChunk.parse byte_seq pos)
                 StandardPCMFormatChunk.__init__) <> Some true /\
  valid_of (exec (NonPCMFormatChunk.parse byte_seq pos)
                 NonPCMFormatChunk.__init__) <> Some true /\
  valid_of (exec (ExtensibleFormatChunk.parse byte_seq pos)
                 ExtensibleFormatChunk.__init__) <> Some true /\
  valid_of (exec (DataChunk.parse byte_seq pos) DataChunk.__init__) <> Some true /\
  valid_of (exec (FactChunk.parse byte_seq pos) FactChunk.__init__) <> Some true /\
  valid_of (exec (BextChunk.parse byte_seq pos) BextChunk.__init__) <> Some true.
Proof.
  destruct (BaseChunk.get_chunk_name byte_seq pos) as [name|e] eqn:En;
    repeat split; apply flag_stays_false; try reflexivity.
  - left. now apply (BaseChunk_parse_flag _ _ name).
  - left. now apply (RiffChunk_parse_flag _ _ name).
  - left. now apply (StandardPCMFormatChunk_parse_flag _ _ name).
  - left. now apply (NonPCMFormatChunk_parse_flag _ _ name).
  - left. now apply (ExtensibleFormatChunk_parse_flag _ _ name).
  - left. now apply (DataChunk_parse_flag _ _ name).
  - left. now apply (FactChunk_parse_flag _ _ name).
  - left. now apply (BextChunk_parse_flag _ _ name).
  - right. exists e. now apply BaseChunk_exec_raises.
  - right. exists e. now apply RiffChunk_exec_raises.
  - right. exists e. now apply StandardPCMFormatChunk_exec_raises.
  - right. exists e. now apply NonPCMFormatChunk_exec_raises.
  - right. exists e. now apply ExtensibleFormatChunk_exec_raises.
  - right. exists e. now apply DataChunk_exec_raises.
  - right. exists e. now apply FactChunk_exec_raises.
  - right. exists e. now apply BextChunk_exec_raises.
Qed.

Lemma valid_never_true_after_decode_witness :
  valid_of (exec (RiffChunk.parse riff_wave 0) RiffChunk.__init__) = Some false /\
  valid_of (exec (RiffChunk.parse riff_wave 0) RiffChunk.__init__) <> Some true.
Proof.
  split.
  - vm_compute. reflexivity.
  - exact (proj1 (proj2 (valid_never_true_after_decode riff_wave 0))).
Defined.

(** C2.  The decode of ["RIFF" + u32(4) + "WAVE"] has every field the
    specification says, except the flag, which is false; with the form
    type replaced the other fields are the same and the flag is false
    too. *)
Theorem riff_wave_decode :
  exec (RiffChunk.parse riff_wave 0) RiffChunk.__init__
  = Ret {| RiffChunk.base :=
             {| BaseChunk.chunk_name := lit "RIFF";
                BaseChunk.chunk_type := Some RIFF;
                BaseChunk.chunk_size := 4;
                BaseChunk.valid := false |};
           RiffChunk.wave_symbol := lit "WAVE" |} /\
  exec (RiffChunk.parse riff_wavx 0) RiffChunk.__init__
  = Ret {| RiffChunk.base :=
             {| BaseChunk.chunk_name := lit "RIFF";
                BaseChunk.chunk_type := Some RIFF;
                BaseChunk.chunk_size := 4;
                BaseChunk.valid := false |};
           RiffChunk.wave_symbol := lit "WAVX" |}.
Proof. split; vm_compute; reflexivity. Qed.

(* ===================================================================== *)
(** ** Exceptions *)
(* ===================================================================== *)

(** C3.  [get_chunk_name] decodes the four name bytes outside any [try]:
    when they are not valid UTF-8 it raises [UnicodeDecodeError], and so
    do [get_chunk_type] and the [parse] of every decoder, on any object. *)
Theorem undecodable_name_raises (byte_seq : bytes) (pos : Z) :
  pos + 4 <= len byte_seq ->
  utf8_decode (slice byte_seq pos (pos + 4)) = None ->
  BaseChunk.get_chunk_name byte_seq pos = Raise UnicodeDecodeError /\
  BaseChunk.get_chunk_type byte_seq pos = Raise UnicodeDecodeError /\
  (forall self, exec (BaseChunk.parse byte_seq pos) self
                = Raise UnicodeDecodeError :> result BaseChunk.t) /\
  (forall self, exec (RiffChunk.parse byte_seq pos) self = Raise UnicodeDecodeError) /\
  (forall self, exec (StandardPCMFormatChunk.parse byte_seq pos) self
                = Raise UnicodeDecodeError) /\
  (forall self, exec (NonPCMFormatChunk.parse byte_seq pos) self
                = Raise UnicodeDecodeError) /\
  (forall self, exec (ExtensibleFormatChunk.parse byte_seq pos) self
                = Raise UnicodeDecodeError) /\
  (forall self, exec (DataChunk.parse byte_seq pos) self = Raise UnicodeDecodeError) /\
  (forall self, exec (FactChunk.parse byte_seq pos) self = Raise UnicodeDecodeError) /\
  (forall self, exec (BextChunk.parse byte_seq pos) self = Raise UnicodeDecodeError).
Proof.
  intros Hlen Hbad.
  assert (En : BaseChunk.get_chunk_name byte_seq pos = Raise UnicodeDecodeError).
  { unfold BaseChunk.get_chunk_name, decode.
    rewrite Z.gtb_ltb, (proj2 (Z.ltb_ge _ _)) by lia. now rewrite Hbad. }
  split; [exact En|].
  split; [now apply get_chunk_type_raises|].
  repeat split; intros self.
  - now apply BaseChunk_exec_raises.
  - now apply RiffChunk_exec_raises.
  - now apply StandardPCMFormatChunk_exec_raises.
  - now apply NonPCMFormatChunk_exec_raises.
  - now apply ExtensibleFormatChunk_exec_raises.
  - now apply DataChunk_exec_raises.
  - now apply FactChunk_exec_raises.
  - now apply BextChunk_exec_raises.
Qed.

Lemma undecodable_name_raises_witness :
  BaseChunk.get_chunk_name riff_bad_name 0 = Raise UnicodeDecodeError /\
  exec (RiffChunk.parse riff_bad_name 0) RiffChunk.__init__ = Raise UnicodeDecodeError.
Proof.
  assert (Hlen : 0 + 4 <= len riff_bad_name) by (vm_compute; discriminate).
  assert (Hbad : utf8_decode (slice riff_bad_name 0 (0 + 4)) = None)
    by (vm_compute; reflexivity).
  destruct (undecodable_name_raises riff_bad_name 0 Hlen Hbad)
    as (Hn & _ & _ & Hr & _).
  split; [exact Hn | exact (Hr RiffChunk.__init__)].
Defined.

(* ===================================================================== *)
(** ** The header classifier *)
(* ===================================================================== *)

(** C4.  [get_chunk_type] has no [return] for a name that is none of
    ["RIFF"], ["fmt "], ["data"], ["bext"]: with the header in the buffer
    it returns Python's [None], which is not [ChunkType.UNKNOWN]. *)
Theorem unlisted_name_has_no_type (byte_seq : bytes) (pos : Z) (name : str) :
  pos + 8 <= len byte_seq ->
  BaseChunk.get_chunk_name byte_seq pos = Ret name ->
  name <> lit "RIFF" -> name <> lit "fmt " ->
  name <> lit "data" -> name <> lit "bext" ->
  BaseChunk.get_chunk_type byte_seq pos = Ret None /\
  BaseChunk.get_chunk_type byte_seq pos <> Ret (Some UNKNOWN).
Proof.
  intros Hlen En H1 H2 H3 H4.
  assert (E : BaseChunk.get_chunk_type byte_seq pos = Ret None).
  { unfold BaseChunk.get_chunk_type.
    rewrite Z.gtb_ltb, (proj2 (Z.ltb_ge _ _)) by lia. rewrite En.
    now rewrite !str_eqb_neq by assumption. }
  split; [exact E | rewrite E; discriminate].
Qed.

Lemma unlisted_name_has_no_type_witness :
  BaseChunk.get_chunk_type fact_1000 0 = Ret None /\
  BaseChunk.get_chunk_type fact_1000 0 <> Ret (Some UNKNOWN).
Proof.
  apply (unlisted_name_has_no_type fact_1000 0 (lit "fact")).
  - vm_compute. discriminate.
  - vm_compute. reflexivity.
  - vm_compute. discriminate.
  - vm_compute. discriminate.
  - vm_compute. discriminate.
  - vm_compute. discriminate.
Defined.

(** C9.  With fewer than four bytes at the offset the classifier gives
    the tag [UNKNOWN] and the empty name, and [BaseChunk.parse] stores
    them, with the size [-1], on any object. *)
Theorem short_buffer_is_unknown (byte_seq : bytes) (pos : Z) :
  len byte_seq < pos + 4 ->
  BaseChunk.get_chunk_type byte_seq pos = Ret (Some UNKNOWN) /\
  BaseChunk.get_chunk_name byte_seq pos = Ret (lit "") /\
  forall self : BaseChunk.t,
    exec (BaseChunk.parse byte_seq pos) self
    = Ret {| BaseChunk.chunk_name := lit "";
             BaseChunk.chunk_type := Some UNKNOWN;
             BaseChunk.chunk_size := -1;
             BaseChunk.valid := BaseChunk.valid self |}.
Proof.
  intros Hlen.
  assert (E4 : (pos + 4 >? len byte_seq) = true)
    by (rewrite Z.gtb_ltb; apply Z.ltb_lt; lia).
  assert (E8 : (pos + 8 >? len byte_seq) = true)
    by (rewrite Z.gtb_ltb; apply Z.ltb_lt; lia).
  assert (Et : BaseChunk.get_chunk_type byte_seq pos = Ret (Some UNKNOWN))
    by (unfold BaseChunk.get_chunk_type; now rewrite E4).
  assert (En : BaseChunk.get_chunk_name byte_seq pos = Ret (lit ""))
    by (unfold BaseChunk.get_chunk_name; now rewrite E4).
  repeat split; try assumption.
  intros self. unfold exec, BaseChunk.parse, bind, call.
  rewrite En, Et. unfold BaseChunk.get_chunk_size. rewrite E8. reflexivity.
Qed.

Lemma short_buffer_is_unknown_witness :
  BaseChunk.get_chunk_type (blit "RIF") 0 = Ret (Some UNKNOWN) /\
  BaseChunk.get_chunk_name (blit "RIF") 0 = Ret (lit "").
Proof.
  assert (Hlen : len (blit "RIF") < 0 + 4) by (vm_compute; reflexivity).
  destruct (short_buffer_is_unknown (blit "RIF") 0 Hlen) as (Ht & Hn & _).
  split; [exact Ht | exact Hn].
Defined.

(** C10.  With the name in the buffer but not the whole size field,
    [get_chunk_size] is [-1]; the names ["RIFF"], ["data"] and ["bext"]
    still get their tags, and ["fmt "] gets [UNKNOWN]. *)
Theorem name_without_size (byte_seq : bytes) (pos : Z) :
  pos + 4 <= len byte_seq -> len byte_seq < pos + 8 ->
  BaseChunk.get_chunk_size byte_seq pos = -1 /\
  (BaseChunk.get_chunk_name byte_seq pos = Ret (lit "RIFF") ->
   BaseChunk.get_chunk_type byte_seq pos = Ret (Some RIFF)) /\
  (BaseChunk.get_chunk_name byte_seq pos = Ret (lit "data") ->
   BaseChunk.get_chunk_type byte_seq pos = Ret (Some DATA)) /\
  (BaseChunk.get_chunk_name byte_seq pos = Ret (lit "bext") ->
   BaseChunk.get_chunk_type byte_seq pos = Ret (Some BEXT)) /\
  (BaseChunk.get_chunk_name byte_seq pos = Ret (lit "fmt ") ->
   BaseChunk.get_chunk_type byte_seq pos = Ret (Some UNKNOWN)).
Proof.
  intros H4 H8.
  assert (E4 : (pos + 4 >? len byte_seq) = false)
    by (rewrite Z.gtb_ltb; apply Z.ltb_ge; lia).
  assert (E8 : BaseChunk.get_chunk_size byte_seq pos = -1).
  { unfold BaseChunk.get_chunk_size.
    now rewrite Z.gtb_ltb, (proj2 (Z.ltb_lt _ _)) by lia. }
  split; [exact E8|].
  unfold BaseChunk.get_chunk_type. rewrite E4, E8.
  repeat split; intros ->; reflexivity.
Qed.

Lemma name_without_size_witness :
  (BaseChunk.get_chunk_size riff_cut 0 = -1 /\
   BaseChunk.get_chunk_type riff_cut 0 = Ret (Some RIFF)) /\
  BaseChunk.get_chunk_type data_cut 0 = Ret (Some DATA) /\
  BaseChunk.get_chunk_type bext_cut_hdr 0 = Ret (Some BEXT) /\
  (BaseChunk.get_chunk_size fmt_cut 0 = -1 /\
   BaseChunk.get_chunk_type fmt_cut 0 = Ret (Some UNKNOWN)).
Proof.
  assert (Hr : 0 + 4 <= len riff_cut /\ len riff_cut < 0 + 8)
    by (vm_compute; split; [discriminate | reflexivity]).
  assert (Hd : 0 + 4 <= len data_cut /\ len data_cut < 0 + 8)
    by (vm_compute; split; [discriminate | reflexivity]).
  assert (Hb : 0 + 4 <= len bext_cut_hdr /\ len bext_cut_hdr < 0 + 8)
    by (vm_compute; split; [discriminate | reflexivity]).
  assert (Hf : 0 + 4 <= len fmt_cut /\ len fmt_cut < 0 + 8)
    by (vm_compute; split; [discriminate | reflexivity]).
  destruct (name_without_size riff_cut 0 (proj1 Hr) (proj2 Hr)) as (Rs & Rt & _).
  destruct (name_without_size data_cut 0 (proj1 Hd) (proj2 Hd)) as (_ & _ & Dt & _).
  destruct (name_without_size bext_cut_hdr 0 (proj1 Hb) (proj2 Hb))
    as (_ & _ & _ & Bt & _).
  destruct (name_without_size fmt_cut 0 (proj1 Hf) (proj2 Hf))
    as (Fs & _ & _ & _ & Ft).
  assert (Rn : BaseChunk.get_chunk_name riff_cut 0 = Ret (lit "RIFF"))
    by (vm_compute; reflexivity).
  assert (Dn : BaseChunk.get_chunk_name data_cut 0 = Ret (lit "data"))
    by (vm_compute; reflexivity).
  assert (Bn : BaseChunk.get_chunk_name bext_cut_hdr 0 = Ret (lit "bext"))
    by (vm_compute; reflexivity).
  assert (Fn : BaseChunk.get_chunk_name fmt_cut 0 = Ret (lit "fmt "))
    by (vm_compute; reflexivity).
  exact (conj (conj Rs (Rt Rn)) (conj (Dt Dn) (conj (Bt Bn) (conj Fs (Ft Fn))))).
Defined.

(* ===================================================================== *)
(** ** Required and optional reads *)
(* ===================================================================== *)

(** C5, as the specification states it, fails: [version] and [umid] are
    read with [valid_check=False].  A freshly constructed object hides
    this, its flag being false on every input; on an object whose flag is
    set, a buffer that ends before [version], or inside [umid], leaves
    the flag true. *)
Lemma bext_cut_in_version_or_umid_keeps_flag :
  (cut_in_version_or_umid (bext_cut 348) 0 /\
   valid_of (exec (BextChunk.parse (bext_cut 348) 0) bext_flagged) = Some true) /\
  (cut_in_version_or_umid (bext_cut 380) 0 /\
   valid_of (exec (BextChunk.parse (bext_cut 380) 0) bext_flagged) = Some true).
Proof.
  split; (split; [vm_compute; split; [discriminate | reflexivity]
                 | vm_compute; reflexivity]).
Qed.

(** C5, amended.  [BextChunk.parse] returns whenever the name decodes, and
    the flag it leaves is the flag it found, cleared unless the name is
    ["bext"] and the eight fields before [version] (348 body bytes) are
    all in the buffer: these are the required reads.  [version], [umid],
    the five loudness fields and the reserved tail are optional: whether
    they are in the buffer does not enter the flag. *)
Theorem bext_required_fields (self : BextChunk.t) (byte_seq : bytes)
        (pos : Z) (name : str) :
  BaseChunk.get_chunk_name byte_seq pos = Ret name ->
  exists r,
    exec (BextChunk.parse byte_seq pos) self = Ret r /\
    BaseChunk.valid (BextChunk.base r)
    = BaseChunk.valid (BextChunk.base self) && str_eqb name (lit "bext")
      && (pos + 356 <=? len byte_seq).
Proof.
  intros En.
  destruct (wp_exec _ _ _ (BextChunk_parse_valid byte_seq pos name self En))
    as (r & Hr & _ & Hv).
  exists r. split; [exact Hr | exact Hv].
Qed.

Lemma bext_required_fields_witness :
  exists r,
    exec (BextChunk.parse (bext_cut 380) 0) bext_flagged = Ret r /\
    BaseChunk.valid (BextChunk.base r) = true.
Proof.
  assert (En : BaseChunk.get_chunk_name (bext_cut 380) 0 = Ret (lit "bext"))
    by (vm_compute; reflexivity).
  destruct (bext_required_fields bext_flagged (bext_cut 380) 0 (lit "bext") En)
    as (r & Hr & Hv).
  exists r. split; [exact Hr|]. rewrite Hv. vm_compute. reflexivity.
Defined.

(** C6, as the specification states it, fails: the payload of the
    truncated chunk is not the eight bytes in the buffer. *)
Lemma data_cut_payload_is_not_the_eight_bytes :
  ~ (exists r,
        exec (DataChunk.parse (data_10 payload_8) 0) DataChunk.__init__ = Ret r /\
        BaseChunk.valid (DataChunk.base r) = false /\
        DataChunk.data r = payload_8).
Proof.
  intros (r & Hr & _ & Hd). vm_compute in Hr.
  injection Hr as <-. discriminate Hd.
Qed.

(** C6, amended.  For ["data" + u32(10)] followed by fewer than ten
    payload bytes, [DataChunk.parse] on any object returns with the flag
    false and the empty payload: [get_bytes] gives [b""] for a span that
    is not wholly in the buffer. *)
Theorem data_cut_payload_is_empty (self : DataChunk.t) (payload : bytes) :
  len payload < 10 ->
  exec (DataChunk.parse (data_10 payload) 0) self
  = Ret {| DataChunk.base :=
             {| BaseChunk.chunk_name := lit "data";
                BaseChunk.chunk_type := Some DATA;
                BaseChunk.chunk_size := 10;
                BaseChunk.valid := false |};
           DataChunk.data := [] |}.
Proof.
  intros Hlen.
  do 10 (destruct payload as [|? payload]; [vm_compute; reflexivity|]).
  exfalso. unfold len in Hlen. simpl List.length in Hlen. lia.
Qed.

Lemma data_cut_payload_is_empty_witness :
  exec (DataChunk.parse (data_10 payload_8) 0) DataChunk.__init__
  = Ret {| DataChunk.base :=
             {| BaseChunk.chunk_name := lit "data";
                BaseChunk.chunk_type := Some DATA;
                BaseChunk.chunk_size := 10;
                BaseChunk.valid := false |};
           DataChunk.data := [] |}.
Proof.
  apply (data_cut_payload_is_empty DataChunk.__init__ payload_8).
  vm_compute. reflexivity.
Defined.

(* ===================================================================== *)
(** ** The format chunk *)
(* ===================================================================== *)

(** C7.  The decode of the standard PCM format chunk returns the six
    values of the specification, and the flag false. *)
Theorem fmt_pcm_decode :
  exists r,
    exec (StandardPCMFormatChunk.parse fmt_pcm 0) StandardPCMFormatChunk.__init__
    = Ret r /\
    valid_of (Ret r) = Some false /\
    BaseChunk.chunk_name (BaseChunk.super r) = lit "fmt " /\
    BaseChunk.chunk_type (BaseChunk.super r) = Some STANDARD_FMT /\
    BaseChunk.chunk_size (BaseChunk.super r) = 16 /\
    BaseFormatChunk.format_tag (BaseFormatChunk.fsuper r)
    = BaseFormatChunk.FormatTag.PCM /\
    BaseFormatChunk.channels r = 2 /\
    BaseFormatChunk.sample_rate r = 44100 /\
    BaseFormatChunk.byte_rate r = 176400 /\
    BaseFormatChunk.block_align r = 4 /\
    BaseFormatChunk.bits_per_sample r = 16.
Proof.
  eexists. split; [vm_compute; reflexivity|].
  vm_compute. repeat split.
Qed.

(* ===================================================================== *)
(** ** [parse_int] *)
(* ===================================================================== *)

(** C8, as the specification states it, fails: from position 2 with
    length 2, [parse_int] reads no byte at all. *)
Lemma parse_int_length_is_not_a_count :
  BaseChunk.parse_int span_6 2 2 little false = 0 /\
  spec_read_uint span_6 2 2 little = 1027 /\
  BaseChunk.parse_int span_6 2 2 little false <> spec_read_uint span_6 2 2 little.
Proof. vm_compute. repeat split. discriminate. Qed.

(** C8, amended.  [parse_int] decodes [byte_seq[start_pos:length]]: its
    [length] is the end index of the read.  For non-negative arguments
    that is the value of the bytes from [start_pos] up to
    [min length (len byte_seq)], so [length - start_pos] bytes when the
    span has them; from position 0 with the length of the span it is the
    whole span; and the empty span decodes as 0. *)
Theorem parse_int_reads_up_to_length (byte_seq : bytes) (start_pos length : Z)
        (order : byteorder) :
  0 <= start_pos -> 0 <= length ->
  BaseChunk.parse_int byte_seq start_pos length order false
  = spec_read_uint byte_seq (Z.to_nat start_pos)
                   (Z.to_nat (Z.min length (len byte_seq) - start_pos)) order /\
  BaseChunk.parse_int byte_seq 0 (len byte_seq) order false
  = spec_read_uint byte_seq 0 (List.length byte_seq) order /\
  BaseChunk.parse_int [] start_pos length order false = 0.
Proof.
  intros Hs Hl. unfold BaseChunk.parse_int, spec_read_uint. repeat split.
  - now rewrite slice_nonneg.
  - rewrite slice_whole. simpl skipn. now rewrite firstn_all.
  - rewrite slice_empty. now destruct order.
Qed.

Lemma parse_int_reads_up_to_length_witness :
  BaseChunk.parse_int span_6 2 4 little false = spec_read_uint span_6 2 2 little.
Proof.
  assert (Hs : 0 <= 2) by discriminate.
  assert (Hl : 0 <= 4) by discriminate.
  exact (proj1 (parse_int_reads_up_to_length span_6 2 4 little Hs Hl)).
Defined.

(* ===================================================================== *)
(** ** Further lemmas on bytes and integers *)
(* ===================================================================== *)

Lemma byte_val_range (b : byte) : 0 <= byte_val b < 256.
Proof.
  unfold byte_val. pose proof (Byte.to_N_bounded b) as Hb.
  split; [apply N2Z.is_nonneg | lia].
Qed.

Lemma byte_val_inj (a b : byte) : byte_val a = byte_val b -> a = b.
Proof.
  unfold byte_val. intros E. apply N2Z.inj in E.
  pose proof (Byte.of_to_N a) as Ha. rewrite E, Byte.of_to_N in Ha.
  congruence.
Qed.

Lemma byte_val_of_Z (n : Z) : byte_val (byte_of_Z n) = n mod 256.
Proof.
  unfold byte_of_Z, byte_val.
  pose proof (Z.mod_pos_bound n 256 eq_refl) as Hm.
  destruct (Byte.of_N (Z.to_N (n mod 256))) as [b|] eqn:E.
  - apply Byte.to_of_N in E. rewrite E. lia.
  - apply Byte.of_N_None_iff in E. lia.
Qed.

Lemma byte_val_zero (b : byte) : byte_val b = 0 <-> b = x00.
Proof.
  split; [|intros ->; reflexivity].
  intros E. apply byte_val_inj. rewrite E. reflexivity.
Qed.

Lemma le_uint_range (bs : bytes) : 0 <= le_uint bs < 2 ^ (8 * len bs).
Proof.
  induction bs as [|b bs IH].
  - simpl. unfold len. simpl. lia.
  - cbn [le_uint]. pose proof (byte_val_range b) as Hb.
    replace (8 * len (b :: bs)) with (8 + 8 * len bs)
      by (unfold len; simpl List.length; lia).
    rewrite Z.pow_add_r by (pose proof (len_nonneg bs); lia).
    change (2 ^ 8) with 256.
    remember (2 ^ (8 * len bs)) as P. remember (le_uint bs) as v. lia.
Qed.

Lemma le_uint_u16le (n : Z) : 0 <= n < 65536 -> le_uint (u16le n) = n.
Proof.
  intros Hn. unfold u16le. cbn [le_uint]. rewrite !byte_val_of_Z.
  rewrite (Z.mod_small (n / 256)) by (split; [apply Z.div_pos | apply Z.div_lt_upper_bound]; lia).
  pose proof (Z.div_mod n 256). lia.
Qed.

Lemma le_uint_u32le (n : Z) : 0 <= n < 4294967296 -> le_uint (u32le n) = n.
Proof.
  intros Hn. unfold u32le. cbn [le_uint]. rewrite !byte_val_of_Z.
  assert (H1 : n / 65536 = n / 256 / 256) by (rewrite Z.div_div by lia; reflexivity).
  assert (H2 : n / 16777216 = n / 256 / 256 / 256)
    by (rewrite !Z.div_div by lia; reflexivity).
  rewrite H1, H2.
  assert (0 <= n / 256 / 256 / 256 < 256).
  { split; [repeat apply Z.div_pos; lia|].
    repeat (apply Z.div_lt_upper_bound; [lia|]). lia. }
  rewrite (Z.mod_small (n / 256 / 256 / 256)) by assumption.
  pose proof (Z.div_mod n 256).
  pose proof (Z.div_mod (n / 256) 256).
  pose proof (Z.div_mod (n / 256 / 256) 256).
  lia.
Qed.

Lemma slice_length_le {A : Type} (l : list A) (a b : Z) : len (slice l a b) <= len l.
Proof.
  unfold slice, len. rewrite length_firstn, length_skipn. lia.
Qed.

(** The length of a slice within the bounds of the list. *)
Lemma slice_length {A : Type} (l : list A) (a b : Z) :
  0 <= a -> a <= b -> b <= len l -> len (slice l a b) = b - a.
Proof.
  intros Ha Hab Hb. rewrite slice_within by assumption.
  unfold len in *. rewrite length_firstn, length_skipn. lia.
Qed.

(** A slice of the second part of a concatenation. *)
Lemma slice_app_r {A : Type} (pre l : list A) (a b : Z) :
  0 <= a -> 0 <= b ->
  slice (pre ++ l) (len pre + a) (len pre + b) = slice l a b.
Proof.
  intros Ha Hb. pose proof (len_nonneg pre) as Hp.
  rewrite !slice_nonneg by lia.
  assert (El : len (pre ++ l) = len pre + len l)
    by (unfold len; rewrite length_app; lia).
  rewrite El.
  replace (Z.min (len pre + b) (len pre + len l) - (len pre + a))
    with (Z.min b (len l) - a) by lia.
  f_equal.
  replace (Z.to_nat (len pre + a)) with (List.length pre + Z.to_nat a)%nat
    by (unfold len; lia).
  now rewrite skipn_app, skipn_all2, Nat.add_comm, Nat.add_sub by lia.
Qed.

(* ===================================================================== *)
(** ** Lemmas on the UTF-8 decoder *)
(* ===================================================================== *)

Lemma option_map_Some {A B : Type} (f : A -> B) (o : option A) (y : B) :
  option_map f o = Some y -> exists x, o = Some x /\ y = f x.
Proof. destruct o as [x|]; simpl; [|discriminate]. intros [= <-]. eauto. Qed.

Lemma in_range_true (lo hi c : Z) : in_range lo hi c = true -> lo <= c <= hi.
Proof. unfold in_range. rewrite andb_true_iff, !Z.leb_le. tauto. Qed.

(** The first character of a decoded string: it comes from a non-empty
    prefix of the bytes, which is one ASCII byte, or bytes of the upper
    half that make a character beyond ASCII. *)
Lemma utf8_decode_cons_inv (b0 : byte) (r0 : bytes) (s : str) :
  utf8_decode (b0 :: r0) = Some s ->
  exists pre rest c s',
    b0 :: r0 = pre ++ rest /\ pre <> [] /\ s = c :: s' /\
    utf8_decode rest = Some s' /\
    ((pre = [b0] /\ c = byte_val b0 /\ c < 128) \/
     (128 <= c /\ Forall (fun b => 128 <= byte_val b) pre)).
Proof.
  cbn [utf8_decode]. cbv zeta.
  destruct (Z.ltb_spec (byte_val b0) 128) as [H1|H1].
  { intros E. apply option_map_Some in E as (s' & Es & ->).
    exists [b0], r0, (byte_val b0), s'. repeat split; try easy. now left. }
  destruct (Z.ltb_spec (byte_val b0) 194) as [H2|H2]; [discriminate|].
  destruct (Z.ltb_spec (byte_val b0) 224) as [H3|H3].
  { destruct r0 as [|b1 r1]; [discriminate|].
    destruct (cont (byte_val b1)) eqn:C1; [|discriminate].
    apply in_range_true in C1.
    intros E. apply option_map_Some in E as (s' & Es & ->).
    exists [b0; b1], r1, ((byte_val b0 - 192) * 64 + (byte_val b1 - 128)), s'.
    repeat split; try easy. right. split; [lia|].
    repeat constructor; lia. }
  destruct (Z.ltb_spec (byte_val b0) 240) as [H4|H4].
  { destruct r0 as [|b1 [|b2 r2]]; try discriminate.
    destruct (in_range _ _ (byte_val b1)) eqn:C1; [|discriminate].
    destruct (cont (byte_val b2)) eqn:C2; [|discriminate].
    apply in_range_true in C1, C2. cbn [andb].
    intros E. apply option_map_Some in E as (s' & Es & ->).
    exists [b0; b1; b2], r2,
      ((byte_val b0 - 224) * 4096 + (byte_val b1 - 128) * 64 + (byte_val b2 - 128)), s'.
    repeat split; try easy. right.
    destruct (Z.eqb_spec (byte_val b0) 224), (Z.eqb_spec (byte_val b0) 237);
      (split; [lia | repeat constructor; lia]). }
  destruct (Z.ltb_spec (byte_val b0) 245) as [H5|H5]; [|discriminate].
  destruct r0 as [|b1 [|b2 [|b3 r3]]]; try discriminate.
  destruct (in_range _ _ (byte_val b1)) eqn:C1; [|discriminate].
  destruct (cont (byte_val b2)) eqn:C2; [|discriminate].
  destruct (cont (byte_val b3)) eqn:C3; [|discriminate].
  apply in_range_true in C1, C2, C3. cbn [andb].
  intros E. apply option_map_Some in E as (s' & Es & ->).
  exists [b0; b1; b2; b3], r3,
    ((byte_val b0 - 240) * 262144 + (byte_val b1 - 128) * 4096
     + (byte_val b2 - 128) * 64 + (byte_val b3 - 128)), s'.
  repeat split; try easy. right.
  destruct (Z.eqb_spec (byte_val b0) 240), (Z.eqb_spec (byte_val b0) 244);
    (split; [lia | repeat constructor; lia]).
Qed.

(** ASCII bytes decode to themselves. *)
Lemma utf8_decode_ascii (bs : bytes) :
  ascii_bytes bs -> utf8_decode bs = Some (map byte_val bs).
Proof.
  induction 1 as [|b bs Hb _ IH]; [reflexivity|].
  cbn [utf8_decode map]. cbv zeta.
  rewrite (proj2 (Z.ltb_lt _ _) Hb), IH. reflexivity.
Qed.

(** Induction on the length of the bytes still to decode. *)
Lemma utf8_decode_ind (P : bytes -> str -> Prop) :
  P [] [] ->
  (forall pre rest c s',
      pre <> [] -> utf8_decode rest = Some s' -> P rest s' ->
      ((exists b, pre = [b] /\ c = byte_val b /\ c < 128) \/
       (128 <= c /\ Forall (fun b => 128 <= byte_val b) pre)) ->
      P (pre ++ rest) (c :: s')) ->
  forall bs s, utf8_decode bs = Some s -> P bs s.
Proof.
  intros Hnil Hstep bs.
  remember (List.length bs) as n eqn:Hn.
  revert bs Hn. induction n as [n IH] using lt_wf_ind. intros bs Hn s E.
  destruct bs as [|b0 r0].
  - injection E as <-. exact Hnil.
  - apply utf8_decode_cons_inv in E
      as (pre & rest & c & s' & Eb & Hpre & -> & Er & Hc).
    rewrite Eb. apply Hstep; try assumption.
    + apply (IH (List.length rest)); [|reflexivity|exact Er].
      subst n. rewrite Eb, length_app. destruct pre; [contradiction|simpl; lia].
    + destruct Hc as [(-> & -> & Hlt)|Hc]; [left; eauto | now right].
Qed.

(** A decoded string has at most one character per byte. *)
Lemma utf8_decode_length (bs : bytes) (s : str) :
  utf8_decode bs = Some s -> (List.length s <= List.length bs)%nat.
Proof.
  revert bs s.
  apply (utf8_decode_ind (fun bs s => (List.length s <= List.length bs)%nat));
    [reflexivity|].
  intros pre rest c s' Hpre _ IH _. rewrite length_app. simpl.
  destruct pre; [contradiction | simpl; lia].
Qed.

(** A decoded string of ASCII characters has the values of the bytes. *)
Lemma utf8_decode_ascii_inv (bs : bytes) (s : str) :
  utf8_decode bs = Some s -> Forall (fun c => c < 128) s -> s = map byte_val bs.
Proof.
  revert bs s.
  apply (utf8_decode_ind
           (fun bs s => Forall (fun c => c < 128) s -> s = map byte_val bs));
    [reflexivity|].
  intros pre rest c s' _ _ IH Hc Hall. inversion Hall as [|? ? Hlt Hall']; subst.
  destruct Hc as [(b & -> & -> & _)|[Hge _]]; [|lia].
  simpl. f_equal. now apply IH.
Qed.

(** Only a NUL byte decodes to the NUL character. *)
Lemma utf8_decode_no_nul (bs : bytes) (s : str) :
  utf8_decode bs = Some s -> no_nul bs -> ~ In 0 s.
Proof.
  revert bs s.
  apply (utf8_decode_ind (fun bs s => no_nul bs -> ~ In 0 s)); [intros _ []|].
  intros pre rest c s' _ _ IH Hc Hnn. unfold no_nul in Hnn.
  apply Forall_app in Hnn as [Hp Hr].
  intros [E|Hin]; [|now apply IH].
  destruct Hc as [(b & -> & -> & _)|[Hge _]]; [|lia].
  inversion Hp as [|? ? Hb _]; subst. apply Hb. now apply byte_val_zero.
Qed.

(* ===================================================================== *)
(** ** [parse_str] *)
(* ===================================================================== *)

Lemma until_nul_prefix (bs : bytes) :
  firstn (List.length (until_nul bs)) bs = until_nul bs.
Proof.
  induction bs as [|b r IH]; [reflexivity|].
  simpl. destruct (Byte.eqb b x00); [reflexivity|].
  simpl. now rewrite IH.
Qed.

Lemma until_nul_no_nul (bs : bytes) : no_nul (until_nul bs).
Proof.
  induction bs as [|b r IH]; [constructor|].
  simpl. destruct (Byte.eqb b x00) eqn:E; constructor; [|exact IH].
  intros ->. discriminate.
Qed.

Lemma until_nul_length (bs : bytes) : len (until_nul bs) <= len bs.
Proof.
  unfold len. induction bs as [|b r IH]; [reflexivity|].
  simpl until_nul. destruct (Byte.eqb b x00); simpl List.length; lia.
Qed.

Lemma until_nul_id (bs : bytes) : no_nul bs -> until_nul bs = bs.
Proof.
  induction 1 as [|b r Hb _ IH]; [reflexivity|].
  simpl. destruct (Byte.eqb b x00) eqn:E.
  - apply Byte.byte_dec_bl in E. contradiction.
  - now rewrite IH.
Qed.

Lemma until_nul_app (a rest : bytes) :
  no_nul a -> until_nul (a ++ x00 :: rest) = a.
Proof.
  induction 1 as [|b r Hb _ IH]; [reflexivity|].
  simpl. destruct (Byte.eqb b x00) eqn:E.
  - apply Byte.byte_dec_bl in E. contradiction.
  - now rewrite IH.
Qed.

(** [find_from] gives [-1] when there is no NUL, and else the index of
    the first one. *)
Lemma find_from_nul (l : bytes) (i : Z) :
  0 <= i ->
  (find_from x00 l i = -1 /\ until_nul l = l) \/
  (find_from x00 l i = i + len (until_nul l) /\ len (until_nul l) < len l).
Proof.
  revert i. induction l as [|b r IH]; intros i Hi; [now left|].
  simpl. destruct (Byte.eqb b x00).
  - right. unfold len. simpl. lia.
  - destruct (IH (i + 1)) as [[E1 E2]|[E1 E2]]; [lia| |].
    + left. now rewrite E1, E2.
    + right. rewrite E1. unfold len in *. simpl List.length. lia.
Qed.

(** With its default arguments [parse_str] decodes the bytes before the
    first NUL, and gives the empty string when they do not decode. *)
Lemma parse_str_until_nul (byte_seq : bytes) :
  BaseChunk.parse_str byte_seq 0 (-1)
  = match utf8_decode (until_nul byte_seq) with
    | Some s => s
    | None => lit ""
    end.
Proof.
  unfold BaseChunk.parse_str, find, decode. cbn [Z.eqb Pos.eqb].
  rewrite slice_whole. pose proof (len_nonneg byte_seq) as Hn.
  rewrite adjust_id by lia.
  destruct (find_from_nul byte_seq 0 (Z.le_refl 0)) as [[-> Eu]|[-> Hlt]].
  - cbn [Z.eqb Pos.eqb]. rewrite Eu.
    destruct (Z.geb_spec 0 (len byte_seq)) as [H0|H0].
    + destruct byte_seq; [reflexivity|]. unfold len in H0. simpl in H0. lia.
    + rewrite slice_whole. now destruct (utf8_decode byte_seq) as [s|]; [|destruct UnicodeDecodeError].
  - pose proof (len_nonneg (until_nul byte_seq)) as Hk. rewrite Z.add_0_l.
    destruct (Z.eqb_spec (len (until_nul byte_seq)) (-1)); [lia|].
    destruct (Z.geb_spec 0 (len (until_nul byte_seq))) as [H0|H0].
    + destruct (until_nul byte_seq); [reflexivity|].
      unfold len in H0. simpl in H0. lia.
    + rewrite slice_within by lia. simpl skipn. rewrite Z.sub_0_r.
      unfold len at 1. rewrite Nat2Z.id, until_nul_prefix.
      now destruct (utf8_decode (until_nul byte_seq)).
Qed.

(* ===================================================================== *)
(** ** Decoding behind a prefix *)
(* ===================================================================== *)

Lemma len_app {A : Type} (l1 l2 : list A) : len (l1 ++ l2) = len l1 + len l2.
Proof. unfold len. rewrite length_app. lia. Qed.

Lemma gtb_shift (n a b : Z) : (n + a >? n + b) = (a >? b).
Proof.
  rewrite !Z.gtb_ltb.
  destruct (Z.ltb_spec (n + b) (n + a)), (Z.ltb_spec b a); lia || reflexivity.
Qed.

Section Shift.
Import BaseChunk.
Variables (pre byte_seq : bytes) (pos : Z).
Hypothesis Hpos : 0 <= pos.

Lemma get_chunk_name_shift :
  get_chunk_name (pre ++ byte_seq) (len pre + pos) = get_chunk_name byte_seq pos.
Proof.
  unfold get_chunk_name. rewrite len_app, <- !Z.add_assoc, gtb_shift.
  now rewrite slice_app_r by lia.
Qed.

Lemma get_chunk_size_shift :
  get_chunk_size (pre ++ byte_seq) (len pre + pos) = get_chunk_size byte_seq pos.
Proof.
  unfold get_chunk_size, parse_int. rewrite len_app, <- !Z.add_assoc, gtb_shift.
  now rewrite slice_app_r by lia.
Qed.

Lemma get_chunk_type_shift :
  get_chunk_type (pre ++ byte_seq) (len pre + pos) = get_chunk_type byte_seq pos.
Proof.
  unfold get_chunk_type.
  rewrite get_chunk_name_shift, get_chunk_size_shift.
  now rewrite len_app, <- !Z.add_assoc, gtb_shift.
Qed.

End Shift.

Lemma get_chunk_size_ge (byte_seq : bytes) (pos : Z) :
  -1 <= BaseChunk.get_chunk_size byte_seq pos.
Proof.
  unfold BaseChunk.get_chunk_size, BaseChunk.parse_int, int_from_bytes.
  destruct (pos + 8 >? len byte_seq); [lia|]. cbn [andb].
  pose proof (le_uint_range (slice byte_seq (pos + 4) (pos + 8))). lia.
Qed.

Section InStep.
Context {S : Type}.

Lemma in_step_refl {A : Type} (m : M S A) : in_step eq m m.
Proof. intros s. destruct (m s) as [[a s']|e]; auto. Qed.

Lemma in_step_bind {A B : Type} (R : A -> A -> Prop) (R' : B -> B -> Prop)
      (m1 m2 : M S A) (k1 k2 : A -> M S B) :
  in_step R m1 m2 ->
  (forall a1 a2, R a1 a2 -> in_step R' (k1 a1) (k2 a2)) ->
  in_step R' (bind m1 k1) (bind m2 k2).
Proof.
  intros Hm Hk s. unfold bind. specialize (Hm s).
  destruct (m1 s) as [[a1 s1]|e1], (m2 s) as [[a2 s2]|e2]; try contradiction.
  - destruct Hm as [HR ->]. apply (Hk a1 a2 HR).
  - exact Hm.
Qed.

Lemma in_step_pointwise {A : Type} (m1 m2 : M S A) :
  (forall s, m1 s = m2 s) -> in_step eq m1 m2.
Proof. intros E s. rewrite E. apply in_step_refl. Qed.

Lemma exec_bind_cong {A B : Type} (m1 m2 : M S A) (k1 k2 : A -> M S B) (s : S) :
  m1 s = m2 s ->
  (forall a s', m2 s = Ret (a, s') -> exec (k1 a) s' = exec (k2 a) s') ->
  exec (bind m1 k1) s = exec (bind m2 k2) s.
Proof.
  intros E Hk. unfold exec, bind in *. rewrite E.
  destruct (m2 s) as [[a s']|e]; [|reflexivity]. now apply Hk.
Qed.

Lemma exec_bind_in_step {A B : Type} (R : A -> A -> Prop) (m1 m2 : M S A)
      (k1 k2 : A -> M S B) (s : S) :
  in_step R m1 m2 ->
  (forall a1 a2 s', R a1 a2 -> exec (k1 a1) s' = exec (k2 a2) s') ->
  exec (bind m1 k1) s = exec (bind m2 k2) s.
Proof.
  intros Hm Hk. specialize (Hm s). unfold exec, bind in *.
  destruct (m1 s) as [[a1 s1]|e1], (m2 s) as [[a2 s2]|e2]; try contradiction.
  - destruct Hm as [HR ->]. now apply Hk.
  - now subst.
Qed.

Lemma in_step_exec {A : Type} (R : A -> A -> Prop) (m1 m2 : M S A) (s : S) :
  in_step R m1 m2 -> exec m1 s = exec m2 s.
Proof.
  intros H. specialize (H s). unfold exec.
  destruct (m1 s) as [[a1 s1]|e1], (m2 s) as [[a2 s2]|e2]; try contradiction.
  - now destruct H as [_ ->].
  - now subst.
Qed.

End InStep.

Section ShiftSteps.
Import BaseChunk.
Context {T : Type} `{Sub T}.
Variables (pre byte_seq : bytes).

(** Behind a prefix [get_bytes] returns the same bytes and leaves the same
    object; the position it returns is moved by the length of the prefix. *)
Lemma in_step_get_bytes (p1 p2 length : Z) (valid_check : bool) :
  p1 = len pre + p2 -> 0 <= p2 -> 0 <= p2 + length ->
  in_step (shifted (len pre))
          (get_bytes (pre ++ byte_seq) p1 length valid_check)
          (get_bytes byte_seq p2 length valid_check).
Proof.
  intros -> Hp Hl s. unfold get_bytes.
  rewrite len_app, <- Z.add_assoc, gtb_shift.
  destruct (p2 + length >? len byte_seq).
  - unfold bind, attr, set_valid, update, modify, ret, shifted. simpl.
    repeat split; lia.
  - unfold ret, shifted. simpl.
    rewrite slice_app_r by lia. repeat split; lia.
Qed.

Lemma check_keeps_size (c : bool) (s s' : T) (a : unit) :
  when c (set_valid false) s = Ret (a, s') ->
  chunk_size (super s') = chunk_size (super s).
Proof.
  intros E.
  pose proof (wp_check c (fun _ s' => chunk_size (super s') = chunk_size (super s)) s)
    as Hw.
  unfold wp in Hw. rewrite E in Hw. apply Hw. now intros s1 ->.
Qed.

Lemma in_step_BaseChunk_parse (pos : Z) :
  0 <= pos ->
  in_step eq (BaseChunk.parse (pre ++ byte_seq) (len pre + pos))
          (BaseChunk.parse byte_seq pos).
Proof.
  intros Hpos. apply in_step_pointwise. intros s. unfold BaseChunk.parse.
  now rewrite get_chunk_name_shift, get_chunk_type_shift, get_chunk_size_shift.
Qed.

End ShiftSteps.

(** One statement of two bodies that run in step. *)
Ltac step_same :=
  apply in_step_bind with (R := eq); [apply in_step_refl | intros ? ? <-].

Ltac step_get_bytes :=
  eapply in_step_bind;
  [ apply in_step_get_bytes; cbn [fst snd]; lia
  | let d1 := fresh "d" in
    let q1 := fresh "q" in
    let d2 := fresh "d" in
    let q2 := fresh "q" in
    let Hd := fresh "Hd" in
    let Hq := fresh "Hq" in
    let Hp := fresh "Hp" in
    intros [d1 q1] [d2 q2] (Hd & Hq & Hp); cbn [fst snd] in Hd, Hq, Hp;
    subst d1 q1; cbv beta iota ].

Ltac steps := repeat first [ step_same | step_get_bytes ]; try apply in_step_refl.

Section ShiftDecoders.
Import BaseChunk.
Variables (pre byte_seq : bytes) (pos : Z).
Hypothesis Hpos : 0 <= pos.

Lemma in_step_BaseFormatChunk_parse {T : Type} `{BaseFormatChunk.FSub T} :
  in_step eq (BaseFormatChunk.parse (T := T) (pre ++ byte_seq) (len pre + pos))
          (BaseFormatChunk.parse byte_seq pos).
Proof.
  unfold BaseFormatChunk.parse.
  apply in_step_bind with (R := eq);
    [now apply in_step_BaseChunk_parse | intros ? ? <-].
  steps.
Qed.

Ltac shift_decoder :=
  apply in_step_exec with (R := eq);
  apply in_step_bind with (R := eq);
  [ first [ now apply in_step_BaseChunk_parse | apply in_step_BaseFormatChunk_parse ]
  | intros ? ? <- ];
  steps.

Lemma RiffChunk_parse_shift (self : RiffChunk.t) :
  exec (RiffChunk.parse (pre ++ byte_seq) (len pre + pos)) self
  = exec (RiffChunk.parse byte_seq pos) self.
Proof. unfold RiffChunk.parse. shift_decoder. Qed.

Lemma StandardPCMFormatChunk_parse_shift (self : StandardPCMFormatChunk.t) :
  exec (StandardPCMFormatChunk.parse (pre ++ byte_seq) (len pre + pos)) self
  = exec (StandardPCMFormatChunk.parse byte_seq pos) self.
Proof. unfold StandardPCMFormatChunk.parse. shift_decoder. Qed.

Lemma NonPCMFormatChunk_parse_shift (self : NonPCMFormatChunk.t) :
  exec (NonPCMFormatChunk.parse (pre ++ byte_seq) (len pre + pos)) self
  = exec (NonPCMFormatChunk.parse byte_seq pos) self.
Proof. unfold NonPCMFormatChunk.parse. shift_decoder. Qed.

Lemma ExtensibleFormatChunk_parse_shift (self : ExtensibleFormatChunk.t) :
  exec (ExtensibleFormatChunk.parse (pre ++ byte_seq) (len pre + pos)) self
  = exec (ExtensibleFormatChunk.parse byte_seq pos) self.
Proof. unfold ExtensibleFormatChunk.parse. shift_decoder. Qed.

Lemma FactChunk_parse_shift (self : FactChunk.t) :
  exec (FactChunk.parse (pre ++ byte_seq) (len pre + pos)) self
  = exec (FactChunk.parse byte_seq pos) self.
Proof. unfold FactChunk.parse. shift_decoder. Qed.

Lemma BextChunk_parse_shift (self : BextChunk.t) :
  exec (BextChunk.parse (pre ++ byte_seq) (len pre + pos)) self
  = exec (BextChunk.parse byte_seq pos) self.
Proof. unfold BextChunk.parse. shift_decoder. Qed.

(** In [DataChunk.parse] the length of the read is the size stored by
    [BaseChunk.parse], which is at least [-1]. *)
Lemma DataChunk_parse_shift (self : DataChunk.t) :
  exec (DataChunk.parse (pre ++ byte_seq) (len pre + pos)) self
  = exec (DataChunk.parse byte_seq pos) self.
Proof.
  unfold DataChunk.parse.
  apply exec_bind_cong.
  { unfold BaseChunk.parse.
    now rewrite get_chunk_name_shift, get_chunk_type_shift, get_chunk_size_shift. }
  intros [] s0 E0.
  assert (Hsize : -1 <= chunk_size (super s0)).
  { unfold BaseChunk.parse, bind, call in E0.
    destruct (get_chunk_name byte_seq pos); [|discriminate].
    destruct (get_chunk_type byte_seq pos); [|discriminate].
    injection E0 as <-. apply get_chunk_size_ge. }
  apply exec_bind_cong; [reflexivity|]. intros name s1 [= <- <-].
  apply exec_bind_cong; [reflexivity|]. intros [] s2 E2.
  apply check_keeps_size in E2.
  apply exec_bind_cong; [reflexivity|]. intros type s3 [= <- <-].
  apply exec_bind_cong; [reflexivity|]. intros [] s4 E4.
  apply check_keeps_size in E4.
  apply exec_bind_cong; [reflexivity|]. intros size s5 [= <- <-].
  apply exec_bind_in_step with (R := shifted (len pre)).
  - cbn [super DataChunk.Sub_DataChunk] in *. apply in_step_get_bytes; lia.
  - intros [d1 q1] [d2 q2] s' (Hd & _). cbn [fst] in Hd. now subst.
Qed.

End ShiftDecoders.

(* ===================================================================== *)
(** ** What the checks of each decoder amount to *)
(* ===================================================================== *)

Ltac andb_simpl :=
  repeat (rewrite ?andb_true_r, ?andb_false_r; cbn [andb negb orb]).

Ltac eval_type_eqb :=
  match goal with
  | |- context [type_eqb ?a ?b] =>
    let v := eval vm_compute in (type_eqb a b) in
    change (type_eqb a b) with v
  end;
  rewrite ?Z.eqb_refl.

Section NameType.
Import BaseChunk.
Variables (byte_seq : bytes) (pos : Z) (name : str) (ty : option ChunkType).
Hypothesis En : get_chunk_name byte_seq pos = Ret name.
Hypothesis Et : get_chunk_type byte_seq pos = Ret ty.

Lemma name_not_short (l : string) :
  l <> ""%string -> name = lit l -> (pos + 4 >? len byte_seq) = false.
Proof.
  intros Hl ->. destruct (pos + 4 >? len byte_seq) eqn:Hshort; [|reflexivity].
  unfold get_chunk_name in En. rewrite Hshort in En.
  injection En as E. destruct l; [contradiction | discriminate].
Qed.

Lemma riff_name_type : str_eqb name (lit "RIFF") = true -> ty = Some RIFF.
Proof.
  intros Eb. apply str_eqb_eq in Eb.
  unfold get_chunk_type in Et.
  rewrite (name_not_short "RIFF") in Et by (assumption || discriminate).
  rewrite En, Eb in Et. cbn in Et. congruence.
Qed.

Lemma data_name_type : str_eqb name (lit "data") = true -> ty = Some DATA.
Proof.
  intros Eb. apply str_eqb_eq in Eb.
  unfold get_chunk_type in Et.
  rewrite (name_not_short "data") in Et by (assumption || discriminate).
  rewrite En, Eb in Et. cbn in Et. congruence.
Qed.

Lemma fact_name_type : str_eqb name (lit "fact") = true -> ty = None.
Proof.
  intros Eb. apply str_eqb_eq in Eb.
  unfold get_chunk_type in Et.
  rewrite (name_not_short "fact") in Et by (assumption || discriminate).
  rewrite En, Eb in Et. cbn in Et. congruence.
Qed.

Lemma fmt_name_type :
  str_eqb name (lit "fmt ") = true ->
  ty = Some (if get_chunk_size byte_seq pos =? 16 then STANDARD_FMT
             else if get_chunk_size byte_seq pos =? 18 then NON_STANDARD_FMT
             else if get_chunk_size byte_seq pos =? 40 then EXTENSIBLE_FMT
             else UNKNOWN).
Proof.
  intros Eb. apply str_eqb_eq in Eb.
  unfold get_chunk_type in Et.
  rewrite (name_not_short "fmt ") in Et by (assumption || discriminate).
  rewrite En, Eb in Et. cbn [str_eqb lit] in Et.
  change (str_eqb (lit "fmt ") (lit "RIFF")) with false in Et.
  change (str_eqb (lit "fmt ") (lit "fmt ")) with true in Et.
  cbv iota in Et.
  repeat match type of Et with
         | context [?a =? ?b] => destruct (a =? b)
         end; congruence.
Qed.

End NameType.

Section FlagExact.
Import BaseChunk.
Variables (byte_seq : bytes) (pos : Z) (name : str).
Hypothesis En : get_chunk_name byte_seq pos = Ret name.

Ltac run_checks :=
  let ty := fresh "ty" in
  let s0 := fresh "s" in
  let Ety := fresh "Ety" in
  let E0 := fresh "E" in
  intros ty s0 Ety E0;
  repeat (wp_step; base_norm).

Ltac start_base :=
  apply wp_bind, (wp_BaseChunk_parse _ _ name); [exact En|]; run_checks.

Ltac start_format :=
  apply wp_bind, (wp_BaseFormatChunk_parse _ _ name); [exact En|]; run_checks.

Lemma StandardPCMFormatChunk_parse_valid (self : StandardPCMFormatChunk.t) :
  wp (StandardPCMFormatChunk.parse byte_seq pos)
     (fun _ s' =>
        super s'
        = BaseChunk.mk name (chunk_type (super s')) (get_chunk_size byte_seq pos)
                       (valid (super self) && str_eqb name (lit "fmt ")
                        && (get_chunk_size byte_seq pos =? 16)
                        && (pos + 24 <=? len byte_seq)))
     self.
Proof.
  unfold StandardPCMFormatChunk.parse. start_format.
  f_equal. unfold type_neb, int_neb. rewrite !negb_involutive.
  destruct (str_eqb name (lit "fmt ")) eqn:Eb; [|now rewrite !andb_false_r].
  rewrite (fmt_name_type _ _ _ _ En Ety Eb).
  destruct (get_chunk_size byte_seq pos =? 16); cbn [type_eqb];
    repeat (rewrite ?andb_true_r, ?andb_false_r; cbn [andb negb]); reflexivity.
Qed.

Lemma NonPCMFormatChunk_parse_valid (self : NonPCMFormatChunk.t) :
  wp (NonPCMFormatChunk.parse byte_seq pos)
     (fun _ s' =>
        super s'
        = BaseChunk.mk name (chunk_type (super s')) (get_chunk_size byte_seq pos)
                       (valid (super self) && str_eqb name (lit "fmt ")
                        && (get_chunk_size byte_seq pos =? 18)
                        && (pos + 26 <=? len byte_seq)))
     self.
Proof.
  unfold NonPCMFormatChunk.parse. start_format.
  f_equal. unfold type_neb, int_neb. rewrite !negb_involutive.
  destruct (str_eqb name (lit "fmt ")) eqn:Eb.
  - rewrite (fmt_name_type _ _ _ _ En Ety Eb).
    destruct (Z.eqb_spec (get_chunk_size byte_seq pos) 18) as [->|Hne].
    + eval_type_eqb. leb_chain (pos + 26) (len byte_seq); reflexivity.
    + now rewrite !andb_false_r.
  - now rewrite !andb_false_r.
Qed.

Lemma ExtensibleFormatChunk_parse_valid (self : ExtensibleFormatChunk.t) :
  wp (ExtensibleFormatChunk.parse byte_seq pos)
     (fun _ s' =>
        super s'
        = BaseChunk.mk name (chunk_type (super s')) (get_chunk_size byte_seq pos)
                       (valid (super self) && str_eqb name (lit "fmt ")
                        && (get_chunk_size byte_seq pos =? 40)
                        && (pos + 48 <=? len byte_seq)))
     self.
Proof.
  unfold ExtensibleFormatChunk.parse. start_format.
  f_equal. unfold type_neb, int_neb. rewrite !negb_involutive.
  destruct (str_eqb name (lit "fmt ")) eqn:Eb.
  - rewrite (fmt_name_type _ _ _ _ En Ety Eb).
    destruct (Z.eqb_spec (get_chunk_size byte_seq pos) 40) as [->|Hne].
    + eval_type_eqb. leb_chain (pos + 48) (len byte_seq); reflexivity.
    + now rewrite !andb_false_r.
  - now rewrite !andb_false_r.
Qed.

Lemma FactChunk_parse_valid (self : FactChunk.t) :
  wp (FactChunk.parse byte_seq pos)
     (fun _ s' =>
        super s'
        = BaseChunk.mk name (chunk_type (super s')) (get_chunk_size byte_seq pos)
                       false)
     self.
Proof.
  unfold FactChunk.parse. start_base.
  f_equal. unfold str_neb, type_neb, int_neb. rewrite !negb_involutive.
  destruct (str_eqb name (lit "fact")) eqn:Eb.
  - rewrite (fact_name_type _ _ _ _ En Ety Eb). cbn [type_eqb]. andb_simpl.
    reflexivity.
  - andb_simpl. reflexivity.
Qed.

Lemma wp_get_bytes_span {T : Type} `{Sub T} (byte_data : bytes)
      (start_pos length : Z) (valid_check : bool)
      (Q : bytes * Z -> T -> Prop) (s : T) :
  (forall s',
      super s' = with_valid
                   (valid (super s)
                    && (negb valid_check || (start_pos + length <=? len byte_data)))
                   (super s) ->
      Q (read_span byte_data start_pos length, start_pos + length) s') ->
  wp (get_bytes byte_data start_pos length valid_check) Q s.
Proof.
  intros HQ. unfold get_bytes. unfold read_span in HQ.
  rewrite Z.gtb_ltb in *.
  destruct (Z.ltb_spec (len byte_data) (start_pos + length)) as [Hlt|Hge].
  - apply wp_bind, wp_attr, wp_bind, wp_set_valid. intros s1 E1.
    apply wp_ret, HQ. rewrite E1. f_equal.
    rewrite (proj2 (Z.leb_gt _ _)) by lia.
    rewrite orb_false_r. apply andb_comm.
  - apply wp_ret, HQ.
    rewrite (proj2 (Z.leb_le _ _)) by lia.
    now rewrite orb_true_r, andb_true_r, with_valid_same.
Qed.

Lemma DataChunk_parse_valid (self : DataChunk.t) :
  wp (DataChunk.parse byte_seq pos)
     (fun _ s' =>
        super s'
        = BaseChunk.mk name (chunk_type (super s')) (get_chunk_size byte_seq pos)
                       (valid (super self) && str_eqb name (lit "data")
                        && (pos + 8 + get_chunk_size byte_seq pos <=? len byte_seq))
        /\ DataChunk.data s'
           = read_span byte_seq (pos + 8) (get_chunk_size byte_seq pos))
     self.
Proof.
  unfold DataChunk.parse.
  apply wp_bind, (wp_BaseChunk_parse _ _ name); [exact En|].
  intros ty s0 Ety E0.
  do 10 (wp_step; base_norm).
  apply wp_bind, wp_get_bytes_span. intros s3 E3. base_norm. cbv beta iota.
  apply wp_modify. cbn [DataChunk.data]. split; [|reflexivity].
  change (super (DataChunk.mk (DataChunk.base s3) ?d)) with (super s3).
  rewrite E3. cbn [chunk_type]. f_equal.
  unfold str_neb, type_neb. rewrite !negb_involutive.
  destruct (str_eqb name (lit "data")) eqn:Eb.
  - rewrite (data_name_type _ _ _ _ En Ety Eb). eval_type_eqb. now andb_simpl.
  - now andb_simpl.
Qed.

Lemma RiffChunk_parse_valid (self : RiffChunk.t) :
  wp (RiffChunk.parse byte_seq pos)
     (fun _ s' =>
        super s'
        = BaseChunk.mk name (chunk_type (super s')) (get_chunk_size byte_seq pos)
                       (valid (super self) && str_eqb name (lit "RIFF")
                        && (get_chunk_size byte_seq pos =? 4)
                        && (pos + 12 <=? len byte_seq)
                        && str_eqb (parse_str (read_span byte_seq (pos + 8) 4) 0 (-1))
                                   (lit "WAVE"))
        /\ RiffChunk.wave_symbol s'
           = parse_str (read_span byte_seq (pos + 8) 4) 0 (-1))
     self.
Proof.
  unfold RiffChunk.parse.
  apply wp_bind, (wp_BaseChunk_parse _ _ name); [exact En|].
  intros ty s0 Ety E0.
  do 12 (wp_step; base_norm).
  apply wp_bind, wp_get_bytes_span. intros s3 E3. base_norm. cbv beta iota.
  apply wp_bind, wp_modify, wp_bind, wp_get. cbn [RiffChunk.wave_symbol].
  assert (E3' : super s3
                = BaseChunk.mk name ty (get_chunk_size byte_seq pos)
                               (valid (super self) && str_eqb name (lit "RIFF")
                                && (get_chunk_size byte_seq pos =? 4)
                                && (pos + 12 <=? len byte_seq))).
  { rewrite E3. f_equal.
    unfold str_neb, type_neb, int_neb. rewrite !negb_involutive.
    replace (pos + 8 + 4) with (pos + 12) by lia.
    destruct (str_eqb name (lit "RIFF")) eqn:Eb.
    - rewrite (riff_name_type _ _ _ _ En Ety Eb). eval_type_eqb. now andb_simpl.
    - now andb_simpl. }
  clear E3. unfold str_neb.
  apply wp_when; intros Ec.
  - apply wp_modify. split; [|reflexivity].
    rewrite super_with_super.
    change (super (RiffChunk.mk (RiffChunk.base s3) ?w)) with (super s3).
    rewrite E3'. unfold with_valid. cbn [chunk_name chunk_type chunk_size].
    apply negb_true_iff in Ec. rewrite Ec. now rewrite andb_false_r.
  - split; [|reflexivity].
    change (super (RiffChunk.mk (RiffChunk.base s3) ?w)) with (super s3).
    rewrite E3'. cbn [chunk_type].
    apply negb_false_iff in Ec. rewrite Ec. now rewrite andb_true_r.
Qed.

End FlagExact.

(* ===================================================================== *)
(** ** Names, sizes and texts as bytes *)
(* ===================================================================== *)

Lemma map_byte_val_inj (a b : bytes) : map byte_val a = map byte_val b -> a = b.
Proof.
  revert b. induction a as [|x a IH]; intros [|y b]; simpl; try discriminate;
    [reflexivity|].
  intros [= Ex Er]. f_equal; [now apply byte_val_inj | now apply IH].
Qed.

Lemma ascii_bytes_values (bs : bytes) :
  ascii_bytes bs -> Forall (fun c => c < 128) (map byte_val bs).
Proof. induction 1; simpl; constructor; assumption. Qed.

Lemma le_uint_inj (a b : bytes) :
  List.length a = List.length b -> le_uint a = le_uint b -> a = b.
Proof.
  revert b. induction a as [|x a IH]; intros [|y b] Hl E; try discriminate Hl;
    [reflexivity|].
  injection Hl as Hl. cbn [le_uint] in E.
  pose proof (byte_val_range x). pose proof (byte_val_range y).
  assert (Er : le_uint a = le_uint b) by lia.
  assert (Ex : byte_val x = byte_val y) by lia.
  f_equal; [now apply byte_val_inj | now apply IH].
Qed.

Lemma firstn_plus {A : Type} (n m : nat) (l : list A) :
  firstn (n + m) l = firstn n l ++ firstn m (skipn n l).
Proof.
  revert l. induction n as [|n IH]; intros [|x l]; simpl;
    rewrite ?firstn_nil; try reflexivity.
  now rewrite IH.
Qed.

(** A slice is the concatenation of its two parts. *)
Lemma slice_split {A : Type} (l : list A) (a b c : Z) :
  0 <= a -> a <= b -> b <= c -> c <= len l ->
  slice l a c = slice l a b ++ slice l b c.
Proof.
  intros Ha Hab Hbc Hc. rewrite !slice_within by lia.
  replace (Z.to_nat (c - a)) with (Z.to_nat (b - a) + Z.to_nat (c - b))%nat by lia.
  rewrite firstn_plus. f_equal. rewrite skipn_skipn. do 2 f_equal. lia.
Qed.

Lemma app_eq_length {A : Type} (x1 y1 x2 y2 : list A) :
  List.length x1 = List.length x2 -> x1 ++ y1 = x2 ++ y2 -> x1 = x2 /\ y1 = y2.
Proof.
  revert x2. induction x1 as [|a x1 IH]; intros [|b x2]; simpl; try discriminate.
  - auto.
  - intros [= Hl] [= -> E]. destruct (IH _ Hl E) as [-> ->]. auto.
Qed.

Section AsBytes.
Import BaseChunk.
Variables (byte_seq : bytes) (pos : Z).
Hypothesis Hpos : 0 <= pos.

(** The name is an ASCII tag exactly when the four bytes are the tag. *)
Lemma get_chunk_name_tag (tag : bytes) :
  pos + 4 <= len byte_seq -> ascii_bytes tag ->
  get_chunk_name byte_seq pos = Ret (map byte_val tag)
  <-> slice byte_seq pos (pos + 4) = tag.
Proof.
  intros Hlen Htag. unfold get_chunk_name, decode.
  rewrite Z.gtb_ltb, (proj2 (Z.ltb_ge _ _)) by lia.
  split.
  - destruct (utf8_decode (slice byte_seq pos (pos + 4))) as [s|] eqn:E;
      [|discriminate].
    intros [= ->]. apply map_byte_val_inj. symmetry.
    apply utf8_decode_ascii_inv; [exact E | now apply ascii_bytes_values].
  - intros ->. now rewrite utf8_decode_ascii.
Qed.

(** The size is [n] exactly when the four size bytes encode [n]. *)
Lemma get_chunk_size_bytes (n : Z) :
  pos + 8 <= len byte_seq -> 0 <= n < 4294967296 ->
  get_chunk_size byte_seq pos = n
  <-> slice byte_seq (pos + 4) (pos + 8) = u32le n.
Proof.
  intros Hlen Hn. unfold get_chunk_size, parse_int, int_from_bytes.
  rewrite Z.gtb_ltb, (proj2 (Z.ltb_ge _ _)) by lia. cbn [andb].
  split.
  - intros E. apply le_uint_inj.
    + assert (Hl : len (slice byte_seq (pos + 4) (pos + 8)) = 4)
        by (rewrite slice_length; lia).
      unfold len in Hl. change (List.length (u32le n)) with 4%nat. lia.
    + now rewrite le_uint_u32le.
  - intros ->. now apply le_uint_u32le.
Qed.

End AsBytes.

(** A text of at most as many bytes as an ASCII tag without NUL is read
    as the tag exactly when the bytes are the tag. *)
Lemma parse_str_tag (w tag : bytes) :
  ascii_bytes tag -> no_nul tag -> tag <> [] ->
  (List.length w <= List.length tag)%nat ->
  BaseChunk.parse_str w 0 (-1) = map byte_val tag <-> w = tag.
Proof.
  intros Ha Hn Hne Hl. rewrite parse_str_until_nul. split.
  - destruct (utf8_decode (until_nul w)) as [s|] eqn:E.
    + intros ->. apply utf8_decode_ascii_inv in E; [|now apply ascii_bytes_values].
      apply map_byte_val_inj in E.
      pose proof (until_nul_prefix w) as Hp. rewrite <- E in Hp.
      rewrite firstn_all2 in Hp by exact Hl. congruence.
    + intros E'. destruct tag; [contradiction | discriminate].
  - intros ->. rewrite until_nul_id by exact Hn. now rewrite utf8_decode_ascii.
Qed.

(* ===================================================================== *)
(** ** The attributes of a derived class through the inherited methods *)
(* ===================================================================== *)

Section Frame.
Import BaseChunk.
Context {T : Type} `{Sub T} {X : Type}.
Variable g : T -> X.
Hypothesis Hg : forall b s, g (with_super b s) = g s.

Lemma wp_update_frame (f : BaseChunk.t -> BaseChunk.t) (Q : unit -> T -> Prop) (s : T) :
  (forall s', super s' = f (super s) -> g s' = g s -> Q tt s') ->
  wp (update f) Q s.
Proof. intros HQ. apply wp_modify, HQ; [apply super_with_super | apply Hg]. Qed.

Lemma wp_check_frame (c : bool) (Q : unit -> T -> Prop) (s : T) :
  (forall s',
      super s' = with_valid (valid (super s) && negb c) (super s) ->
      g s' = g s -> Q tt s') ->
  wp (when c (set_valid false)) Q s.
Proof.
  intros HQ. apply wp_when; intros ->.
  - apply wp_update_frame. intros s' E Eg. apply HQ; [|exact Eg].
    now rewrite E, andb_false_r.
  - apply HQ; [|reflexivity]. now rewrite andb_true_r, with_valid_same.
Qed.

Lemma wp_get_bytes_frame (byte_data : bytes) (start_pos length : Z)
      (valid_check : bool) (Q : bytes * Z -> T -> Prop) (s : T) :
  (forall s',
      super s' = with_valid
                   (valid (super s)
                    && (negb valid_check || (start_pos + length <=? len byte_data)))
                   (super s) ->
      g s' = g s ->
      Q (read_span byte_data start_pos length, start_pos + length) s') ->
  wp (get_bytes byte_data start_pos length valid_check) Q s.
Proof.
  intros HQ. unfold get_bytes. unfold read_span in HQ.
  rewrite Z.gtb_ltb in *.
  destruct (Z.ltb_spec (len byte_data) (start_pos + length)) as [Hlt|Hge].
  - apply wp_bind, wp_attr, wp_bind, wp_update_frame. intros s1 E1 Eg.
    apply wp_ret, HQ; [|exact Eg]. rewrite E1. f_equal.
    rewrite (proj2 (Z.leb_gt _ _)) by lia.
    rewrite orb_false_r. apply andb_comm.
  - apply wp_ret, HQ; [|reflexivity].
    rewrite (proj2 (Z.leb_le _ _)) by lia.
    now rewrite orb_true_r, andb_true_r, with_valid_same.
Qed.

Lemma wp_BaseChunk_parse_frame (byte_seq : bytes) (pos : Z) (name : str)
      (Q : unit -> T -> Prop) (s : T) :
  get_chunk_name byte_seq pos = Ret name ->
  (forall ty s',
      get_chunk_type byte_seq pos = Ret ty ->
      super s' = BaseChunk.mk name ty (get_chunk_size byte_seq pos)
                              (valid (super s)) ->
      g s' = g s ->
      Q tt s') ->
  wp (BaseChunk.parse byte_seq pos) Q s.
Proof.
  intros E HQ. destruct (get_chunk_type_returns _ _ _ E) as [ty Ety].
  unfold BaseChunk.parse.
  apply wp_bind, (wp_call _ name); [exact E|].
  apply wp_bind, wp_update_frame. intros s1 E1 G1.
  apply wp_bind, (wp_call _ ty); [exact Ety|].
  apply wp_bind, wp_update_frame. intros s2 E2 G2.
  apply wp_update_frame. intros s3 E3 G3.
  apply (HQ ty); [exact Ety| |congruence].
  rewrite E3, E2, E1. reflexivity.
Qed.

End Frame.

Section BextFields.
Import BaseChunk.

Lemma wp_set_field (f : BextChunk.field) (v : bytes)
      (Q : unit -> BextChunk.t -> Prop) (s : BextChunk.t) :
  (forall s',
      BextChunk.fields s'
      = (fun h => if BextChunk.field_eqb h f then v else BextChunk.fields s h) ->
      Q tt s') ->
  wp (BextChunk.set_field f v) Q s.
Proof. intros HQ. apply wp_modify, HQ. reflexivity. Qed.

Ltac fields_norm :=
  repeat match goal with
         | F0 : BextChunk.fields ?x = _, F : BextChunk.fields _ = ?rhs |- _ =>
           lazymatch rhs with
           | context [BextChunk.fields x] => rewrite F0 in F; clear F0
           end
         end.

Ltac bext_step :=
  cbv beta iota;
  lazymatch goal with
  | |- wp (bind _ _) _ _ => apply wp_bind
  | |- wp (attr _) _ _ => apply wp_attr
  | |- wp (when _ (set_valid false)) _ _ =>
    apply (wp_check_frame BextChunk.fields); [reflexivity | intros ? _ ?]
  | |- wp (get_bytes _ _ _ _) _ _ =>
    apply (wp_get_bytes_frame BextChunk.fields); [reflexivity | intros ? _ ?]
  | |- wp (BextChunk.set_field _ _) _ _ => apply wp_set_field; intros ? ?
  end.

(** Each byte attribute holds the span of its field in the layout. *)
Lemma BextChunk_parse_fields (byte_seq : bytes) (pos : Z) (name : str)
      (self : BextChunk.t) :
  get_chunk_name byte_seq pos = Ret name ->
  wp (BextChunk.parse byte_seq pos)
     (fun _ s' =>
        forall f,
          BextChunk.fields s' f
          = read_span byte_seq (pos + bext_offset f) (bext_width f))
     self.
Proof.
  intros En. unfold BextChunk.parse.
  apply wp_bind, (wp_BaseChunk_parse_frame BextChunk.fields) with (name := name);
    [reflexivity | exact En |].
  intros ty s0 _ _ F0.
  repeat (bext_step; fields_norm).
  intros f.
  match goal with F : BextChunk.fields _ = _ |- _ => rewrite F end.
  destruct f; cbn [BextChunk.field_eqb bext_offset bext_width];
    f_equal; lia.
Qed.

End BextFields.

Section FormatFields.
Import BaseChunk.
Context {T : Type} `{BaseFormatChunk.FSub T}.

Lemma wp_f_attr {A : Type} (a : BaseChunk.t -> A) (Q : A -> T -> Prop) (s : T) :
  Q (a (BaseFormatChunk.base (BaseFormatChunk.fsuper s))) s -> wp (attr a) Q s.
Proof. exact (fun q => q). Qed.

Lemma wp_f_update (f : BaseChunk.t -> BaseChunk.t) (Q : unit -> T -> Prop) (s : T) :
  (forall s',
      BaseFormatChunk.fsuper s'
      = BaseFormatChunk.with_base
          (f (BaseFormatChunk.base (BaseFormatChunk.fsuper s)))
          (BaseFormatChunk.fsuper s) ->
      Q tt s') ->
  wp (update f) Q s.
Proof.
  intros HQ. apply wp_modify, HQ.
  cbn [with_super super BaseFormatChunk.Sub_of_FSub].
  apply BaseFormatChunk.fsuper_with_fsuper.
Qed.

Lemma wp_fupdate (f : BaseFormatChunk.t -> BaseFormatChunk.t)
      (Q : unit -> T -> Prop) (s : T) :
  (forall s', BaseFormatChunk.fsuper s' = f (BaseFormatChunk.fsuper s) -> Q tt s') ->
  wp (BaseFormatChunk.fupdate f) Q s.
Proof. intros HQ. apply wp_modify, HQ, BaseFormatChunk.fsuper_with_fsuper. Qed.

Lemma with_base_same (x : BaseFormatChunk.t) :
  BaseFormatChunk.with_base (BaseFormatChunk.base x) x = x.
Proof. now destruct x. Qed.

Lemma wp_f_check (c : bool) (Q : unit -> T -> Prop) (s : T) :
  (forall s',
      BaseFormatChunk.fsuper s'
      = BaseFormatChunk.with_base
          (with_valid (valid (BaseFormatChunk.base (BaseFormatChunk.fsuper s))
                       && negb c)
                      (BaseFormatChunk.base (BaseFormatChunk.fsuper s)))
          (BaseFormatChunk.fsuper s) ->
      Q tt s') ->
  wp (when c (set_valid false)) Q s.
Proof.
  intros HQ. apply wp_when; intros ->.
  - apply wp_f_update. intros s' E. apply HQ. now rewrite E, andb_false_r.
  - apply HQ. now rewrite andb_true_r, with_valid_same, with_base_same.
Qed.

Lemma wp_f_get_bytes (byte_data : bytes) (start_pos length : Z)
      (valid_check : bool) (Q : bytes * Z -> T -> Prop) (s : T) :
  (forall s',
      BaseFormatChunk.fsuper s'
      = BaseFormatChunk.with_base
          (with_valid (valid (BaseFormatChunk.base (BaseFormatChunk.fsuper s))
                       && (negb valid_check
                           || (start_pos + length <=? len byte_data)))
                      (BaseFormatChunk.base (BaseFormatChunk.fsuper s)))
          (BaseFormatChunk.fsuper s) ->
      Q (read_span byte_data start_pos length, start_pos + length) s') ->
  wp (get_bytes byte_data start_pos length valid_check) Q s.
Proof.
  intros HQ. unfold get_bytes. unfold read_span in HQ.
  rewrite Z.gtb_ltb in *.
  destruct (Z.ltb_spec (len byte_data) (start_pos + length)) as [Hlt|Hge].
  - apply wp_bind, wp_f_attr, wp_bind, wp_f_update. intros s1 E1.
    apply wp_ret, HQ. rewrite E1. do 2 f_equal.
    rewrite (proj2 (Z.leb_gt _ _)) by lia.
    rewrite orb_false_r. apply andb_comm.
  - apply wp_ret, HQ.
    rewrite (proj2 (Z.leb_le _ _)) by lia.
    now rewrite orb_true_r, andb_true_r, with_valid_same, with_base_same.
Qed.

Lemma wp_f_BaseChunk_parse (byte_seq : bytes) (pos : Z) (name : str)
      (Q : unit -> T -> Prop) (s : T) :
  get_chunk_name byte_seq pos = Ret name ->
  (forall ty s',
      get_chunk_type byte_seq pos = Ret ty ->
      BaseFormatChunk.fsuper s'
      = BaseFormatChunk.with_base
          (BaseChunk.mk name ty (get_chunk_size byte_seq pos)
                        (valid (BaseFormatChunk.base (BaseFormatChunk.fsuper s))))
          (BaseFormatChunk.fsuper s) ->
      Q tt s') ->
  wp (BaseChunk.parse byte_seq pos) Q s.
Proof.
  intros E HQ. destruct (get_chunk_type_returns _ _ _ E) as [ty Ety].
  unfold BaseChunk.parse.
  apply wp_bind, (wp_call _ name); [exact E|].
  apply wp_bind, wp_f_update. intros s1 E1.
  apply wp_bind, (wp_call _ ty); [exact Ety|].
  apply wp_bind, wp_f_update. intros s2 E2.
  apply wp_f_update. intros s3 E3.
  apply (HQ ty); [exact Ety|].
  rewrite E3, E2, E1. reflexivity.
Qed.

End FormatFields.

(** Keeps the attributes of the current format object in the form
    [fsuper s = BaseFormatChunk.mk ...]. *)
Ltac f_norm :=
  repeat match goal with
         | E0 : BaseFormatChunk.fsuper ?x = _,
           E : BaseFormatChunk.fsuper _ = ?rhs |- _ =>
           lazymatch rhs with
           | context [BaseFormatChunk.fsuper x] =>
             rewrite E0 in E;
             unfold BaseFormatChunk.with_base, BaseChunk.with_valid in E;
             cbn [BaseChunk.valid BaseChunk.chunk_name BaseChunk.chunk_type
                  BaseChunk.chunk_size BaseFormatChunk.base
                  BaseFormatChunk.format_tag BaseFormatChunk._channels
                  BaseFormatChunk._sample_rate BaseFormatChunk._byte_rate
                  BaseFormatChunk._block_align BaseFormatChunk._bits_per_sample] in E;
             clear E0
           end
         end;
  repeat match goal with
         | E0 : BaseFormatChunk.fsuper ?x = _
           |- context [BaseFormatChunk.fsuper ?x] =>
           rewrite E0;
           cbn [BaseChunk.valid BaseChunk.chunk_name BaseChunk.chunk_type
                BaseChunk.chunk_size BaseFormatChunk.base]
         end.

Ltac f_step :=
  cbv beta iota;
  lazymatch goal with
  | |- wp (bind _ _) _ _ => apply wp_bind
  | |- wp (BaseChunk.attr _) _ _ => apply wp_f_attr
  | |- wp (when _ (BaseChunk.set_valid false)) _ _ =>
    apply wp_f_check; intros ? ?
  | |- wp (BaseChunk.get_bytes _ _ _ _) _ _ =>
    apply wp_f_get_bytes; intros ? ?
  | |- wp _ _ _ => apply wp_fupdate; intros ? ?
  end.

Section FormatLayout.
Import BaseChunk.
Variables (byte_seq : bytes) (pos : Z) (name : str).
Hypothesis En : get_chunk_name byte_seq pos = Ret name.

(** The object [BaseFormatChunk.parse] leaves: every byte attribute holds
    the span of its field. *)
Lemma wp_BaseFormatChunk_parse_fields {T : Type} `{BaseFormatChunk.FSub T}
      (Q : unit -> T -> Prop) (s : T) :
  (forall ty s',
      get_chunk_type byte_seq pos = Ret ty ->
      BaseFormatChunk.fsuper s'
      = BaseFormatChunk.mk
          (BaseChunk.mk name ty (get_chunk_size byte_seq pos)
                        (valid (BaseFormatChunk.base (BaseFormatChunk.fsuper s))
                         && str_eqb name (lit "fmt ")
                         && (pos + 24 <=? len byte_seq)))
          (BaseFormatChunk._get_format_tag (read_span byte_seq (pos + 8) 2))
          (read_span byte_seq (pos + 10) 2)
          (read_span byte_seq (pos + 12) 4)
          (read_span byte_seq (pos + 16) 4)
          (read_span byte_seq (pos + 20) 2)
          (read_span byte_seq (pos + 22) 2) ->
      Q tt s') ->
  wp (BaseFormatChunk.parse byte_seq pos) Q s.
Proof.
  intros HQ. unfold BaseFormatChunk.parse.
  apply wp_bind, (wp_f_BaseChunk_parse _ _ name); [exact En|].
  intros ty s0 Ety E0.
  repeat (f_step; f_norm).
  apply (HQ ty); [exact Ety|].
  etransitivity; [eassumption|].
  unfold str_neb. rewrite negb_involutive.
  f_equal; try (f_equal; lia).
  f_equal. leb_chain (pos + 24) (len byte_seq); reflexivity.
Qed.

Lemma StandardPCMFormatChunk_parse_fields (self : StandardPCMFormatChunk.t) :
  wp (StandardPCMFormatChunk.parse byte_seq pos)
     (fun _ s' =>
        exists ty,
          get_chunk_type byte_seq pos = Ret ty /\
          BaseFormatChunk.fsuper s'
          = BaseFormatChunk.mk
              (BaseChunk.mk name ty (get_chunk_size byte_seq pos)
                            (valid (super self) && str_eqb name (lit "fmt ")
                             && (get_chunk_size byte_seq pos =? 16)
                             && (pos + 24 <=? len byte_seq)))
              (BaseFormatChunk._get_format_tag (read_span byte_seq (pos + 8) 2))
              (read_span byte_seq (pos + 10) 2)
              (read_span byte_seq (pos + 12) 4)
              (read_span byte_seq (pos + 16) 4)
              (read_span byte_seq (pos + 20) 2)
              (read_span byte_seq (pos + 22) 2))
     self.
Proof.
  unfold StandardPCMFormatChunk.parse.
  apply wp_bind, wp_BaseFormatChunk_parse_fields. intros ty s0 Ety E0.
  repeat (f_step; f_norm).
  exists ty. split; [exact Ety|].
  do 2 f_equal. unfold type_neb, int_neb. rewrite !negb_involutive.
  change (valid (super self))
    with (valid (BaseFormatChunk.base (BaseFormatChunk.fsuper self))).
  destruct (str_eqb name (lit "fmt ")) eqn:Eb; [|now andb_simpl].
  rewrite (fmt_name_type _ _ _ _ En Ety Eb).
  destruct (get_chunk_size byte_seq pos =? 16); cbn [type_eqb];
    andb_simpl; reflexivity.
Qed.

End FormatLayout.

(* ===================================================================== *)
(** ** Further properties: the readers *)
(* ===================================================================== *)

Lemma slice_app_l {A : Type} (a b : list A) (x y : Z) :
  0 <= x -> x <= y -> y <= len a -> slice (a ++ b) x y = slice a x y.
Proof.
  intros Hx Hxy Hy. pose proof (len_app a b) as Hl. pose proof (len_nonneg b).
  rewrite !slice_within by lia.
  rewrite skipn_app, firstn_app, length_skipn.
  replace (Z.to_nat (y - x) - (List.length a - Z.to_nat x))%nat with 0%nat
    by (unfold len in *; lia).
  rewrite firstn_O. apply app_nil_r.
Qed.

(** X1.  [get_bytes] returns the whole span or nothing: for a
    non-negative position and length, the [length] bytes of the span and the
    object as it was when the span lies in the buffer, and else the empty
    bytes, the flag being cleared when the read is checked.  The position
    it returns is moved by [length] in both cases. *)
Theorem get_bytes_whole_span_or_nothing {T : Type} `{BaseChunk.Sub T}
        (byte_data : bytes) (start_pos length : Z) (valid_check : bool) (s : T) :
  0 <= start_pos -> 0 <= length ->
  exists d s',
    BaseChunk.get_bytes byte_data start_pos length valid_check s
    = Ret ((d, start_pos + length), s') /\
    ((start_pos + length <= len byte_data /\
      d = slice byte_data start_pos (start_pos + length) /\
      len d = length /\ s' = s) \/
     (len byte_data < start_pos + length /\ d = [] /\
      BaseChunk.valid (BaseChunk.super s')
      = negb valid_check && BaseChunk.valid (BaseChunk.super s))).
Proof.
  intros Hs Hl. unfold BaseChunk.get_bytes. rewrite Z.gtb_ltb.
  destruct (Z.ltb_spec (len byte_data) (start_pos + length)) as [Hlt|Hge].
  - eexists _, _. split; [reflexivity|]. right.
    repeat split; [exact Hlt|].
    cbn [fst snd]. now rewrite BaseChunk.super_with_super.
  - eexists _, _. split; [reflexivity|]. left.
    repeat split; [exact Hge|]. rewrite slice_length by lia. lia.
Qed.

Lemma get_bytes_whole_span_or_nothing_witness :
  exists d s',
    BaseChunk.get_bytes span_6 2 3 true base_flagged = Ret ((d, 2 + 3), s') /\
    ((2 + 3 <= len span_6 /\ d = slice span_6 2 (2 + 3) /\ len d = 3 /\
      s' = base_flagged) \/
     (len span_6 < 2 + 3 /\ d = [] /\
      BaseChunk.valid (BaseChunk.super s')
      = negb true && BaseChunk.valid (BaseChunk.super base_flagged))).
Proof.
  assert (H2 : 0 <= 2) by discriminate.
  assert (H3 : 0 <= 3) by discriminate.
  exact (get_bytes_whole_span_or_nothing span_6 2 3 true base_flagged H2 H3).
Defined.

Lemma parse_int_unsigned_range_aux (byte_seq : bytes) (start_pos length : Z)
      (order : byteorder) :
  0 <= BaseChunk.parse_int byte_seq start_pos length order false.
Proof.
  unfold BaseChunk.parse_int, int_from_bytes. cbn [andb].
  destruct order.
  - apply le_uint_range.
  - apply le_uint_range.
Qed.

(** X2.  An unsigned [parse_int] is never negative and fits the width of
    the read: from [start_pos] to the end index [length] the value is below
    [2 ^ (8 * (length - start_pos))], in either byte order.  So the two-byte
    accessors are below 65536 and the four-byte ones below 2^32. *)
Theorem parse_int_unsigned_range (byte_seq : bytes) (start_pos length : Z)
        (order : byteorder) :
  0 <= start_pos -> start_pos <= length ->
  0 <= BaseChunk.parse_int byte_seq start_pos length order false
    < 2 ^ (8 * (length - start_pos)).
Proof.
  intros Hs Hl. unfold BaseChunk.parse_int, int_from_bytes. cbn [andb].
  set (sl := slice byte_seq start_pos length).
  assert (Hlen : len sl <= length - start_pos).
  { unfold sl. rewrite slice_nonneg by lia. unfold len.
    rewrite length_firstn. lia. }
  assert (Hpow : 2 ^ (8 * len sl) <= 2 ^ (8 * (length - start_pos)))
    by (apply Z.pow_le_mono_r; [lia | pose proof (len_nonneg sl); lia]).
  destruct order.
  - pose proof (le_uint_range sl). lia.
  - pose proof (le_uint_range (rev sl)) as Hr.
    replace (len (rev sl)) with (len sl) in Hr
      by (unfold len; now rewrite length_rev).
    lia.
Qed.

Lemma parse_int_unsigned_range_witness :
  0 <= BaseChunk.parse_int span_6 0 2 big false < 2 ^ (8 * (2 - 0)).
Proof.
  assert (H0 : 0 <= 0) by discriminate.
  assert (H2 : 0 <= 2) by discriminate.
  exact (parse_int_unsigned_range span_6 0 2 big H0 H2).
Defined.

(** X3.  [get_chunk_size] reads the size field back: behind any prefix,
    after any four name bytes and before any rest, the little-endian
    encoding of an unsigned 32-bit [n] is read as [n]. *)
Theorem get_chunk_size_reads_u32le (pre name4 rest : bytes) (n : Z) :
  len name4 = 4 -> 0 <= n < 4294967296 ->
  BaseChunk.get_chunk_size (pre ++ name4 ++ u32le n ++ rest) (len pre) = n.
Proof.
  intros H4 Hn.
  replace (len pre) with (len pre + 0) by lia.
  rewrite get_chunk_size_shift by lia.
  assert (Hl : len (name4 ++ u32le n ++ rest) = 8 + len rest).
  { rewrite !len_app, H4. change (len (u32le n)) with 4. lia. }
  pose proof (len_nonneg rest).
  apply get_chunk_size_bytes; [lia | lia | exact Hn |].
  replace (0 + 4) with (len name4 + 0) by lia.
  replace (0 + 8) with (len name4 + 4) by lia.
  rewrite slice_app_r by lia.
  rewrite slice_app_l by (change (len (u32le n)) with 4; lia).
  apply slice_whole.
Qed.

Lemma get_chunk_size_reads_u32le_witness :
  BaseChunk.get_chunk_size (span_6 ++ blit "data" ++ u32le 1000 ++ payload_8)
                           (len span_6) = 1000.
Proof.
  apply (get_chunk_size_reads_u32le span_6 (blit "data") payload_8 1000).
  - reflexivity.
  - split; [discriminate | reflexivity].
Defined.

(** X4.  With its default arguments [parse_str] reads up to the first NUL
    byte: what follows the first NUL does not enter the result. *)
Theorem parse_str_stops_at_nul (text rest : bytes) :
  no_nul text ->
  BaseChunk.parse_str (text ++ x00 :: rest) 0 (-1) = BaseChunk.parse_str text 0 (-1).
Proof.
  intros Hn. rewrite !parse_str_until_nul.
  now rewrite until_nul_app, until_nul_id.
Qed.

Lemma parse_str_stops_at_nul_witness :
  BaseChunk.parse_str (take_1 ++ x00 :: payload_8) 0 (-1)
  = BaseChunk.parse_str take_1 0 (-1).
Proof.
  apply (parse_str_stops_at_nul take_1 payload_8).
  repeat constructor; discriminate.
Defined.

(** X5.  An ASCII text without NUL, padded with any number of NUL bytes
    as the text fields of a ["bext"] chunk are, is read back as the text. *)
Theorem parse_str_reads_padded_ascii (text : bytes) (n : nat) :
  ascii_bytes text -> no_nul text ->
  BaseChunk.parse_str (text ++ repeat x00 n) 0 (-1) = map byte_val text.
Proof.
  intros Ha Hn. rewrite parse_str_until_nul.
  destruct n as [|n]; simpl repeat.
  - rewrite app_nil_r, until_nul_id by exact Hn. now rewrite utf8_decode_ascii.
  - rewrite until_nul_app by exact Hn. now rewrite utf8_decode_ascii.
Qed.

Lemma parse_str_reads_padded_ascii_witness :
  BaseChunk.parse_str (take_1 ++ repeat x00 26) 0 (-1) = lit "take 1".
Proof.
  apply (parse_str_reads_padded_ascii take_1 26).
  - repeat constructor.
  - repeat constructor; discriminate.
Defined.

(** X6.  Whatever the bytes, the string [parse_str] returns with its
    default arguments holds no NUL character and has at most one character
    per byte. *)
Theorem parse_str_no_nul_no_longer (byte_seq : bytes) :
  ~ In 0 (BaseChunk.parse_str byte_seq 0 (-1)) /\
  len (BaseChunk.parse_str byte_seq 0 (-1)) <= len byte_seq.
Proof.
  rewrite parse_str_until_nul.
  destruct (utf8_decode (until_nul byte_seq)) as [s|] eqn:E.
  - split.
    + apply (utf8_decode_no_nul _ _ E), until_nul_no_nul.
    + apply utf8_decode_length in E. pose proof (until_nul_length byte_seq).
      unfold len in *. lia.
  - split; [intros []|]. apply len_nonneg.
Qed.

(** X7.  For four ASCII name bytes at a non-negative offset
    [get_chunk_name] returns their four characters, and it returns an ASCII
    tag only for the bytes of that tag. *)
Theorem get_chunk_name_ascii (byte_seq : bytes) (pos : Z) (tag : bytes) :
  0 <= pos -> pos + 4 <= len byte_seq -> ascii_bytes tag ->
  (ascii_bytes (slice byte_seq pos (pos + 4)) ->
   BaseChunk.get_chunk_name byte_seq pos
   = Ret (map byte_val (slice byte_seq pos (pos + 4)))) /\
  (BaseChunk.get_chunk_name byte_seq pos = Ret (map byte_val tag)
   <-> slice byte_seq pos (pos + 4) = tag).
Proof.
  intros Hp Hl Ht. split.
  - intros Ha. now apply get_chunk_name_tag.
  - now apply get_chunk_name_tag.
Qed.

Lemma get_chunk_name_ascii_witness :
  BaseChunk.get_chunk_name fact_1000 0 = Ret (lit "fact").
Proof.
  assert (Hp : 0 <= 0) by discriminate.
  assert (Hl : 0 + 4 <= len fact_1000) by discriminate.
  assert (Ht : ascii_bytes (blit "fact")) by (repeat constructor).
  apply (proj2 (get_chunk_name_ascii fact_1000 0 (blit "fact") Hp Hl Ht)).
  reflexivity.
Defined.

(** X8.  A tag of the classifier other than [UNKNOWN] fixes the header:
    the name is the one of the tag, and for the three format tags the size
    field is 16, 18 or 40. *)
Theorem classified_tag_fixes_header (byte_seq : bytes) (pos : Z) (t : ChunkType) :
  BaseChunk.get_chunk_type byte_seq pos = Ret (Some t) -> t <> UNKNOWN ->
  BaseChunk.get_chunk_name byte_seq pos = Ret (tag_name t) /\
  (forall n, tag_size t = Some n -> BaseChunk.get_chunk_size byte_seq pos = n).
Proof.
  unfold BaseChunk.get_chunk_type. intros E Ht.
  destruct (pos + 4 >? len byte_seq); [congruence|].
  destruct (BaseChunk.get_chunk_name byte_seq pos) as [name|e]; [|discriminate].
  destruct (str_eqb name (lit "RIFF")) eqn:E1.
  { apply str_eqb_eq in E1. injection E as <-. subst name.
    split; [reflexivity | discriminate]. }
  destruct (str_eqb name (lit "fmt ")) eqn:E2.
  { apply str_eqb_eq in E2. subst name.
    destruct (Z.eqb_spec (BaseChunk.get_chunk_size byte_seq pos) 16) as [->|N16].
    { injection E as <-. split; [reflexivity | now intros n [= <-]]. }
    destruct (Z.eqb_spec (BaseChunk.get_chunk_size byte_seq pos) 18) as [->|N18].
    { injection E as <-. split; [reflexivity | now intros n [= <-]]. }
    destruct (Z.eqb_spec (BaseChunk.get_chunk_size byte_seq pos) 40) as [->|N40].
    { injection E as <-. split; [reflexivity | now intros n [= <-]]. }
    congruence. }
  destruct (str_eqb name (lit "data")) eqn:E3.
  { apply str_eqb_eq in E3. injection E as <-. subst name.
    split; [reflexivity | discriminate]. }
  destruct (str_eqb name (lit "bext")) eqn:E4; [|discriminate].
  apply str_eqb_eq in E4. injection E as <-. subst name.
  split; [reflexivity | discriminate].
Qed.

Lemma classified_tag_fixes_header_witness :
  BaseChunk.get_chunk_name fmt_pcm 0 = Ret (lit "fmt ") /\
  BaseChunk.get_chunk_size fmt_pcm 0 = 16.
Proof.
  assert (E : BaseChunk.get_chunk_type fmt_pcm 0 = Ret (Some STANDARD_FMT))
    by (vm_compute; reflexivity).
  assert (Ht : STANDARD_FMT <> UNKNOWN) by discriminate.
  destruct (classified_tag_fixes_header fmt_pcm 0 STANDARD_FMT E Ht) as [Hn Hs].
  split; [exact Hn | exact (Hs 16 eq_refl)].
Defined.

(** X9.  Looking the classifier's result up in [CHUNK_TYPE_MAP]: with
    the name in the buffer, the lookup is a [KeyError] exactly when the name
    is none of ["RIFF"], ["fmt "], ["data"], ["bext"], and no lookup gives
    [FactChunk]. *)
Theorem registry_lookup_of_classified (byte_seq : bytes) (pos : Z) (name : str)
        (ty : option ChunkType) :
  pos + 4 <= len byte_seq ->
  BaseChunk.get_chunk_name byte_seq pos = Ret name ->
  BaseChunk.get_chunk_type byte_seq pos = Ret ty ->
  (dict_getitem CHUNK_TYPE_MAP ty = None
   <-> name <> lit "RIFF" /\ name <> lit "fmt " /\
       name <> lit "data" /\ name <> lit "bext") /\
  dict_getitem CHUNK_TYPE_MAP ty <> Some cls_FactChunk.
Proof.
  intros Hl En. unfold BaseChunk.get_chunk_type.
  rewrite Z.gtb_ltb, (proj2 (Z.ltb_ge _ _)) by lia. rewrite En.
  destruct (str_eqb name (lit "RIFF")) eqn:E1.
  { apply str_eqb_eq in E1. intros [= <-]. repeat split; try discriminate.
    now intros (H & _). }
  destruct (str_eqb name (lit "fmt ")) eqn:E2.
  { apply str_eqb_eq in E2. intros Et.
    assert (Hd : exists c, dict_getitem CHUNK_TYPE_MAP ty = Some c /\ c <> cls_FactChunk).
    { repeat match type of Et with
             | context [?a =? ?b] => destruct (a =? b)
             end; injection Et as <-; eexists; (split; [reflexivity | discriminate]). }
    destruct Hd as (c & -> & Hc). repeat split; try discriminate; try congruence.
    now intros (_ & H & _). }
  destruct (str_eqb name (lit "data")) eqn:E3.
  { apply str_eqb_eq in E3. intros [= <-]. repeat split; try discriminate.
    now intros (_ & _ & H & _). }
  destruct (str_eqb name (lit "bext")) eqn:E4.
  { apply str_eqb_eq in E4. intros [= <-]. repeat split; try discriminate.
    now intros (_ & _ & _ & H). }
  intros [= <-]. repeat split; try discriminate;
    intros ->; discriminate.
Qed.

Lemma registry_lookup_of_classified_witness :
  dict_getitem CHUNK_TYPE_MAP None = None.
Proof.
  assert (Hl : 0 + 4 <= len fact_1000) by discriminate.
  assert (En : BaseChunk.get_chunk_name fact_1000 0 = Ret (lit "fact"))
    by (vm_compute; reflexivity).
  assert (Et : BaseChunk.get_chunk_type fact_1000 0 = Ret None)
    by (vm_compute; reflexivity).
  apply (proj1 (registry_lookup_of_classified fact_1000 0 (lit "fact") None Hl En Et)).
  repeat split; discriminate.
Defined.

(* ===================================================================== *)
(** ** Further properties: every decoder *)
(* ===================================================================== *)

Lemma exec_flag_only_cleared {T : Type} `{BaseChunk.Sub T} (m : M T unit) (s r : T) :
  wp m (fun _ s' => flag_only_cleared s s') s ->
  exec m s = Ret r ->
  BaseChunk.valid (BaseChunk.super r) = true ->
  BaseChunk.valid (BaseChunk.super s) = true.
Proof.
  intros Hwp Hr. apply wp_exec in Hwp as (r' & Hr' & Hf).
  rewrite Hr in Hr'. injection Hr' as <-. exact Hf.
Qed.

Ltac by_name_or_raise byte_seq pos self r Hr flag raises :=
  let name := fresh "name" in
  let e := fresh "e" in
  let En := fresh "En" in
  let Hv := fresh "Hv" in
  destruct (BaseChunk.get_chunk_name byte_seq pos) as [name|e] eqn:En;
  [ intros Hv;
    exact (exec_flag_only_cleared _ self r (flag byte_seq pos name En self) Hr Hv)
  | rewrite (raises byte_seq pos e En) in Hr; discriminate Hr ].

(** X10.  No decoder sets the flag: on any object, for any buffer and
    offset, a flag that is true after [parse] was true before it. *)
Theorem parse_never_sets_flag (byte_seq : bytes) (pos : Z) :
  (forall self r, exec (BaseChunk.parse byte_seq pos) self = Ret r ->
                  BaseChunk.valid r = true -> BaseChunk.valid self = true) /\
  (forall self r, exec (RiffChunk.parse byte_seq pos) self = Ret r ->
                  BaseChunk.valid (RiffChunk.base r) = true ->
                  BaseChunk.valid (RiffChunk.base self) = true) /\
  (forall self r, exec (StandardPCMFormatChunk.parse byte_seq pos) self = Ret r ->
                  BaseChunk.valid (BaseChunk.super r) = true ->
                  BaseChunk.valid (BaseChunk.super self) = true) /\
  (forall self r, exec (NonPCMFormatChunk.parse byte_seq pos) self = Ret r ->
                  BaseChunk.valid (BaseChunk.super r) = true ->
                  BaseChunk.valid (BaseChunk.super self) = true) /\
  (forall self r, exec (ExtensibleFormatChunk.parse byte_seq pos) self = Ret r ->
                  BaseChunk.valid (BaseChunk.super r) = true ->
                  BaseChunk.valid (BaseChunk.super self) = true) /\
  (forall self r, exec (DataChunk.parse byte_seq pos) self = Ret r ->
                  BaseChunk.valid (DataChunk.base r) = true ->
                  BaseChunk.valid (DataChunk.base self) = true) /\
  (forall self r, exec (FactChunk.parse byte_seq pos) self = Ret r ->
                  BaseChunk.valid (FactChunk.base r) = true ->
                  BaseChunk.valid (FactChunk.base self) = true) /\
  (forall self r, exec (BextChunk.parse byte_seq pos) self = Ret r ->
                  BaseChunk.valid (BextChunk.base r) = true ->
                  BaseChunk.valid (BextChunk.base self) = true).
Proof.
  repeat split; intros self r Hr.
  - by_name_or_raise byte_seq pos self r Hr BaseChunk_parse_flag BaseChunk_exec_raises.
  - by_name_or_raise byte_seq pos self r Hr RiffChunk_parse_flag RiffChunk_exec_raises.
  - by_name_or_raise byte_seq pos self r Hr StandardPCMFormatChunk_parse_flag
                     StandardPCMFormatChunk_exec_raises.
  - by_name_or_raise byte_seq pos self r Hr NonPCMFormatChunk_parse_flag
                     NonPCMFormatChunk_exec_raises.
  - by_name_or_raise byte_seq pos self r Hr ExtensibleFormatChunk_parse_flag
                     ExtensibleFormatChunk_exec_raises.
  - by_name_or_raise byte_seq pos self r Hr DataChunk_parse_flag DataChunk_exec_raises.
  - by_name_or_raise byte_seq pos self r Hr FactChunk_parse_flag FactChunk_exec_raises.
  - by_name_or_raise byte_seq pos self r Hr BextChunk_parse_flag BextChunk_exec_raises.
Qed.

Lemma parse_never_sets_flag_witness :
  BaseChunk.valid (DataChunk.base data_flagged) = true.
Proof.
  destruct (parse_never_sets_flag (data_10 (payload_8 ++ [x09; x0a])) 0)
    as (_ & _ & _ & _ & _ & Hd & _).
  apply (Hd data_flagged
            (DataChunk.mk (BaseChunk.mk (lit "data") (Some DATA) 10 true)
                          (payload_8 ++ [x09; x0a]))).
  - vm_compute. reflexivity.
  - reflexivity.
Defined.

Lemma get_chunk_name_returns (byte_seq : bytes) (pos : Z) :
  len byte_seq < pos + 4 \/ ascii_bytes (slice byte_seq pos (pos + 4)) ->
  exists name, BaseChunk.get_chunk_name byte_seq pos = Ret name.
Proof.
  intros Hc. unfold BaseChunk.get_chunk_name, decode. rewrite Z.gtb_ltb.
  destruct (Z.ltb_spec (len byte_seq) (pos + 4)) as [Hlt|Hge]; [eauto|].
  destruct Hc as [Hs|Ha]; [lia|]. rewrite utf8_decode_ascii by exact Ha. eauto.
Qed.

Lemma wp_returns {S A : Type} (m : M S A) (Q : A -> S -> Prop) (s : S) :
  wp m Q s -> exists r, exec m s = Ret r.
Proof.
  unfold wp, exec. destruct (m s) as [[a s']|e]; [eauto | contradiction].
Qed.

(** X11.  With fewer than four bytes at the offset, or with four ASCII
    name bytes, every decoder returns a record on any object: the only
    exception a decode raises is the [UnicodeDecodeError] of a name that
    does not decode. *)
Theorem parse_returns_for_ascii_name (byte_seq : bytes) (pos : Z) :
  len byte_seq < pos + 4 \/ ascii_bytes (slice byte_seq pos (pos + 4)) ->
  (forall self : BaseChunk.t,
      exists r, exec (BaseChunk.parse byte_seq pos) self = Ret r) /\
  (forall self, exists r, exec (RiffChunk.parse byte_seq pos) self = Ret r) /\
  (forall self, exists r,
        exec (StandardPCMFormatChunk.parse byte_seq pos) self = Ret r) /\
  (forall self, exists r, exec (NonPCMFormatChunk.parse byte_seq pos) self = Ret r) /\
  (forall self, exists r,
        exec (ExtensibleFormatChunk.parse byte_seq pos) self = Ret r) /\
  (forall self, exists r, exec (DataChunk.parse byte_seq pos) self = Ret r) /\
  (forall self, exists r, exec (FactChunk.parse byte_seq pos) self = Ret r) /\
  (forall self, exists r, exec (BextChunk.parse byte_seq pos) self = Ret r).
Proof.
  intros Hc. destruct (get_chunk_name_returns byte_seq pos Hc) as [name En].
  repeat split; intros self.
  - apply (wp_returns _ _ _ (BaseChunk_parse_flag _ _ name En self)).
  - apply (wp_returns _ _ _ (RiffChunk_parse_flag _ _ name En self)).
  - apply (wp_returns _ _ _ (StandardPCMFormatChunk_parse_flag _ _ name En self)).
  - apply (wp_returns _ _ _ (NonPCMFormatChunk_parse_flag _ _ name En self)).
  - apply (wp_returns _ _ _ (ExtensibleFormatChunk_parse_flag _ _ name En self)).
  - apply (wp_returns _ _ _ (DataChunk_parse_flag _ _ name En self)).
  - apply (wp_returns _ _ _ (FactChunk_parse_flag _ _ name En self)).
  - apply (wp_returns _ _ _ (BextChunk_parse_flag _ _ name En self)).
Qed.

Lemma parse_returns_for_ascii_name_witness :
  exists r, exec (FactChunk.parse fact_1000 0) FactChunk.__init__ = Ret r.
Proof.
  assert (Hc : len fact_1000 < 0 + 4 \/ ascii_bytes (slice fact_1000 0 (0 + 4)))
    by (right; repeat constructor).
  destruct (parse_returns_for_ascii_name fact_1000 0 Hc)
    as (_ & _ & _ & _ & _ & _ & Hf & _).
  exact (Hf FactChunk.__init__).
Defined.

(** X12.  Decoding does not depend on what precedes the chunk: for a
    non-negative offset, every decoder run on [pre ++ byte_seq] at the
    offset moved by the length of [pre] gives, on any object, the result
    it gives on [byte_seq] at the offset. *)
Theorem parse_behind_prefix (pre byte_seq : bytes) (pos : Z) :
  0 <= pos ->
  (forall self : BaseChunk.t,
      exec (BaseChunk.parse (pre ++ byte_seq) (len pre + pos)) self
      = exec (BaseChunk.parse byte_seq pos) self) /\
  (forall self,
      exec (RiffChunk.parse (pre ++ byte_seq) (len pre + pos)) self
      = exec (RiffChunk.parse byte_seq pos) self) /\
  (forall self,
      exec (StandardPCMFormatChunk.parse (pre ++ byte_seq) (len pre + pos)) self
      = exec (StandardPCMFormatChunk.parse byte_seq pos) self) /\
  (forall self,
      exec (NonPCMFormatChunk.parse (pre ++ byte_seq) (len pre + pos)) self
      = exec (NonPCMFormatChunk.parse byte_seq pos) self) /\
  (forall self,
      exec (ExtensibleFormatChunk.parse (pre ++ byte_seq) (len pre + pos)) self
      = exec (ExtensibleFormatChunk.parse byte_seq pos) self) /\
  (forall self,
      exec (DataChunk.parse (pre ++ byte_seq) (len pre + pos)) self
      = exec (DataChunk.parse byte_seq pos) self) /\
  (forall self,
      exec (FactChunk.parse (pre ++ byte_seq) (len pre + pos)) self
      = exec (FactChunk.parse byte_seq pos) self) /\
  (forall self,
      exec (BextChunk.parse (pre ++ byte_seq) (len pre + pos)) self
      = exec (BextChunk.parse byte_seq pos) self).
Proof.
  intros Hpos. repeat split; intros self.
  - apply in_step_exec with (R := eq). now apply in_step_BaseChunk_parse.
  - now apply RiffChunk_parse_shift.
  - now apply StandardPCMFormatChunk_parse_shift.
  - now apply NonPCMFormatChunk_parse_shift.
  - now apply ExtensibleFormatChunk_parse_shift.
  - now apply DataChunk_parse_shift.
  - now apply FactChunk_parse_shift.
  - now apply BextChunk_parse_shift.
Qed.

Lemma parse_behind_prefix_witness :
  exec (StandardPCMFormatChunk.parse (riff_wave ++ fmt_pcm) (len riff_wave + 0))
       std_flagged
  = exec (StandardPCMFormatChunk.parse fmt_pcm 0) std_flagged.
Proof.
  assert (H0 : 0 <= 0) by discriminate.
  destruct (parse_behind_prefix riff_wave fmt_pcm 0 H0) as (_ & _ & Hs & _).
  exact (Hs std_flagged).
Defined.

(* ===================================================================== *)
(** ** Further properties: what each decoder accepts *)
(* ===================================================================== *)

Lemma lit_RIFF : lit "RIFF" = map byte_val (blit "RIFF").
Proof. reflexivity. Qed.

Lemma lit_WAVE : lit "WAVE" = map byte_val (blit "WAVE").
Proof. reflexivity. Qed.

Lemma read_span_fits (byte_data : bytes) (start_pos length : Z) :
  start_pos + length <= len byte_data ->
  read_span byte_data start_pos length
  = slice byte_data start_pos (start_pos + length).
Proof.
  intros Hl. unfold read_span. now rewrite Z.gtb_ltb, (proj2 (Z.ltb_ge _ _)) by lia.
Qed.

Lemma read_span_cut (byte_data : bytes) (start_pos length : Z) :
  len byte_data < start_pos + length -> read_span byte_data start_pos length = [].
Proof.
  intros Hl. unfold read_span. now rewrite Z.gtb_ltb, (proj2 (Z.ltb_lt _ _)) by lia.
Qed.

(** The twelve bytes of the header, from its three parts. *)
Lemma riff_header_parts (byte_seq : bytes) (pos : Z) :
  0 <= pos -> pos + 12 <= len byte_seq ->
  slice byte_seq pos (pos + 12) = riff_wave
  <-> slice byte_seq pos (pos + 4) = blit "RIFF" /\
      slice byte_seq (pos + 4) (pos + 8) = u32le 4 /\
      slice byte_seq (pos + 8) (pos + 12) = blit "WAVE".
Proof.
  intros Hp Hl.
  rewrite (slice_split byte_seq pos (pos + 4) (pos + 12)) by lia.
  rewrite (slice_split byte_seq (pos + 4) (pos + 8) (pos + 12)) by lia.
  assert (L1 : len (slice byte_seq pos (pos + 4)) = 4)
    by (rewrite slice_length; lia).
  assert (L2 : len (slice byte_seq (pos + 4) (pos + 8)) = 4)
    by (rewrite slice_length; lia).
  unfold len in L1, L2. split.
  - intros E. change riff_wave with (blit "RIFF" ++ u32le 4 ++ blit "WAVE") in E.
    apply app_eq_length in E as [E1 E]; [|simpl; lia].
    apply app_eq_length in E as [E2 E3]; [|simpl; lia].
    auto.
  - intros (-> & -> & ->). reflexivity.
Qed.

(** X13.  [RiffChunk.parse] accepts exactly the twelve bytes
    ["RIFF" + u32(4) + "WAVE"]: on an object whose flag is true, at a
    non-negative offset, the call returns with the flag still true if
    and only if those are the twelve bytes at the offset. *)
Theorem riff_flag_kept_iff_header (self : RiffChunk.t) (byte_seq : bytes) (pos : Z) :
  0 <= pos -> BaseChunk.valid (RiffChunk.base self) = true ->
  valid_of (exec (RiffChunk.parse byte_seq pos) self) = Some true
  <-> slice byte_seq pos (pos + 12) = riff_wave.
Proof.
  intros Hp Hv. split.
  - intros Hr.
    destruct (BaseChunk.get_chunk_name byte_seq pos) as [name|e] eqn:En;
      [|rewrite (RiffChunk_exec_raises _ _ e En) in Hr; discriminate Hr].
    destruct (wp_exec _ _ _ (RiffChunk_parse_valid byte_seq pos name En self))
      as (r & Er & Eb & _).
    rewrite Er in Hr. simpl in Hr. injection Hr as Hr.
    change (RiffChunk.base r) with (BaseChunk.super r) in Hr.
    rewrite Eb in Hr. cbn [BaseChunk.valid] in Hr.
    repeat (apply andb_true_iff in Hr; destruct Hr as [Hr ?]).
    match goal with H : (_ <=? _) = true |- _ => apply Z.leb_le in H end.
    match goal with H : (_ =? 4) = true |- _ => apply Z.eqb_eq in H end.
    repeat match goal with H : str_eqb _ _ = true |- _ => apply str_eqb_eq in H end.
    apply riff_header_parts; [lia | lia |]. repeat split.
    + apply (get_chunk_name_tag byte_seq pos (blit "RIFF")); [lia | repeat constructor|].
      rewrite En. now f_equal.
    + apply (get_chunk_size_bytes byte_seq pos Hp 4); [lia | lia | assumption].
    + match goal with
      | H : BaseChunk.parse_str _ 0 (-1) = lit "WAVE" |- _ =>
        rewrite read_span_fits in H by lia;
        replace (pos + 8 + 4) with (pos + 12) in H by lia;
        apply (parse_str_tag _ (blit "WAVE")) in H
      end; try assumption.
      * repeat constructor.
      * repeat constructor; discriminate.
      * discriminate.
      * assert (L : len (slice byte_seq (pos + 8) (pos + 12)) = 4)
          by (rewrite slice_length; lia).
        unfold len in L. simpl. lia.
  - intros Es.
    assert (Hl : pos + 12 <= len byte_seq).
    { assert (L : len (slice byte_seq pos (pos + 12)) = 12) by now rewrite Es.
      rewrite slice_nonneg in L by lia. unfold len in L.
      rewrite length_firstn, length_skipn in L. unfold len. lia. }
    apply riff_header_parts in Es as (E1 & E2 & E3); [|lia|lia].
    assert (En : BaseChunk.get_chunk_name byte_seq pos = Ret (lit "RIFF")).
    { rewrite lit_RIFF.
      apply (get_chunk_name_tag byte_seq pos (blit "RIFF"));
        [lia | repeat constructor | exact E1]. }
    assert (Ez : BaseChunk.get_chunk_size byte_seq pos = 4)
      by (apply (get_chunk_size_bytes byte_seq pos Hp 4); [lia | lia | exact E2]).
    destruct (wp_exec _ _ _ (RiffChunk_parse_valid byte_seq pos _ En self))
      as (r & Er & Eb & _).
    rewrite Er. simpl. f_equal.
    change (RiffChunk.base r) with (BaseChunk.super r).
    rewrite Eb. cbn [BaseChunk.valid].
    change (BaseChunk.super self) with (RiffChunk.base self).
    rewrite Hv, Ez, (proj2 (Z.leb_le _ _) Hl).
    rewrite read_span_fits by lia.
    replace (pos + 8 + 4) with (pos + 12) by lia. rewrite E3.
    reflexivity.
Qed.

Lemma riff_flag_kept_iff_header_witness :
  valid_of (exec (RiffChunk.parse riff_wave 0) riff_flagged) = Some true.
Proof.
  assert (Hp : 0 <= 0) by discriminate.
  assert (Hv : BaseChunk.valid (RiffChunk.base riff_flagged) = true) by reflexivity.
  apply (proj2 (riff_flag_kept_iff_header riff_flagged riff_wave 0 Hp Hv)).
  reflexivity.
Defined.

(** X14.  [StandardPCMFormatChunk.parse] returns whenever the name
    decodes, with the header of the classifier, and the flag it leaves is
    the flag it found, cleared unless the name is ["fmt "], the size field
    is 16 and the sixteen body bytes are in the buffer. *)
Theorem standard_format_flag (self : StandardPCMFormatChunk.t) (byte_seq : bytes)
        (pos : Z) (name : str) :
  BaseChunk.get_chunk_name byte_seq pos = Ret name ->
  exists r,
    exec (StandardPCMFormatChunk.parse byte_seq pos) self = Ret r /\
    BaseChunk.chunk_name (BaseChunk.super r) = name /\
    BaseChunk.chunk_size (BaseChunk.super r) = BaseChunk.get_chunk_size byte_seq pos /\
    BaseChunk.valid (BaseChunk.super r)
    = BaseChunk.valid (BaseChunk.super self) && str_eqb name (lit "fmt ")
      && (BaseChunk.get_chunk_size byte_seq pos =? 16)
      && (pos + 24 <=? len byte_seq).
Proof.
  intros En.
  destruct (wp_exec _ _ _ (StandardPCMFormatChunk_parse_valid byte_seq pos name En self))
    as (r & Er & Eb).
  exists r. split; [exact Er|]. rewrite Eb. repeat split.
Qed.

Lemma standard_format_flag_witness :
  exists r,
    exec (StandardPCMFormatChunk.parse fmt_pcm 0) std_flagged = Ret r /\
    BaseChunk.valid (BaseChunk.super r) = true.
Proof.
  assert (En : BaseChunk.get_chunk_name fmt_pcm 0 = Ret (lit "fmt "))
    by (vm_compute; reflexivity).
  destruct (standard_format_flag std_flagged fmt_pcm 0 (lit "fmt ") En)
    as (r & Er & _ & _ & Ev).
  exists r. split; [exact Er|]. rewrite Ev. vm_compute. reflexivity.
Defined.

(** X15.  [NonPCMFormatChunk.parse] returns whenever the name decodes,
    and the flag it leaves is the flag it found, cleared unless the name is
    ["fmt "], the size field is 18 and the eighteen body bytes, with the
    extension size, are in the buffer. *)
Theorem non_pcm_format_flag (self : NonPCMFormatChunk.t) (byte_seq : bytes)
        (pos : Z) (name : str) :
  BaseChunk.get_chunk_name byte_seq pos = Ret name ->
  exists r,
    exec (NonPCMFormatChunk.parse byte_seq pos) self = Ret r /\
    BaseChunk.chunk_name (BaseChunk.super r) = name /\
    BaseChunk.chunk_size (BaseChunk.super r) = BaseChunk.get_chunk_size byte_seq pos /\
    BaseChunk.valid (BaseChunk.super r)
    = BaseChunk.valid (BaseChunk.super self) && str_eqb name (lit "fmt ")
      && (BaseChunk.get_chunk_size byte_seq pos =? 18)
      && (pos + 26 <=? len byte_seq).
Proof.
  intros En.
  destruct (wp_exec _ _ _ (NonPCMFormatChunk_parse_valid byte_seq pos name En self))
    as (r & Er & Eb).
  exists r. split; [exact Er|]. rewrite Eb. repeat split.
Qed.

Lemma non_pcm_format_flag_witness :
  exists r,
    exec (NonPCMFormatChunk.parse fmt_18 0) nonpcm_flagged = Ret r /\
    BaseChunk.valid (BaseChunk.super r) = true.
Proof.
  assert (En : BaseChunk.get_chunk_name fmt_18 0 = Ret (lit "fmt "))
    by (vm_compute; reflexivity).
  destruct (non_pcm_format_flag nonpcm_flagged fmt_18 0 (lit "fmt ") En)
    as (r & Er & _ & _ & Ev).
  exists r. split; [exact Er|]. rewrite Ev. vm_compute. reflexivity.
Defined.

(** X16.  [ExtensibleFormatChunk.parse] returns whenever the name
    decodes, and the flag it leaves is the flag it found, cleared unless
    the name is ["fmt "], the size field is 40 and the forty body bytes are
    in the buffer. *)
Theorem extensible_format_flag (self : ExtensibleFormatChunk.t) (byte_seq : bytes)
        (pos : Z) (name : str) :
  BaseChunk.get_chunk_name byte_seq pos = Ret name ->
  exists r,
    exec (ExtensibleFormatChunk.parse byte_seq pos) self = Ret r /\
    BaseChunk.chunk_name (BaseChunk.super r) = name /\
    BaseChunk.chunk_size (BaseChunk.super r) = BaseChunk.get_chunk_size byte_seq pos /\
    BaseChunk.valid (BaseChunk.super r)
    = BaseChunk.valid (BaseChunk.super self) && str_eqb name (lit "fmt ")
      && (BaseChunk.get_chunk_size byte_seq pos =? 40)
      && (pos + 48 <=? len byte_seq).
Proof.
  intros En.
  destruct (wp_exec _ _ _ (ExtensibleFormatChunk_parse_valid byte_seq pos name En self))
    as (r & Er & Eb).
  exists r. split; [exact Er|]. rewrite Eb. repeat split.
Qed.

Lemma extensible_format_flag_witness :
  exists r,
    exec (ExtensibleFormatChunk.parse fmt_40 0) ext_flagged = Ret r /\
    BaseChunk.valid (BaseChunk.super r) = true.
Proof.
  assert (En : BaseChunk.get_chunk_name fmt_40 0 = Ret (lit "fmt "))
    by (vm_compute; reflexivity).
  destruct (extensible_format_flag ext_flagged fmt_40 0 (lit "fmt ") En)
    as (r & Er & _ & _ & Ev).
  exists r. split; [exact Er|]. rewrite Ev. vm_compute. reflexivity.
Defined.

Lemma data_chunk_flag_and_payload_aux (self : DataChunk.t) (byte_seq : bytes)
      (pos : Z) (name : str) :
  BaseChunk.get_chunk_name byte_seq pos = Ret name ->
  exists r,
    exec (DataChunk.parse byte_seq pos) self = Ret r /\
    BaseChunk.chunk_size (DataChunk.base r) = BaseChunk.get_chunk_size byte_seq pos /\
    BaseChunk.valid (DataChunk.base r)
    = BaseChunk.valid (DataChunk.base self) && str_eqb name (lit "data")
      && (pos + 8 + BaseChunk.get_chunk_size byte_seq pos <=? len byte_seq) /\
    DataChunk.data r
    = read_span byte_seq (pos + 8) (BaseChunk.get_chunk_size byte_seq pos).
Proof.
  intros En.
  destruct (wp_exec _ _ _ (DataChunk_parse_valid byte_seq pos name En self))
    as (r & Er & Eb & Ed).
  exists r. split; [exact Er|].
  change (DataChunk.base r) with (BaseChunk.super r). rewrite Eb.
  repeat split. exact Ed.
Qed.

(** X17.  [DataChunk.parse] returns whenever the name decodes; the flag
    it leaves is the flag it found, cleared unless the name is ["data"] and
    the span of [chunk_size] bytes after the header lies in the buffer, and
    the payload is that span, or empty when it does not lie in the buffer. *)
Theorem data_chunk_flag_and_payload (self : DataChunk.t) (byte_seq : bytes)
        (pos : Z) (name : str) :
  BaseChunk.get_chunk_name byte_seq pos = Ret name ->
  exists r,
    exec (DataChunk.parse byte_seq pos) self = Ret r /\
    BaseChunk.chunk_size (DataChunk.base r) = BaseChunk.get_chunk_size byte_seq pos /\
    BaseChunk.valid (DataChunk.base r)
    = BaseChunk.valid (DataChunk.base self) && str_eqb name (lit "data")
      && (pos + 8 + BaseChunk.get_chunk_size byte_seq pos <=? len byte_seq) /\
    DataChunk.data r
    = read_span byte_seq (pos + 8) (BaseChunk.get_chunk_size byte_seq pos).
Proof.
  intros En. exact (data_chunk_flag_and_payload_aux self byte_seq pos name En).
Qed.

Lemma data_chunk_flag_and_payload_witness :
  exists r,
    exec (DataChunk.parse (data_10 (payload_8 ++ [x09; x0a])) 0) data_flagged = Ret r /\
    BaseChunk.valid (DataChunk.base r) = true /\
    DataChunk.data r = payload_8 ++ [x09; x0a].
Proof.
  assert (En : BaseChunk.get_chunk_name (data_10 (payload_8 ++ [x09; x0a])) 0
               = Ret (lit "data")) by (vm_compute; reflexivity).
  destruct (data_chunk_flag_and_payload data_flagged _ 0 (lit "data") En)
    as (r & Er & _ & Ev & Ed).
  exists r. split; [exact Er|]. split.
  - rewrite Ev. vm_compute. reflexivity.
  - rewrite Ed. vm_compute. reflexivity.
Defined.

(** X18.  A data chunk that keeps the flag has the payload it declares:
    at a non-negative offset with the header in the buffer, if the flag is
    true after [DataChunk.parse] then the payload is the [chunk_size] bytes
    after the header. *)
Theorem data_valid_payload_has_declared_size (self r : DataChunk.t)
        (byte_seq : bytes) (pos : Z) :
  0 <= pos -> pos + 8 <= len byte_seq ->
  exec (DataChunk.parse byte_seq pos) self = Ret r ->
  BaseChunk.valid (DataChunk.base r) = true ->
  len (DataChunk.data r) = BaseChunk.chunk_size (DataChunk.base r) /\
  DataChunk.data r
  = slice byte_seq (pos + 8) (pos + 8 + BaseChunk.chunk_size (DataChunk.base r)).
Proof.
  intros Hp Hl Hr Hv.
  destruct (BaseChunk.get_chunk_name byte_seq pos) as [name|e] eqn:En;
    [|rewrite (DataChunk_exec_raises _ _ e En) in Hr; discriminate Hr].
  destruct (data_chunk_flag_and_payload_aux self byte_seq pos name En)
    as (r' & Er & Ez & Ev & Ed).
  rewrite Hr in Er. injection Er as <-.
  rewrite Ev in Hv. apply andb_true_iff in Hv as [_ Hfit].
  apply Z.leb_le in Hfit.
  assert (H0 : 0 <= BaseChunk.get_chunk_size byte_seq pos).
  { unfold BaseChunk.get_chunk_size.
    rewrite Z.gtb_ltb, (proj2 (Z.ltb_ge _ _)) by lia.
    apply (parse_int_unsigned_range_aux byte_seq (pos + 4) (pos + 8) little). }
  rewrite Ed, Ez, read_span_fits by lia. split; [|reflexivity].
  rewrite slice_length by lia. lia.
Qed.

Lemma data_valid_payload_has_declared_size_witness :
  len (payload_8 ++ [x09; x0a]) = 10.
Proof.
  assert (Hp : 0 <= 0) by discriminate.
  assert (Hl : 0 + 8 <= len (data_10 (payload_8 ++ [x09; x0a]))) by discriminate.
  apply (data_valid_payload_has_declared_size
           data_flagged
           (DataChunk.mk (BaseChunk.mk (lit "data") (Some DATA) 10 true)
                         (payload_8 ++ [x09; x0a]))
           (data_10 (payload_8 ++ [x09; x0a])) 0 Hp Hl).
  - vm_compute. reflexivity.
  - reflexivity.
Defined.

(** X19.  The sentinel size [-1] is used as a length: when the name
    ["data"] is in the buffer but the size field is not, [DataChunk.parse]
    stores the size [-1] and an empty payload, and it clears the flag
    unless exactly seven bytes are left at the offset. *)
Theorem data_header_cut_in_size (self : DataChunk.t) (byte_seq : bytes) (pos : Z) :
  0 <= pos -> len byte_seq < pos + 8 ->
  BaseChunk.get_chunk_name byte_seq pos = Ret (lit "data") ->
  exists r,
    exec (DataChunk.parse byte_seq pos) self = Ret r /\
    BaseChunk.chunk_size (DataChunk.base r) = -1 /\
    DataChunk.data r = [] /\
    BaseChunk.valid (DataChunk.base r)
    = BaseChunk.valid (DataChunk.base self) && (len byte_seq =? pos + 7).
Proof.
  intros Hp Hl En.
  destruct (data_chunk_flag_and_payload_aux self byte_seq pos _ En)
    as (r & Er & Ez & Ev & Ed).
  assert (Es : BaseChunk.get_chunk_size byte_seq pos = -1).
  { unfold BaseChunk.get_chunk_size.
    now rewrite Z.gtb_ltb, (proj2 (Z.ltb_lt _ _)) by lia. }
  rewrite Es in *. exists r. repeat split; try assumption.
  - rewrite Ed. unfold read_span.
    destruct (pos + 8 + -1 >? len byte_seq); [reflexivity|].
    rewrite slice_nonneg by lia.
    replace (Z.to_nat (Z.min (pos + 8 + -1) (len byte_seq) - (pos + 8)))
      with 0%nat by lia.
    reflexivity.
  - rewrite Ev. change (str_eqb (lit "data") (lit "data")) with true.
    rewrite andb_true_r. f_equal.
    destruct (Z.leb_spec (pos + 8 + -1) (len byte_seq)),
             (Z.eqb_spec (len byte_seq) (pos + 7)); lia || reflexivity.
Qed.

Lemma data_header_cut_in_size_witness :
  exists r,
    exec (DataChunk.parse (blit "data" ++ [x0a; x00; x00]) 0) data_flagged = Ret r /\
    BaseChunk.chunk_size (DataChunk.base r) = -1 /\
    BaseChunk.valid (DataChunk.base r) = true.
Proof.
  assert (Hp : 0 <= 0) by discriminate.
  assert (Hl : len (blit "data" ++ [x0a; x00; x00]) < 0 + 8) by reflexivity.
  assert (En : BaseChunk.get_chunk_name (blit "data" ++ [x0a; x00; x00]) 0
               = Ret (lit "data")) by (vm_compute; reflexivity).
  destruct (data_header_cut_in_size data_flagged _ 0 Hp Hl En)
    as (r & Er & Ez & _ & Ev).
  exists r. split; [exact Er|]. split; [exact Ez|]. rewrite Ev. reflexivity.
Defined.

(** X20.  [FactChunk.parse] never leaves the flag true: it returns
    whenever the name decodes, and on any object, the flag set or not, the
    flag it leaves is false, because the classifier gives the name
    ["fact"] no tag while the decoder asks for [UNKNOWN]. *)
Theorem fact_chunk_never_valid (self : FactChunk.t) (byte_seq : bytes)
        (pos : Z) (name : str) :
  BaseChunk.get_chunk_name byte_seq pos = Ret name ->
  exists r,
    exec (FactChunk.parse byte_seq pos) self = Ret r /\
    BaseChunk.chunk_name (FactChunk.base r) = name /\
    BaseChunk.valid (FactChunk.base r) = false.
Proof.
  intros En.
  destruct (wp_exec _ _ _ (FactChunk_parse_valid byte_seq pos name En self))
    as (r & Er & Eb).
  exists r. split; [exact Er|].
  change (FactChunk.base r) with (BaseChunk.super r). rewrite Eb. split; reflexivity.
Qed.

Lemma fact_chunk_never_valid_witness :
  exists r,
    exec (FactChunk.parse fact_1000 0) fact_flagged = Ret r /\
    BaseChunk.chunk_name (FactChunk.base r) = lit "fact" /\
    BaseChunk.valid (FactChunk.base r) = false.
Proof.
  assert (En : BaseChunk.get_chunk_name fact_1000 0 = Ret (lit "fact"))
    by (vm_compute; reflexivity).
  exact (fact_chunk_never_valid fact_flagged fact_1000 0 (lit "fact") En).
Defined.

(** X21.  The layout of a ["bext"] chunk: after [BextChunk.parse] each
    of the sixteen byte attributes holds the span of its field, at the
    offset and with the width of the Broadcast Wave layout, when the span
    lies in the buffer, and is empty when it does not. *)
Theorem bext_field_layout (self : BextChunk.t) (byte_seq : bytes)
        (pos : Z) (name : str) :
  0 <= pos ->
  BaseChunk.get_chunk_name byte_seq pos = Ret name ->
  exists r,
    exec (BextChunk.parse byte_seq pos) self = Ret r /\
    forall f,
      (pos + bext_offset f + bext_width f <= len byte_seq ->
       BextChunk.fields r f
       = slice byte_seq (pos + bext_offset f) (pos + bext_offset f + bext_width f) /\
       len (BextChunk.fields r f) = bext_width f) /\
      (len byte_seq < pos + bext_offset f + bext_width f ->
       BextChunk.fields r f = []).
Proof.
  intros Hp En.
  destruct (wp_exec _ _ _ (BextChunk_parse_fields byte_seq pos name self En))
    as (r & Er & Ef).
  exists r. split; [exact Er|]. intros f. rewrite Ef. split; intros Hl.
  - rewrite read_span_fits by lia. split; [reflexivity|].
    rewrite slice_length; destruct f; cbn [bext_offset bext_width] in *; lia.
  - now apply read_span_cut.
Qed.

Lemma bext_field_layout_witness :
  exists r,
    exec (BextChunk.parse (bext_cut 380) 0) bext_flagged = Ret r /\
    len (BextChunk.fields r BextChunk._version) = 1 /\
    BextChunk.fields r BextChunk.umid = [].
Proof.
  assert (Hp : 0 <= 0) by discriminate.
  assert (En : BaseChunk.get_chunk_name (bext_cut 380) 0 = Ret (lit "bext"))
    by (vm_compute; reflexivity).
  destruct (bext_field_layout bext_flagged (bext_cut 380) 0 (lit "bext") Hp En)
    as (r & Er & Ef).
  exists r. split; [exact Er|]. split.
  - apply (proj1 (Ef BextChunk._version)). vm_compute. discriminate.
  - apply (proj2 (Ef BextChunk.umid)). vm_compute. reflexivity.
Defined.

(** X22.  A field of a ["bext"] chunk that is not wholly in the buffer
    reads as nothing: its integer accessor gives 0 and its text accessor
    the empty string; so do [version], [loudness_value] and [description]
    of a buffer cut before them. *)
Theorem bext_cut_field_reads_zero (self : BextChunk.t) (byte_seq : bytes)
        (pos : Z) (name : str) :
  BaseChunk.get_chunk_name byte_seq pos = Ret name ->
  exists r,
    exec (BextChunk.parse byte_seq pos) self = Ret r /\
    (forall f,
        len byte_seq < pos + bext_offset f + bext_width f ->
        BaseChunk.parse_int (BextChunk.fields r f) 0 (bext_width f) little false = 0 /\
        BaseChunk.parse_str (BextChunk.fields r f) 0 (-1) = lit "") /\
    (len byte_seq < pos + 264 -> BextChunk.description r = lit "") /\
    (len byte_seq < pos + 357 -> BextChunk.version r = 0) /\
    (len byte_seq < pos + 423 -> BextChunk.loudness_value r = 0).
Proof.
  intros En.
  destruct (wp_exec _ _ _ (BextChunk_parse_fields byte_seq pos name self En))
    as (r & Er & Ef).
  assert (Hcut : forall f,
             len byte_seq < pos + bext_offset f + bext_width f ->
             BextChunk.fields r f = []).
  { intros f Hl. rewrite Ef. apply read_span_cut. lia. }
  exists r. split; [exact Er|]. repeat split.
  - rewrite (Hcut f) by assumption. unfold BaseChunk.parse_int.
    now rewrite slice_empty.
  - now rewrite (Hcut f) by assumption.
  - intros Hl. unfold BextChunk.description.
    now rewrite (Hcut BextChunk._description) by (cbn; lia).
  - intros Hl. unfold BextChunk.version.
    now rewrite (Hcut BextChunk._version) by (cbn; lia).
  - intros Hl. unfold BextChunk.loudness_value.
    now rewrite (Hcut BextChunk._loudness_value) by (cbn; lia).
Qed.

Lemma bext_cut_field_reads_zero_witness :
  exists r,
    exec (BextChunk.parse (bext_cut 380) 0) bext_flagged = Ret r /\
    BextChunk.loudness_value r = 0.
Proof.
  assert (En : BaseChunk.get_chunk_name (bext_cut 380) 0 = Ret (lit "bext"))
    by (vm_compute; reflexivity).
  destruct (bext_cut_field_reads_zero bext_flagged (bext_cut 380) 0 (lit "bext") En)
    as (r & Er & _ & _ & _ & Hv).
  exists r. split; [exact Er|]. apply Hv. vm_compute. reflexivity.
Defined.

(* ===================================================================== *)
(** ** Further properties: the format fields *)
(* ===================================================================== *)

Lemma parse_int_u16le (n : Z) :
  0 <= n < 65536 -> BaseChunk.parse_int (u16le n) 0 2 little false = n.
Proof.
  intros Hn. unfold BaseChunk.parse_int, int_from_bytes. cbn [andb].
  change 2 with (len (u16le n)). rewrite slice_whole. now apply le_uint_u16le.
Qed.

Lemma parse_int_u32le (n : Z) :
  0 <= n < 4294967296 -> BaseChunk.parse_int (u32le n) 0 4 little false = n.
Proof.
  intros Hn. unfold BaseChunk.parse_int, int_from_bytes. cbn [andb].
  change 4 with (len (u32le n)). rewrite slice_whole. now apply le_uint_u32le.
Qed.

Section FormatRoundTrip.
Variables (tag channels sample_rate byte_rate block_align bits : Z) (post : bytes).

Lemma fmt_chunk_len :
  len (fmt_chunk tag channels sample_rate byte_rate block_align bits) = 24.
Proof. reflexivity. Qed.

Lemma fmt_chunk_span (a n : Z) :
  0 <= a -> 0 <= n -> a + n <= 24 ->
  read_span (fmt_chunk tag channels sample_rate byte_rate block_align bits ++ post)
            (0 + a) n
  = slice (fmt_chunk tag channels sample_rate byte_rate block_align bits) a (a + n).
Proof.
  intros Ha Hn Hl. pose proof (len_nonneg post). pose proof fmt_chunk_len as L.
  rewrite read_span_fits by (rewrite len_app; lia).
  rewrite Z.add_0_l. apply slice_app_l; lia.
Qed.

Lemma fmt_chunk_name :
  BaseChunk.get_chunk_name
    (fmt_chunk tag channels sample_rate byte_rate block_align bits ++ post) 0
  = Ret (lit "fmt ").
Proof.
  pose proof (len_nonneg post). pose proof fmt_chunk_len as L.
  apply (get_chunk_name_tag _ 0 (blit "fmt "));
    [rewrite len_app; lia | repeat constructor |].
  rewrite slice_app_l by lia. reflexivity.
Qed.

Lemma fmt_chunk_size :
  BaseChunk.get_chunk_size
    (fmt_chunk tag channels sample_rate byte_rate block_align bits ++ post) 0
  = 16.
Proof.
  pose proof (len_nonneg post). pose proof fmt_chunk_len as L.
  apply (get_chunk_size_bytes _ 0 (Z.le_refl 0) 16);
    [rewrite len_app; lia | lia |].
  rewrite slice_app_l by lia. reflexivity.
Qed.

End FormatRoundTrip.

(** X23.  A standard format chunk is read back: for any six field values
    in range, the 24 bytes ["fmt " + u32(16)] and the little-endian fields,
    behind any prefix and before any rest, are decoded by
    [StandardPCMFormatChunk.parse] on any object with the flag left as it
    was, the tag of the format code, and accessors that return the five
    other values. *)
Theorem standard_format_round_trip (self : StandardPCMFormatChunk.t)
        (pre post : bytes) (tag channels sample_rate byte_rate block_align bits : Z) :
  0 <= tag < 65536 -> 0 <= channels < 65536 ->
  0 <= sample_rate < 4294967296 -> 0 <= byte_rate < 4294967296 ->
  0 <= block_align < 65536 -> 0 <= bits < 65536 ->
  exists r,
    exec (StandardPCMFormatChunk.parse
            (pre ++ fmt_chunk tag channels sample_rate byte_rate block_align bits
                 ++ post)
            (len pre)) self = Ret r /\
    BaseChunk.valid (BaseChunk.super r) = BaseChunk.valid (BaseChunk.super self) /\
    BaseChunk.chunk_type (BaseChunk.super r) = Some STANDARD_FMT /\
    BaseFormatChunk.format_tag (BaseFormatChunk.fsuper r) = format_tag_of tag /\
    BaseFormatChunk.channels r = channels /\
    BaseFormatChunk.sample_rate r = sample_rate /\
    BaseFormatChunk.byte_rate r = byte_rate /\
    BaseFormatChunk.block_align r = block_align /\
    BaseFormatChunk.bits_per_sample r = bits.
Proof.
  intros Ht Hc Hs Hb Ha Hi.
  replace (len pre) with (len pre + 0) by lia.
  rewrite StandardPCMFormatChunk_parse_shift by lia.
  pose proof (fmt_chunk_name tag channels sample_rate byte_rate block_align bits post)
    as En.
  pose proof (fmt_chunk_size tag channels sample_rate byte_rate block_align bits post)
    as Ez.
  destruct (wp_exec _ _ _ (StandardPCMFormatChunk_parse_fields _ 0 _ En self))
    as (r & Er & ty & Ety & Ef).
  exists r. split; [exact Er|].
  assert (Ety' : ty = Some STANDARD_FMT).
  { pose proof (fmt_name_type _ _ _ _ En Ety eq_refl) as E. now rewrite Ez in E. }
  unfold BaseFormatChunk.channels, BaseFormatChunk.sample_rate,
    BaseFormatChunk.byte_rate, BaseFormatChunk.block_align,
    BaseFormatChunk.bits_per_sample.
  change (BaseChunk.super r) with (BaseFormatChunk.base (BaseFormatChunk.fsuper r)).
  rewrite Ef.
  cbn [BaseFormatChunk.base BaseFormatChunk.format_tag BaseFormatChunk._channels
       BaseFormatChunk._sample_rate BaseFormatChunk._byte_rate
       BaseFormatChunk._block_align BaseFormatChunk._bits_per_sample
       BaseChunk.valid BaseChunk.chunk_type].
  rewrite !fmt_chunk_span by lia.
  rewrite Ez.
  pose proof (len_nonneg post) as Hp.
  pose proof (fmt_chunk_len tag channels sample_rate byte_rate block_align bits) as L.
  repeat split.
  - change (str_eqb (lit "fmt ") (lit "fmt ")) with true.
    rewrite (proj2 (Z.leb_le (0 + 24) _)) by (rewrite len_app; lia).
    now rewrite !andb_true_r.
  - exact Ety'.
  - change (slice (fmt_chunk _ _ _ _ _ _) 8 (8 + 2)) with (u16le tag).
    unfold BaseFormatChunk._get_format_tag, format_tag_of.
    now rewrite parse_int_u16le.
  - change (slice (fmt_chunk _ _ _ _ _ _) 10 (10 + 2)) with (u16le channels).
    now apply parse_int_u16le.
  - change (slice (fmt_chunk _ _ _ _ _ _) 12 (12 + 4)) with (u32le sample_rate).
    now apply parse_int_u32le.
  - change (slice (fmt_chunk _ _ _ _ _ _) 16 (16 + 4)) with (u32le byte_rate).
    now apply parse_int_u32le.
  - change (slice (fmt_chunk _ _ _ _ _ _) 20 (20 + 2)) with (u16le block_align).
    now apply parse_int_u16le.
  - change (slice (fmt_chunk _ _ _ _ _ _) 22 (22 + 2)) with (u16le bits).
    now apply parse_int_u16le.
Qed.

Lemma standard_format_round_trip_witness :
  exists r,
    exec (StandardPCMFormatChunk.parse
            (riff_wave ++ fmt_chunk 3 6 96000 2304000 24 32 ++ data_10 payload_8)
            (len riff_wave)) std_flagged = Ret r /\
    BaseChunk.valid (BaseChunk.super r) = true /\
    BaseFormatChunk.format_tag (BaseFormatChunk.fsuper r)
    = BaseFormatChunk.FormatTag.IEEE_FLOAT /\
    BaseFormatChunk.channels r = 6 /\
    BaseFormatChunk.sample_rate r = 96000.
Proof.
  destruct (standard_format_round_trip
              std_flagged riff_wave (data_10 payload_8) 3 6 96000 2304000 24 32)
    as (r & Er & Ev & _ & Et & Ec & Es & _);
    try (split; [discriminate | reflexivity]).
  exists r. repeat split; assumption.
Defined.

(** X24.  Decoding again changes nothing: the object
    [StandardPCMFormatChunk.parse] leaves is a fixed point of the same
    call on the same buffer and offset. *)
Theorem standard_format_parse_again (self r : StandardPCMFormatChunk.t)
        (byte_seq : bytes) (pos : Z) :
  exec (StandardPCMFormatChunk.parse byte_seq pos) self = Ret r ->
  exec (StandardPCMFormatChunk.parse byte_seq pos) r = Ret r.
Proof.
  intros Hr.
  destruct (BaseChunk.get_chunk_name byte_seq pos) as [name|e] eqn:En;
    [|rewrite (StandardPCMFormatChunk_exec_raises _ _ e En) in Hr; discriminate Hr].
  destruct (wp_exec _ _ _ (StandardPCMFormatChunk_parse_fields byte_seq pos name En self))
    as (r1 & Er1 & ty & Ety & Ef1).
  rewrite Hr in Er1. injection Er1 as <-.
  destruct (wp_exec _ _ _ (StandardPCMFormatChunk_parse_fields byte_seq pos name En r))
    as (r2 & Er2 & ty2 & Ety2 & Ef2).
  rewrite Er2. f_equal.
  assert (ty2 = ty) by congruence. subst ty2.
  assert (E : BaseFormatChunk.fsuper r2 = BaseFormatChunk.fsuper r).
  { rewrite Ef2.
    change (BaseChunk.super r) with (BaseFormatChunk.base (BaseFormatChunk.fsuper r)).
    rewrite Ef1. cbn [BaseFormatChunk.base BaseChunk.valid].
    do 2 f_equal.
    destruct (BaseChunk.valid (BaseChunk.super self)),
             (str_eqb name (lit "fmt ")),
             (BaseChunk.get_chunk_size byte_seq pos =? 16),
             (pos + 24 <=? len byte_seq); reflexivity. }
  destruct r2, r. cbn in E. now rewrite E.
Qed.

Lemma standard_format_parse_again_witness :
  exec (StandardPCMFormatChunk.parse fmt_pcm 0)
       (StandardPCMFormatChunk.mk
          (BaseFormatChunk.mk
             (BaseChunk.mk (lit "fmt ") (Some STANDARD_FMT) 16 true)
             BaseFormatChunk.FormatTag.PCM
             (u16le 2) (u32le 44100) (u32le 176400) (u16le 4) (u16le 16)))
  = Ret (StandardPCMFormatChunk.mk
           (BaseFormatChunk.mk
              (BaseChunk.mk (lit "fmt ") (Some STANDARD_FMT) 16 true)
              BaseFormatChunk.FormatTag.PCM
              (u16le 2) (u32le 44100) (u32le 176400) (u16le 4) (u16le 16))).
Proof.
  apply (standard_format_parse_again std_flagged _ fmt_pcm 0).
  vm_compute. reflexivity.
Defined.
